(** * The OBS recording orchestrator of wow-recorder, embedded in Rocq

    The sources hold three revisions of [src/main/obsRecorder.ts]: the
    function based revision, which exports plain functions ([reconfigure],
    [start], [stop], ...); the class based revision, a class [ObsRecorder]
    whose [start] and [stop] do not await the signals; and a class
    [ObsRecorder] with static helpers.  The development follows the function
    based revision and embeds the others where they differ.

    Part I gives the data model and the embedded functions; Part II states
    and proves the properties. *)

From Stdlib Require Import ZArith Lia Bool Ascii String List.
From stdpp Require Import base option list gmap strings pretty.

Local Open Scope string_scope.
Local Open Scope list_scope.
Local Open Scope Z_scope.

(* ===================================================================== *)
(** * Part I: definitions *)
(* ===================================================================== *)

(** ** JavaScript numbers

    The numbers that occur in this program are integer valued doubles, the
    two infinities and NaN.  [Num z] stands for the double whose value is the
    integer [z]; every operation rounds its exact result to the nearest
    double (ties to even, 53 bit significand) through [toNumber], so the
    model agrees with IEEE 754 on integer operands.  Positive and negative
    zero are identified (nothing here observes the difference) and
    fractional values are outside the model. *)

Inductive number : Type :=
| Num (z : Z)
| NaN
| PInf
| NInf.

(** Round a magnitude [m >= 0] to 53 significant bits, ties to even. *)
Definition roundMagnitude (m : Z) : Z :=
  let e := Z.log2 m in
  if e <? 53 then m
  else
    let sh := e - 52 in
    let q := Z.shiftr m sh in
    let r := Z.land m (Z.ones sh) in
    let half := Z.shiftl 1 (sh - 1) in
    let q' := if (half <? r) || ((r =? half) && Z.odd q) then q + 1 else q in
    Z.shiftl q' sh.

(** The Number value of a mathematical integer. *)
Definition toNumber (z : Z) : number :=
  let m := roundMagnitude (Z.abs z) in
  if 2 ^ 1024 <=? m then (if z <? 0 then NInf else PInf)
  else Num (Z.sgn z * m).

Definition jsNeg (a : number) : number :=
  match a with
  | Num x => Num (- x)
  | NaN => NaN
  | PInf => NInf
  | NInf => PInf
  end.

(** [a + b] *)
Definition jsAdd (a b : number) : number :=
  match a, b with
  | NaN, _ | _, NaN => NaN
  | Num x, Num y => toNumber (x + y)
  | PInf, NInf | NInf, PInf => NaN
  | PInf, _ | _, PInf => PInf
  | NInf, _ | _, NInf => NInf
  end.

(** [a - b] *)
Definition jsSub (a b : number) : number := jsAdd a (jsNeg b).

(** The sign of a number that is not NaN: -1, 0 or 1. *)
Definition signOf (a : number) : Z :=
  match a with
  | Num x => Z.sgn x
  | PInf => 1
  | NInf => -1
  | NaN => 0
  end.

(** [a * b] *)
Definition jsMul (a b : number) : number :=
  match a, b with
  | NaN, _ | _, NaN => NaN
  | Num x, Num y => toNumber (x * y)
  | _, _ =>
      match signOf a * signOf b with
      | Z0 => NaN
      | Zpos _ => PInf
      | Zneg _ => NInf
      end
  end.

(** [Math.abs(a)] *)
Definition Math_abs (a : number) : number :=
  match a with
  | Num x => Num (Z.abs x)
  | NaN => NaN
  | PInf | NInf => PInf
  end.

(** [a < b] on numbers; false when either side is NaN. *)
Definition jsLt (a b : number) : bool :=
  match a, b with
  | NaN, _ | _, NaN => false
  | Num x, Num y => x <? y
  | NInf, NInf => false
  | NInf, _ => true
  | _, NInf => false
  | PInf, _ => false
  | _, PInf => true
  end.

(** [a === b] on numbers; NaN is not equal to itself. *)
Definition numStrictEq (a b : number) : bool :=
  match a, b with
  | Num x, Num y => x =? y
  | PInf, PInf | NInf, NInf => true
  | _, _ => false
  end.

(** [Math.min(...values)]: Infinity for no argument, NaN as soon as one
    argument is NaN, the least argument otherwise. *)
Definition min2 (acc v : number) : number :=
  match acc, v with
  | NaN, _ | _, NaN => NaN
  | _, _ => if jsLt v acc then v else acc
  end.

Definition Math_min (values : list number) : number :=
  fold_left min2 values PInf.

(** [array.indexOf(x)] on an array of numbers: the first index holding a
    value strictly equal to [x], or -1. *)
Fixpoint indexOfFrom (array : list number) (x : number) (k : Z) : Z :=
  match array with
  | [] => -1
  | y :: rest => if numStrictEq y x then k else indexOfFrom rest x (k + 1)
  end.

Definition indexOf (array : list number) (x : number) : Z :=
  indexOfFrom array x 0.

(** [array[i]] for an integer index: [None] is JavaScript's [undefined]. *)
Definition arrayGet {A : Type} (array : list A) (i : Z) : option A :=
  if i <? 0 then None else array !! Z.to_nat i.

(** ** Strings: [split] and [parseInt] *)

(** [s.split(separator)] for a separator of one character. *)
Fixpoint split (separator : ascii) (s : string) : list string :=
  match s with
  | EmptyString => [EmptyString]
  | String c rest =>
      if Ascii.eqb c separator then EmptyString :: split separator rest
      else
        match split separator rest with
        | piece :: pieces => String c piece :: pieces
        | [] => [String c EmptyString]
        end
  end.

(** The white space that [parseInt] skips is StrWhiteSpaceChar.  A string
    is a text in UTF-8, so a white space character takes one, two or three
    bytes.  In one byte: TAB, LF, VT, FF, CR, SP. *)
Definition isStrWhiteSpaceChar (c : ascii) : bool :=
  let n := Z.of_nat (nat_of_ascii c) in
  ((9 <=? n) && (n <=? 13)) || (n =? 32).

(** In two bytes: U+00A0 (C2 A0). *)
Definition isStrWhiteSpace2 (c0 c1 : ascii) : bool :=
  (Z.of_nat (nat_of_ascii c0) =? 194) && (Z.of_nat (nat_of_ascii c1) =? 160).

(** In three bytes: U+1680 (E1 9A 80); U+2000 to U+200A, U+2028, U+2029
    and U+202F (E2 80 80 to 8A, A8, A9, AF); U+205F (E2 81 9F); U+3000
    (E3 80 80); U+FEFF (EF BB BF). *)
Definition isStrWhiteSpace3 (c0 c1 c2 : ascii) : bool :=
  let b0 := Z.of_nat (nat_of_ascii c0) in
  let b1 := Z.of_nat (nat_of_ascii c1) in
  let b2 := Z.of_nat (nat_of_ascii c2) in
  ((b0 =? 225) && ((b1 =? 154) && (b2 =? 128)))
  || ((b0 =? 226)
      && (((b1 =? 128)
           && (((128 <=? b2) && (b2 <=? 138))
               || (b2 =? 168) || (b2 =? 169) || (b2 =? 175)))
          || ((b1 =? 129) && (b2 =? 159))))
  || ((b0 =? 227) && ((b1 =? 128) && (b2 =? 128)))
  || ((b0 =? 239) && ((b1 =? 187) && (b2 =? 191))).

Fixpoint trimStart (s : string) : string :=
  match s with
  | EmptyString => EmptyString
  | String c0 rest0 =>
      if isStrWhiteSpaceChar c0 then trimStart rest0
      else
        match rest0 with
        | String c1 rest1 =>
            if isStrWhiteSpace2 c0 c1 then trimStart rest1
            else
              match rest1 with
              | String c2 rest2 =>
                  if isStrWhiteSpace3 c0 c1 c2 then trimStart rest2 else s
              | EmptyString => s
              end
        | EmptyString => s
        end
  end.

(** The value of a digit character: 0-9, then a-z and A-Z for 10-35. *)
Definition digitValue (c : ascii) : option Z :=
  let n := Z.of_nat (nat_of_ascii c) in
  if (48 <=? n) && (n <=? 57) then Some (n - 48)
  else if (97 <=? n) && (n <=? 122) then Some (n - 87)
  else if (65 <=? n) && (n <=? 90) then Some (n - 55)
  else None.

(** Read the longest prefix of radix-[R] digits; [acc] is the value read so
    far, [None] while no digit has been seen. *)
Fixpoint parseDigits (R : Z) (s : string) (acc : option Z) : option Z :=
  match s with
  | EmptyString => acc
  | String c rest =>
      match digitValue c with
      | Some d =>
          if d <? R
          then parseDigits R rest (Some (match acc with
                                         | Some a => a * R + d
                                         | None => d
                                         end))
          else acc
      | None => acc
      end
  end.

Definition hasHexPrefix (s : string) : bool :=
  match s with
  | String "0" (String "x" _) | String "0" (String "X" _) => true
  | _ => false
  end.

Definition dropTwo (s : string) : string :=
  match s with
  | String _ (String _ rest) => rest
  | _ => s
  end.

(** [parseInt(string, radix)] for an integer radix (0 stands for a missing
    radix).  For more than 20 significant decimal digits ECMAScript allows an
    approximation; the model rounds the exact value. *)
Definition parseInt (input : string) (radix : Z) : number :=
  let trimmed := trimStart input in
  let '(sign, body) :=
    match trimmed with
    | String "-" rest => (-1, rest)
    | String "+" rest => (1, rest)
    | _ => (1, trimmed)
    end in
  if (radix =? 0) || ((2 <=? radix) && (radix <=? 36)) then
    let stripPrefix := ((radix =? 0) || (radix =? 16)) && hasHexPrefix body in
    let R := if radix =? 0 then (if stripPrefix then 16 else 10) else radix in
    let digits := if stripPrefix then dropTwo body else body in
    match parseDigits R digits None with
    | None => NaN
    | Some mathInt => toNumber (sign * mathInt)
    end
  else NaN.

(** ** The resolution matcher *)

(** Electron's [Size]. *)
Record Size : Type := { width : number; height : number }.

(** [v.split('x').map(v => parseInt(v, 10))] *)
Definition numericResolution (v : string) : list number :=
  map (fun v => parseInt v 10) (split "x" v).

(** [v[i]] inside an arithmetic expression: a missing element is
    [undefined], which converts to NaN. *)
Definition component (v : list number) (i : nat) : number := nth i v NaN.

(** [Math.abs(((target.width - v[0]) * 2) + ((target.height - v[1]) * 4))] *)
Definition indexValue (target : Size) (v : list number) : number :=
  Math_abs (jsAdd (jsMul (jsSub (width target) (component v 0)) (Num 2))
                  (jsMul (jsSub (height target) (component v 1)) (Num 4))).

(** [getClosestResolution(resolutions, target)]; [None] is [undefined]. *)
Definition getClosestResolution (resolutions : list string) (target : Size)
  : option string :=
  let numericResolutions := map numericResolution resolutions in
  let indexArray := map (indexValue target) numericResolutions in
  let minValue := Math_min indexArray in
  arrayGet resolutions (indexOf indexArray minValue).


(** The pair of integers that a candidate denotes: the first two
    components of its numeric form, when both are finite numbers. *)
Definition parsedSize (v : string) : option (Z * Z) :=
  match numericResolution v with
  | Num w :: Num h :: _ => Some (w, h)
  | _ => None
  end.

(** The distance of the specification, on integers. *)
Definition distance (tw th : Z) (wh : Z * Z) : Z :=
  Z.abs (2 * (tw - fst wh) + 4 * (th - snd wh)).

(** The distance of a candidate, 0 when it does not parse. *)
Definition distanceOf (tw th : Z) (v : string) : Z :=
  match parsedSize v with
  | Some wh => distance tw th wh
  | None => 0
  end.

(** Magnitudes for which the arithmetic of [indexValue] is exact. *)
Definition inRange (z : Z) : bool := Z.abs z <=? 2 ^ 49.

(** A candidate of the form ["WxH"] with both numbers in range. *)
Definition wellFormed (v : string) : bool :=
  match parsedSize v with
  | Some (w, h) => inRange w && inRange h
  | None => false
  end.

(** ** 32 bit integer operators *)

Definition ToInt32 (z : Z) : Z :=
  let m := z mod 2 ^ 32 in
  if 2 ^ 31 <=? m then m - 2 ^ 32 else m.

Definition ToUint32 (z : Z) : Z := z mod 2 ^ 32.

(** [a << b]: the left operand as a signed 32 bit integer, the shift count
    masked to its five low bits, the result again a signed 32 bit integer. *)
Definition jsShl (a b : Z) : Z :=
  ToInt32 (Z.shiftl (ToInt32 a) (Z.land (ToUint32 b) 31)).

(** [a | b] *)
Definition jsOr (a b : Z) : Z := ToInt32 (Z.lor (ToInt32 a) (ToInt32 b)).

(** ** JavaScript values stored in settings *)

Inductive jsval : Type :=
| VUndefined
| VNull
| VBool (b : bool)
| VNumber (n : number)
| VString (s : string).

(** What the model leaves open of the JavaScript runtime: the conversion of
    a string to a number used by [==] (it produces fractions, which [number]
    does not have), and which side wins when a queued item and the timer of
    [Promise.race] become ready at the same instant. *)
Class JSRuntime : Type := {
  StringToNumber : string -> number;
  timerWinsTie : bool
}.

Definition boolToNumber (b : bool) : number := Num (if b then 1 else 0).

(** [x == y] on primitive values. *)
Definition looseEq {rt : JSRuntime} (x y : jsval) : bool :=
  match x, y with
  | VUndefined, VUndefined | VUndefined, VNull
  | VNull, VUndefined | VNull, VNull => true
  | VUndefined, _ | _, VUndefined | VNull, _ | _, VNull => false
  | VNumber a, VNumber b => numStrictEq a b
  | VString s, VString t => String.eqb s t
  | VBool a, VBool b => Bool.eqb a b
  | VNumber a, VString s => numStrictEq a (StringToNumber s)
  | VString s, VNumber a => numStrictEq (StringToNumber s) a
  | VBool b, VNumber a => numStrictEq (boolToNumber b) a
  | VNumber a, VBool b => numStrictEq a (boolToNumber b)
  | VBool b, VString s => numStrictEq (boolToNumber b) (StringToNumber s)
  | VString s, VBool b => numStrictEq (StringToNumber s) (boolToNumber b)
  end.

(** ** Exceptions and state *)

Inductive error : Type :=
| TypeError (message : string)
| Error (message : string)
| Rejection (reason : string).

Inductive completion (A : Type) : Type :=
| Normal (a : A)
| Throw (e : error).
Arguments Normal {A} a.
Arguments Throw {A} e.

(** A computation over a mutable state [S] that returns or throws; an
    awaited [async] call is a call in this monad, a rejection is a throw. *)
Definition M (S A : Type) : Type := S -> completion A * S.

Definition ret {S A : Type} (a : A) : M S A := fun st => (Normal a, st).

Definition throw {S A : Type} (e : error) : M S A := fun st => (Throw e, st).

Definition bind {S A B : Type} (m : M S A) (k : A -> M S B) : M S B :=
  fun st =>
    match m st with
    | (Normal a, st') => k a st'
    | (Throw e, st') => (Throw e, st')
    end.

Declare Scope js_scope.
Delimit Scope js_scope with js.
Notation "x <- m ;; k" := (bind m (fun x => k))
  (at level 100, m at next level, right associativity) : js_scope.
Notation "m ;; k" := (bind m (fun _ => k))
  (at level 100, right associativity) : js_scope.
Local Open Scope js_scope.

(** [array.forEach(body)] *)
Fixpoint forEach {S A : Type} (array : list A) (body : A -> M S unit) : M S unit :=
  match array with
  | [] => ret tt
  | a :: rest => body a ;; forEach rest body
  end.

(** ** The engine: settings tree, sources and output table *)

Module Device.
Record t : Type := { id : string; name : string }.
End Device.

Module Setting.
(** One entry of [values] is an object; it is kept as the list of its own
    properties in enumeration order. *)
Record param : Type := {
  name : string;
  currentValue : jsval;
  values : list (list (string * jsval))
}.
Record subCategory : Type := {
  nameSubCategory : string;
  parameters : list param
}.
End Setting.

Abbreviation settingsTree := (list Setting.subCategory).

(** An input or scene created through the factories of obs-studio-node.
    [audioMixers] and [muted] are [None] until this program assigns them. *)
Record Source : Type := {
  typeId : string;
  sourceName : string;
  device_id : option string;
  audioMixers : option Z;
  muted : option bool;
  released : nat;
  removed : bool
}.

(** The native side as this program sees it.  [settingsStore] maps a
    category to the [data] of [OBS_settings_getSettings(category)] (absent:
    [undefined]); [savedSettings] logs the calls of
    [OBS_settings_saveSettings], newest first; [outputSources] is the table
    behind [osn.Global.getOutputSource]/[setOutputSource]; [objects] holds
    the sources created so far, a source being referred to by its index; the
    two device lists are the audio devices of the machine. *)
Record obs : Type := {
  settingsStore : gmap string settingsTree;
  savedSettings : list (string * settingsTree);
  outputSources : gmap Z nat;
  objects : list Source;
  audioInputDevices : list Device.t;
  audioOutputDevices : list Device.t
}.

Definition withSettings (st : obs) (store : gmap string settingsTree)
    (saved : list (string * settingsTree)) : obs :=
  {| settingsStore := store; savedSettings := saved;
     outputSources := outputSources st; objects := objects st;
     audioInputDevices := audioInputDevices st;
     audioOutputDevices := audioOutputDevices st |}.

Definition withOutputSources (st : obs) (table : gmap Z nat) : obs :=
  {| settingsStore := settingsStore st; savedSettings := savedSettings st;
     outputSources := table; objects := objects st;
     audioInputDevices := audioInputDevices st;
     audioOutputDevices := audioOutputDevices st |}.

Definition withObjects (st : obs) (objs : list Source) : obs :=
  {| settingsStore := settingsStore st; savedSettings := savedSettings st;
     outputSources := outputSources st; objects := objs;
     audioInputDevices := audioInputDevices st;
     audioOutputDevices := audioOutputDevices st |}.

(** [osn.NodeObs.OBS_settings_saveSettings(category, settings)]: the engine
    keeps the tree it is handed. *)
Definition OBS_settings_saveSettings (category : string) (settings : settingsTree)
  : M obs unit :=
  fun st => (Normal tt,
             withSettings st (<[category := settings]> (settingsStore st))
                             ((category, settings) :: savedSettings st)).

(** [osn.Global.getOutputSource(index)]; [None] is [undefined]. *)
Definition Global_getOutputSource (index : Z) : M obs (option nat) :=
  fun st => (Normal (outputSources st !! index), st).

(** [osn.Global.setOutputSource(index, source)]; [None] is [null]. *)
Definition Global_setOutputSource (index : Z) (source : option nat) : M obs unit :=
  fun st => (Normal tt,
             withOutputSources st
               match source with
               | Some src => <[index := src]> (outputSources st)
               | None => delete index (outputSources st)
               end).

(** [getAvailableAudioInputDevices()] and [getAvailableAudioOutputDevices()]
    of [./obsAudioDeviceUtils], which is not among the sources: they read
    the device lists of the machine. *)
Definition getAvailableAudioInputDevices : M obs (list Device.t) :=
  fun st => (Normal (audioInputDevices st), st).

Definition getAvailableAudioOutputDevices : M obs (list Device.t) :=
  fun st => (Normal (audioOutputDevices st), st).

(** [osn.InputFactory.create(id, name, { device_id })] *)
Definition InputFactory_create (id name deviceId : string) : M obs nat :=
  fun st => (Normal (length (objects st)),
             withObjects st (objects st ++
               [{| typeId := id; sourceName := name; device_id := Some deviceId;
                   audioMixers := None; muted := None;
                   released := 0; removed := false |}])).

Definition updateSource (src : nat) (f : Source -> Source) : M obs unit :=
  fun st => (Normal tt, withObjects st (alter f src (objects st))).

(** [source.audioMixers = mask] *)
Definition set_audioMixers (src : nat) (mask : Z) : M obs unit :=
  updateSource src (fun o =>
    {| typeId := typeId o; sourceName := sourceName o; device_id := device_id o;
       audioMixers := Some mask; muted := muted o;
       released := released o; removed := removed o |}).

(** [source.muted = flag] *)
Definition set_muted (src : nat) (flag : bool) : M obs unit :=
  updateSource src (fun o =>
    {| typeId := typeId o; sourceName := sourceName o; device_id := device_id o;
       audioMixers := audioMixers o; muted := Some flag;
       released := released o; removed := removed o |}).

(** [source.release()] *)
Definition release (src : nat) : M obs unit :=
  updateSource src (fun o =>
    {| typeId := typeId o; sourceName := sourceName o; device_id := device_id o;
       audioMixers := audioMixers o; muted := muted o;
       released := S (released o); removed := removed o |}).

(** [source.remove()] *)
Definition remove (src : nat) : M obs unit :=
  updateSource src (fun o =>
    {| typeId := typeId o; sourceName := sourceName o; device_id := device_id o;
       audioMixers := audioMixers o; muted := muted o;
       released := released o; removed := true |}).

(** ** Settings bridge and audio track allocation *)

Section Engine.
Context {rt : JSRuntime}.

(** The inner loop of [setSetting]: every parameter called [parameter]
    hands its value to [oldValue] and takes [value]. *)
Fixpoint forEachParam (parameter : string) (value oldValue : jsval)
    (params : list Setting.param) : jsval * list Setting.param :=
  match params with
  | [] => (oldValue, [])
  | param :: rest =>
      let '(oldValue1, param1) :=
        if String.eqb (Setting.name param) parameter
        then (Setting.currentValue param,
              {| Setting.name := Setting.name param;
                 Setting.currentValue := value;
                 Setting.values := Setting.values param |})
        else (oldValue, param) in
      let '(oldValue2, rest2) := forEachParam parameter value oldValue1 rest in
      (oldValue2, param1 :: rest2)
  end.

(** The outer loop of [setSetting]. *)
Fixpoint forEachSubCategory (parameter : string) (value oldValue : jsval)
    (settings : settingsTree) : jsval * settingsTree :=
  match settings with
  | [] => (oldValue, [])
  | subCategory :: rest =>
      let '(oldValue1, params1) :=
        forEachParam parameter value oldValue (Setting.parameters subCategory) in
      let '(oldValue2, rest2) := forEachSubCategory parameter value oldValue1 rest in
      (oldValue2,
       {| Setting.nameSubCategory := Setting.nameSubCategory subCategory;
          Setting.parameters := params1 |} :: rest2)
  end.

(** [setSetting(category, parameter, value)].  [settings.forEach] on a
    category without data is a TypeError. *)
Definition setSetting (category parameter : string) (value : jsval) : M obs unit :=
  fun st =>
    match settingsStore st !! category with
    | None =>
        (Throw (TypeError "Cannot read properties of undefined (reading 'forEach')"), st)
    | Some settings =>
        let '(oldValue, settings') :=
          forEachSubCategory parameter value VUndefined settings in
        if negb (looseEq value oldValue)
        then OBS_settings_saveSettings category settings' st
        else (Normal tt, st)
    end.

(** [Object.values(value)[0]] *)
Definition firstValue (value : list (string * jsval)) : jsval :=
  match value with
  | (_, v) :: _ => v
  | [] => VUndefined
  end.

(** [getAvailableValues(category, subcategory, parameter)] of the function
    based revision; [None] is the [undefined] of a bare [return]. *)
Definition getAvailableValues (category subcategory parameter : string) (st : obs)
  : option (list jsval) :=
  match settingsStore st !! category with
  | None => None
  | Some categorySettings =>
      match find (fun sub => String.eqb (Setting.nameSubCategory sub) subcategory)
                 categorySettings with
      | None => None
      | Some subcategorySettings =>
          match find (fun param => String.eqb (Setting.name param) parameter)
                     (Setting.parameters subcategorySettings) with
          | None => None
          | Some parameterSettings =>
              Some (map firstValue (Setting.values parameterSettings))
          end
      end
  end.

(** [ObsRecorder.getAvailableValues] of the class with static helpers:
    the same lookups, but every miss returns the empty array. *)
Definition ObsRecorder_getAvailableValues (category subcategory parameter : string)
    (st : obs) : list jsval :=
  match settingsStore st !! category with
  | None => []
  | Some categorySettings =>
      match find (fun sub => String.eqb (Setting.nameSubCategory sub) subcategory)
                 categorySettings with
      | None => []
      | Some subcategorySettings =>
          match find (fun param => String.eqb (Setting.name param) parameter)
                     (Setting.parameters subcategorySettings) with
          | None => []
          | Some parameterSettings =>
              map firstValue (Setting.values parameterSettings)
          end
      end
  end.

(** The elements of an array as strings, when they all are. *)
Fixpoint asStrings (array : list jsval) : option (list string) :=
  match array with
  | [] => Some []
  | VString s :: rest => option_map (cons s) (asStrings rest)
  | _ :: _ => None
  end.

Definition optionalString (s : option string) : jsval :=
  match s with
  | Some s => VString s
  | None => VUndefined
  end.

(** [setOBSVideoResolution(res, paramString)].  [resolutions.map] on
    [undefined], and [v.split] on an element that is not a string, are
    TypeErrors. *)
Definition setOBSVideoResolution (res : Size) (paramString : string) : M obs unit :=
  fun st =>
    match getAvailableValues "Video" "Untitled" paramString st with
    | None =>
        (Throw (TypeError "Cannot read properties of undefined (reading 'map')"), st)
    | Some availableResolutions =>
        match asStrings availableResolutions with
        | None => (Throw (TypeError "v.split is not a function"), st)
        | Some resolutions =>
            let closestResolution := getClosestResolution resolutions res in
            setSetting "Video" paramString (optionalString closestResolution) st
        end
    end.

(** [`Track${index}Name`] *)
Definition trackName (index : Z) : string :=
  "Track" +:+ pretty index +:+ "Name".

(** The body of the loop of [clearSources]. *)
Definition clearSlot (index : Z) : M obs unit :=
  src <- Global_getOutputSource index ;;
  match src with
  | Some src =>
      setSetting "Output" (trackName index) (VString EmptyString) ;;
      Global_setOutputSource index None ;;
      release src ;;
      remove src
  | None => ret tt
  end.

(** [clearSources()]: [for (let index = 1; index < 64; index++)]. *)
Definition clearSources : M obs unit :=
  forEach (seqZ 1 (64 - 1)) clearSlot ;;
  setSetting "Output" "RecTracks" (VNumber (Num 0)).

(** [deviceId === 'none' || (deviceId !== 'all' && device.id !== deviceId)] *)
Definition isMuted (selectedDeviceId : string) (device : Device.t) : bool :=
  String.eqb selectedDeviceId "none"
  || (negb (String.eqb selectedDeviceId "all")
      && negb (String.eqb (Device.id device) selectedDeviceId)).

(** [1 | (1 << currentTrack-1)] *)
Definition trackMask (currentTrack : Z) : Z := jsOr 1 (jsShl 1 (currentTrack - 1)).

(** One [forEach] over a device list in [setupSources]; the two loops of
    the source differ in [id], [name] and the selected device only.  The
    closure variable [currentTrack] is passed along and returned. *)
Fixpoint addAudioSources (id name selectedDeviceId : string)
    (devices : list Device.t) (currentTrack : Z) : M obs Z :=
  match devices with
  | [] => ret currentTrack
  | device :: rest =>
      source <- InputFactory_create id name (Device.id device) ;;
      setSetting "Output" (trackName currentTrack) (VString (Device.name device)) ;;
      set_audioMixers source (trackMask currentTrack) ;;
      set_muted source (isMuted selectedDeviceId device) ;;
      Global_setOutputSource currentTrack (Some source) ;;
      release source ;;
      addAudioSources id name selectedDeviceId rest (currentTrack + 1)
  end.

(** ['1'.repeat(count)] *)
Fixpoint repeatString (s : string) (count : nat) : string :=
  match count with
  | O => EmptyString
  | S n => s +:+ repeatString s n
  end.

(** [setupSources] of the class based revision, which is also what
    follows the call of [clearSources] in the function based one. *)
Definition allocateTracks (scene : nat) (audioInputDeviceId audioOutputDeviceId : string)
  : M obs unit :=
  Global_setOutputSource 1 (Some scene) ;;
  setSetting "Output" "Track1Name" (VString "Mixed: all sources") ;;
  inputs <- getAvailableAudioInputDevices ;;
  currentTrack <- addAudioSources "wasapi_input_capture" "mic-audio"
                    audioInputDeviceId inputs 2 ;;
  outputs <- getAvailableAudioOutputDevices ;;
  currentTrack <- addAudioSources "wasapi_output_capture" "desktop-audio"
                    audioOutputDeviceId outputs currentTrack ;;
  setSetting "Output" "RecTracks"
    (VNumber (parseInt (repeatString "1" (Z.to_nat (currentTrack - 1))) 2)).

(** [setupSources(scene, audioInputDeviceId, audioOutputDeviceId)] of the
    function based revision. *)
Definition setupSources (scene : nat) (audioInputDeviceId audioOutputDeviceId : string)
  : M obs unit :=
  clearSources ;;
  allocateTracks scene audioInputDeviceId audioOutputDeviceId.


(** Does a parameter called [parameter] occur in some subcategory? *)
Definition paramOccurs (parameter : string) (settings : settingsTree) : bool :=
  existsb (fun sub =>
             existsb (fun param => String.eqb (Setting.name param) parameter)
                     (Setting.parameters sub))
          settings.

(** The current values of the parameters called [parameter], in order. *)
Definition paramValuesIn (parameter : string) (params : list Setting.param)
  : list jsval :=
  map Setting.currentValue
      (List.filter (fun param => String.eqb (Setting.name param) parameter) params).

Definition paramValues (parameter : string) (settings : settingsTree) : list jsval :=
  flat_map (fun sub => paramValuesIn parameter (Setting.parameters sub)) settings.

(** The tree in which every parameter called [parameter] holds [value]. *)
Definition updateParams (parameter : string) (value : jsval)
    (params : list Setting.param) : list Setting.param :=
  map (fun param =>
         if String.eqb (Setting.name param) parameter
         then {| Setting.name := Setting.name param;
                 Setting.currentValue := value;
                 Setting.values := Setting.values param |}
         else param)
      params.

Definition updateTree (parameter : string) (value : jsval) (settings : settingsTree)
  : settingsTree :=
  map (fun sub =>
         {| Setting.nameSubCategory := Setting.nameSubCategory sub;
            Setting.parameters :=
              updateParams parameter value (Setting.parameters sub) |})
      settings.

(** The tree of a category, empty when the category has no data. *)
Definition treeOf (store : gmap string settingsTree) (category : string)
  : settingsTree :=
  default [] (store !! category).

(** [null] and [undefined] *)
Definition isNullish (v : jsval) : bool :=
  match v with
  | VUndefined | VNull => true
  | _ => false
  end.


(** The source that one round of [addAudioSources] leaves behind. *)
Definition audioSource (id name selectedDeviceId : string) (device : Device.t)
    (track : Z) : Source :=
  {| typeId := id; sourceName := name; device_id := Some (Device.id device);
     audioMixers := Some (trackMask track);
     muted := Some (isMuted selectedDeviceId device);
     released := 1; removed := false |}.

Fixpoint audioSourcesFrom (id name selectedDeviceId : string)
    (devices : list Device.t) (track : Z) : list Source :=
  match devices with
  | [] => []
  | device :: rest =>
      audioSource id name selectedDeviceId device track
      :: audioSourcesFrom id name selectedDeviceId rest (track + 1)
  end.

(** The output table after [count] sources, numbered from [src], have been
    registered on the tracks from [track] on. *)
Fixpoint registerTracks (track : Z) (src count : nat) (table : gmap Z nat)
  : gmap Z nat :=
  match count with
  | O => table
  | S n => registerTracks (track + 1) (S src) n (<[track := src]> table)
  end.


(** Every device of [devices], in position [i], has its source registered
    on slot [i + 2], and that source carries the device's id and the mask
    computed for the slot. *)
Definition slotsAssigned (devices : list Device.t) (st : obs) : Prop :=
  forall (i : nat) (device : Device.t),
    devices !! i = Some device ->
    let k := 2 + Z.of_nat i in
    exists (src : nat) (source : Source),
      outputSources st !! k = Some src /\
      objects st !! src = Some source /\
      device_id source = Some (Device.id device) /\
      audioMixers source = Some (jsOr 1 (jsShl 1 (k - 1))).

(** The values of the recorded-tracks parameter of the engine. *)
Definition recTracks (st : obs) : list jsval :=
  paramValues "RecTracks" (treeOf (settingsStore st) "Output").

End Engine.

(** ** Signal channel, [start] and [stop] *)

(** What the engine pushes through [OBS_service_connectOutputSignals];
    only the two fields that the program reads are kept. *)
Record signalInfo : Type := { type : string; signal : string }.

Inductive command : Type :=
| OBS_service_startRecording
| OBS_service_stopRecording.

(** The recorder as [start] and [stop] see it.  [obsInitialized] is the
    flag of that name ([_initialized] in the class based revision);
    [commands] logs the native recording commands, newest first; [now] is
    the clock in milliseconds; [waitQueue] lists the items that successive
    calls of [waitQueue.shift()] yield, each with the time at which the
    engine pushes it: these are the signals that the engine is going to
    push, less those that go to a [shift()] which an earlier call left
    pending; [unhandledRejections] collects the rejections of promises that
    nobody awaits. *)
Record recorder : Type := {
  obsInitialized : bool;
  commands : list command;
  now : Z;
  waitQueue : list (Z * signalInfo);
  unhandledRejections : list error
}.

Definition issue (c : command) : M recorder unit :=
  fun st => (Normal tt,
             {| obsInitialized := obsInitialized st;
                commands := c :: commands st;
                now := now st; waitQueue := waitQueue st;
                unhandledRejections := unhandledRejections st |}).

Definition withQueue (st : recorder) (time : Z) (queue : list (Z * signalInfo))
  : recorder :=
  {| obsInitialized := obsInitialized st; commands := commands st;
     now := time; waitQueue := queue;
     unhandledRejections := unhandledRejections st |}.

Section Signals.
Context {rt : JSRuntime}.

(** Does an item pushed at [pushed] beat a 5000 ms timer armed at [armed]? *)
Definition beatsTimer (armed pushed : Z) : bool :=
  if timerWinsTie then pushed <? armed + 5000 else pushed <=? armed + 5000.

(** [await Promise.race([waitQueue.shift(), timer])]: the next item, or
    the rejection of the timer.  Nothing cancels the [shift()] that lost
    the race: it stays pending and takes the item it was waiting for when
    the engine pushes it, so that item is gone for every later call. *)
Definition raceShift (value : string) : M recorder signalInfo :=
  fun st =>
    match waitQueue st with
    | (pushed, signalInfo) :: rest =>
        if beatsTimer (now st) pushed
        then (Normal signalInfo, withQueue st (Z.max (now st) pushed) rest)
        else (Throw (Rejection ("OBS didn't signal " +:+ value +:+ " in time")),
              withQueue st (now st + 5000) rest)
    | [] =>
        (Throw (Rejection ("OBS didn't signal " +:+ value +:+ " in time")),
         withQueue st (now st + 5000) [])
    end.

(** [assertNextSignal(value)] *)
Definition assertNextSignal (value : string) : M recorder unit :=
  signalInfo <- raceShift value ;;
  if negb (String.eqb (type signalInfo) "recording")
  then throw (Error "OBS behaved unexpectedly (2)")
  else if negb (String.eqb (signal signalInfo) value)
  then throw (Error "OBS behaved unexpectedly (3)")
  else ret tt.

(** [start()] of the function based revision. *)
Definition start : M recorder unit :=
  fun st =>
    if negb (obsInitialized st) then (Throw (Error "OBS not initialised"), st)
    else (issue OBS_service_startRecording ;;
          assertNextSignal "start") st.

(** [stop()] of the function based revision. *)
Definition stop : M recorder unit :=
  issue OBS_service_stopRecording ;;
  assertNextSignal "stopping" ;;
  assertNextSignal "stop" ;;
  assertNextSignal "wrote".

(** A call of an [async] function whose promise is dropped: the caller
    goes on at once and always normally; a rejection of the dropped promise
    ends up unhandled. *)
Definition notAwaited (call : M recorder unit) : M recorder unit :=
  fun st =>
    match call st with
    | (Normal _, st') =>
        (Normal tt,
         {| obsInitialized := obsInitialized st'; commands := commands st';
            now := now st; waitQueue := waitQueue st';
            unhandledRejections := unhandledRejections st' |})
    | (Throw e, st') =>
        (Normal tt,
         {| obsInitialized := obsInitialized st'; commands := commands st';
            now := now st; waitQueue := waitQueue st';
            unhandledRejections := e :: unhandledRejections st' |})
    end.

(** Modelled from the spec: the enumeration [ObsSignal] of [./types], which
    is not among the sources; its members are the four signal names. *)
Definition ObsSignal_Start : string := "start".

(** [ObsRecorder.start()] of the class based revision: the call of
    [assertNextSignal] is not awaited. *)
Definition ObsRecorder_start : M recorder unit :=
  fun st =>
    if negb (obsInitialized st) then (Throw (Error "OBS not initialised"), st)
    else (issue OBS_service_startRecording ;;
          notAwaited (assertNextSignal ObsSignal_Start)) st.

End Signals.

(** ** Counting registered audio sources *)

Definition isAudioSource (o : Source) : bool :=
  match device_id o with
  | Some _ => true
  | None => false
  end.

Definition holdsAudioSource (st : obs) (slot : Z) : bool :=
  match outputSources st !! slot with
  | Some src =>
      match objects st !! src with
      | Some o => isAudioSource o
      | None => false
      end
  | None => false
  end.

(** The number of slots among 1 to 64 that hold an audio source. *)
Definition registeredAudioSources (st : obs) : nat :=
  length (List.filter (holdsAudioSource st) (seqZ 1 64)).

(** The engine after the audio devices of the machine have changed. *)
Definition withDevices (st : obs) (inputs outputs : list Device.t) : obs :=
  {| settingsStore := settingsStore st; savedSettings := savedSettings st;
     outputSources := outputSources st; objects := objects st;
     audioInputDevices := inputs; audioOutputDevices := outputs |}.

(** ** A runtime and an engine for running examples *)

Fixpoint onlyWhiteSpace (s : string) : bool :=
  match s with
  | EmptyString => true
  | String c rest => isStrWhiteSpaceChar c && onlyWhiteSpace rest
  end.

(** Decimal digits followed by white space only. *)
Fixpoint decimalDigits (s : string) (acc : option Z) : option Z :=
  match s with
  | EmptyString => acc
  | String c rest =>
      match digitValue c with
      | Some d =>
          if d <? 10
          then decimalDigits rest (Some (match acc with
                                         | Some a => a * 10 + d
                                         | None => d
                                         end))
          else None
      | None => if onlyWhiteSpace s then acc else None
      end
  end.

(** The conversion of a string to a number on strings that hold a decimal
    integer or nothing but white space; every other string yields NaN here,
    so the function is to be used on such strings only. *)
Definition integerStringToNumber (s : string) : number :=
  match trimStart s with
  | EmptyString => Num 0
  | String "-" rest =>
      match decimalDigits rest None with
      | Some m => toNumber (- m)
      | None => NaN
      end
  | String "+" rest =>
      match decimalDigits rest None with
      | Some m => toNumber m
      | None => NaN
      end
  | trimmed =>
      match decimalDigits trimmed None with
      | Some m => toNumber m
      | None => NaN
      end
  end.

Definition exampleRuntime : JSRuntime :=
  {| StringToNumber := integerStringToNumber; timerWinsTie := true |}.

Definition textParam (name value : string) : Setting.param :=
  {| Setting.name := name; Setting.currentValue := VString value;
     Setting.values := [] |}.

Definition listParam (name value : string) (choices : list string) : Setting.param :=
  {| Setting.name := name; Setting.currentValue := VString value;
     Setting.values := map (fun c => [(c, VString c)]) choices |}.

(** An Output category with six audio tracks. *)
Definition exampleOutput : settingsTree :=
  [ {| Setting.nameSubCategory := "Untitled";
       Setting.parameters := [listParam "Mode" "Simple" ["Simple"; "Advanced"]] |};
    {| Setting.nameSubCategory := "Recording";
       Setting.parameters :=
         [ textParam "RecFilePath" "D:/Videos";
           listParam "RecFormat" "mkv" ["flv"; "mp4"; "mov"; "mkv"];
           {| Setting.name := "RecTracks";
              Setting.currentValue := VNumber (Num 1);
              Setting.values := [] |};
           listParam "RecEncoder" "obs_x264" ["obs_x264"; "jim_nvenc"] ] |};
    {| Setting.nameSubCategory := "Audio - Track 1";
       Setting.parameters := [textParam "Track1Name" EmptyString] |};
    {| Setting.nameSubCategory := "Audio - Track 2";
       Setting.parameters := [textParam "Track2Name" EmptyString] |};
    {| Setting.nameSubCategory := "Audio - Track 3";
       Setting.parameters := [textParam "Track3Name" EmptyString] |};
    {| Setting.nameSubCategory := "Audio - Track 4";
       Setting.parameters := [textParam "Track4Name" EmptyString] |};
    {| Setting.nameSubCategory := "Audio - Track 5";
       Setting.parameters := [textParam "Track5Name" EmptyString] |};
    {| Setting.nameSubCategory := "Audio - Track 6";
       Setting.parameters := [textParam "Track6Name" EmptyString] |} ].

(** A Video category whose Output parameter offers no resolution. *)
Definition exampleVideo : settingsTree :=
  [ {| Setting.nameSubCategory := "Untitled";
       Setting.parameters :=
         [ listParam "Base" "1920x1080" ["1280x720"; "1920x1080"; "2560x1440"];
           listParam "Output" "1280x720" [];
           listParam "FPSCommon" "30" ["30"; "60"] ] |} ].

Definition exampleDevices (prefix : string) (count : nat) : list Device.t :=
  map (fun i => {| Device.id := prefix +:+ "-" +:+ pretty i;
                   Device.name := prefix +:+ " " +:+ pretty i |})
      (seq 1 count).

(** A freshly configured engine: the scene is object 0, no slot is used. *)
Definition exampleEngine (inputs outputs : list Device.t) : obs :=
  {| settingsStore := <["Output" := exampleOutput]> (<["Video" := exampleVideo]> ∅);
     savedSettings := [];
     outputSources := ∅;
     objects := [ {| typeId := "scene"; sourceName := "main"; device_id := None;
                     audioMixers := None; muted := None;
                     released := 0; removed := false |} ];
     audioInputDevices := inputs;
     audioOutputDevices := outputs |}.

Definition recordingSignal (name : string) : signalInfo :=
  {| type := "recording"; signal := name |}.

(** An initialised recorder at time 0 with the given items to come. *)
Definition exampleRecorder (queue : list (Z * signalInfo)) : recorder :=
  {| obsInitialized := true; commands := []; now := 0; waitQueue := queue;
     unhandledRejections := [] |}.

(** ** Further functions: resolutions *)

(** [parseResolutionsString(value)]: the first two numbers of the text.  A
    missing one is [undefined]; it is kept as NaN, which is what every use
    of a [Size] in these sources turns it into. *)
Definition parseResolutionsString (value : string) : Size :=
  let parts := numericResolution value in
  {| width := component parts 0; height := component parts 1 |}.

(** The text of a resolution of [w] by [h], as the engine lists it. *)
Definition resolutionString (w h : Z) : string :=
  pretty w +:+ "x" +:+ pretty h.

(** A decimal digit. *)
Definition decimalChar (c : ascii) : bool :=
  match digitValue c with
  | Some d => d <? 10
  | None => false
  end.

(** A text in which the separator of [split] does not occur. *)
Fixpoint freeOf (separator : ascii) (s : string) : bool :=
  match s with
  | EmptyString => true
  | String c rest => negb (Ascii.eqb c separator) && freeOf separator rest
  end.

(** ** Further functions: configuring the engine *)

(** [getObsAvailableRecEncoders()] *)
Definition getObsAvailableRecEncoders (st : obs) : option (list jsval) :=
  getAvailableValues "Output" "Recording" "RecEncoder" st.

(** The fields of [RecorderOptionsType] (of [./recorder]) that the
    recorder reads.  [obsRecEncoder] may be missing, which is [None]. *)
Record RecorderOptionsType : Type := {
  bufferStorageDir : string;
  obsKBitRate : number;
  obsFPS : number;
  obsRecEncoder : option string;
  obsOutputResolution : string;
  obsCaptureMode : string;
  monitorIndex : number;
  audioInputDeviceId : string;
  audioOutputDeviceId : string
}.

(** [array.includes(encoder)] for a string [encoder] *)
Definition includes (array : list jsval) (encoder : string) : bool :=
  existsb (fun v => match v with
                    | VString s => String.eqb s encoder
                    | _ => false
                    end) array.

(** [(!encoder || encoder === 'auto')] *)
Definition autoPick (encoder : option string) : bool :=
  match encoder with
  | None => true
  | Some e => String.eqb e EmptyString || String.eqb e "auto"
  end.

Section Configure.
Context {rt : JSRuntime}.

(** [setObsRecEncoder(options)].  [availableEncoders.includes] and
    [availableEncoders.slice] on [undefined] are TypeErrors. *)
Definition setObsRecEncoder (options : RecorderOptionsType) : M obs unit :=
  fun st =>
    let availableEncoders := getObsAvailableRecEncoders st in
    let encoder := obsRecEncoder options in
    let autoPickEncoder := autoPick encoder in
    (autoPickEncoder <-
       match autoPickEncoder, encoder, availableEncoders with
       | false, Some e, Some available => ret (negb (includes available e))
       | false, _, None =>
           throw (TypeError
                    "Cannot read properties of undefined (reading 'includes')")
       | _, _, _ => ret autoPickEncoder
       end ;;
     encoder <-
       match autoPickEncoder, encoder, availableEncoders with
       | true, _, Some available => ret (List.last available VUndefined)
       | true, _, None =>
           throw (TypeError
                    "Cannot read properties of undefined (reading 'slice')")
       | false, Some e, _ => ret (VString e)
       | false, None, _ => ret VUndefined
       end ;;
     setSetting "Output" "RecEncoder" encoder) st.

(** [configureOBS(options)] *)
Definition configureOBS (options : RecorderOptionsType) : M obs unit :=
  setSetting "Output" "Mode" (VString "Advanced") ;;
  setObsRecEncoder options ;;
  setSetting "Output" "RecFilePath" (VString (bufferStorageDir options)) ;;
  setSetting "Output" "RecFormat" (VString "mp4") ;;
  setSetting "Output" "Recrate_control" (VString "VBR") ;;
  setSetting "Output" "Recbitrate"
    (VNumber (jsMul (obsKBitRate options) (Num 1024))) ;;
  setSetting "Output" "Recmax_bitrate" (VNumber (Num 300000)) ;;
  setSetting "Video" "FPSCommon" (VNumber (obsFPS options)).

End Configure.

(** Options for running examples. *)
Definition exampleOptions (encoder : option string) : RecorderOptionsType :=
  {| bufferStorageDir := "D:/Buffer"; obsKBitRate := Num 15; obsFPS := Num 60;
     obsRecEncoder := encoder; obsOutputResolution := "1920x1080";
     obsCaptureMode := "game_capture"; monitorIndex := Num 1;
     audioInputDeviceId := "all"; audioOutputDeviceId := "all" |}.

(** Two engine states offer the same settings: the same categories have
    data and every parameter permits the same values. *)
Definition sameOffer (st1 st2 : obs) : Prop :=
  (forall c, is_Some (settingsStore st1 !! c) <-> is_Some (settingsStore st2 !! c)) /\
  (forall c s p, getAvailableValues c s p st1 = getAvailableValues c s p st2).

(** Does a category have data? *)
Definition hasData (category : string) (st : obs) : bool :=
  match settingsStore st !! category with
  | Some _ => true
  | None => false
  end.

(** Is a completion a thrown TypeError? *)
Definition isTypeError {A : Type} (c : completion A) : bool :=
  match c with
  | Throw (TypeError _) => true
  | _ => false
  end.

(** Does the engine list recording encoders? *)
Definition offersEncoders (st : obs) : bool :=
  match getObsAvailableRecEncoders st with
  | Some _ => true
  | None => false
  end.

(** The device that each object created so far stands for. *)
Definition deviceIds (st : obs) : list (option string) :=
  map device_id (objects st).

(** ** Further functions: the life cycle *)

(** The native calls of the life cycle, as logged. *)
Inductive nativeCall : Type :=
| IPC_host
| SetWorkingDirectory
| OBS_API_initAPI
| OBS_service_connectOutputSignals
| OBS_service_removeCallback
| IPC_disconnect.

(** The two fields of [OurDisplayType] (of [./types]) that are read. *)
Module Display.
Record t : Type := { index : number; physicalSize : Size }.
End Display.

(** A running [setInterval] timer of [watchVideoSourceSize] with what its
    callback holds on to. *)
Record interval : Type := {
  timerId : nat;
  watchedItem : nat;
  watchedSource : nat;
  watchedBase : Size
}.

(** The whole module: the signal side, the engine, and the module level
    variables [scene] and [timerVideoSourceSize].  [nativeCalls] logs the
    native calls of the life cycle, newest first; [initResult] is what
    [OBS_API_initAPI] is going to return; [removeCallbackError] and
    [disconnectError] are the exceptions, as text, that the two native
    calls of [shutdown] are going to raise, if any; [displays] is what
    [getAvailableDisplays()] returns; [sourceSettings] holds, per video
    source, the properties written to its settings, newest first;
    [sceneItems] lists the items added to scenes as (scene, source), an
    item being referred to by its position;
    [activeIntervals] are the interval timers that run. *)
Record session : Type := {
  recorderOf : recorder;
  engineOf : obs;
  nativeCalls : list nativeCall;
  initResult : Z;
  removeCallbackError : option string;
  disconnectError : option string;
  displays : list Display.t;
  scene : option nat;
  sourceSettings : list (nat * list (string * jsval));
  sceneItems : list (nat * nat);
  timerVideoSourceSize : option nat;
  activeIntervals : list interval;
  nextInterval : nat
}.

Definition withRecorder (st : session) (r : recorder) : session :=
  {| recorderOf := r; engineOf := engineOf st; nativeCalls := nativeCalls st;
     initResult := initResult st; removeCallbackError := removeCallbackError st;
     disconnectError := disconnectError st; displays := displays st;
     scene := scene st; sourceSettings := sourceSettings st;
     sceneItems := sceneItems st;
     timerVideoSourceSize := timerVideoSourceSize st;
     activeIntervals := activeIntervals st; nextInterval := nextInterval st |}.

Definition withEngine (st : session) (e : obs) : session :=
  {| recorderOf := recorderOf st; engineOf := e; nativeCalls := nativeCalls st;
     initResult := initResult st; removeCallbackError := removeCallbackError st;
     disconnectError := disconnectError st; displays := displays st;
     scene := scene st; sourceSettings := sourceSettings st;
     sceneItems := sceneItems st;
     timerVideoSourceSize := timerVideoSourceSize st;
     activeIntervals := activeIntervals st; nextInterval := nextInterval st |}.

Definition withCalls (st : session) (calls : list nativeCall) : session :=
  {| recorderOf := recorderOf st; engineOf := engineOf st; nativeCalls := calls;
     initResult := initResult st; removeCallbackError := removeCallbackError st;
     disconnectError := disconnectError st; displays := displays st;
     scene := scene st; sourceSettings := sourceSettings st;
     sceneItems := sceneItems st;
     timerVideoSourceSize := timerVideoSourceSize st;
     activeIntervals := activeIntervals st; nextInterval := nextInterval st |}.

Definition withScene (st : session) (s : option nat)
    (settings : list (nat * list (string * jsval))) (items : list (nat * nat))
  : session :=
  {| recorderOf := recorderOf st; engineOf := engineOf st;
     nativeCalls := nativeCalls st;
     initResult := initResult st; removeCallbackError := removeCallbackError st;
     disconnectError := disconnectError st; displays := displays st;
     scene := s; sourceSettings := settings; sceneItems := items;
     timerVideoSourceSize := timerVideoSourceSize st;
     activeIntervals := activeIntervals st; nextInterval := nextInterval st |}.

Definition withTimers (st : session) (timer : option nat)
    (running : list interval) (next : nat) : session :=
  {| recorderOf := recorderOf st; engineOf := engineOf st;
     nativeCalls := nativeCalls st;
     initResult := initResult st; removeCallbackError := removeCallbackError st;
     disconnectError := disconnectError st; displays := displays st;
     scene := scene st; sourceSettings := sourceSettings st;
     sceneItems := sceneItems st;
     timerVideoSourceSize := timer;
     activeIntervals := running; nextInterval := next |}.

(** [obsInitialized = flag] *)
Definition setInitialized (flag : bool) : M session unit :=
  fun st =>
    (Normal tt,
     withRecorder st
       {| obsInitialized := flag; commands := commands (recorderOf st);
          now := now (recorderOf st); waitQueue := waitQueue (recorderOf st);
          unhandledRejections := unhandledRejections (recorderOf st) |}).

(** A function of the engine, run inside the module. *)
Definition onEngine {A : Type} (call : M obs A) : M session A :=
  fun st =>
    let '(result, engine) := call (engineOf st) in
    (result, withEngine st engine).

(** A native call that returns nothing. *)
Definition native (call : nativeCall) : M session unit :=
  fun st => (Normal tt, withCalls st (call :: nativeCalls st)).

(** A native call of [shutdown], which may raise. *)
Definition nativeOrRaise (call : nativeCall) (raises : option string)
  : M session unit :=
  fun st =>
    match raises with
    | Some e => (Throw (Error e), withCalls st (call :: nativeCalls st))
    | None => (Normal tt, withCalls st (call :: nativeCalls st))
    end.

(** [try { body } catch (e) { throw Error(prefix + e) }]; the payload of
    what was thrown stands for its text. *)
Definition rethrow {S A : Type} (prefix : string) (body : M S A) : M S A :=
  fun st =>
    match body st with
    | (Throw (Error e), st') | (Throw (TypeError e), st')
    | (Throw (Rejection e), st') => (Throw (Error (prefix +:+ e)), st')
    | done => done
    end.

(** [shutdown()] *)
Definition shutdown : M session bool :=
  fun st =>
    if negb (obsInitialized (recorderOf st)) then (Normal false, st)
    else
      (rethrow "Exception when shutting down OBS process"
         (nativeOrRaise OBS_service_removeCallback (removeCallbackError st) ;;
          nativeOrRaise IPC_disconnect (disconnectError st) ;;
          setInitialized false) ;;
       ret true) st.

(** [errorReasons[initResult.toString()]] *)
Definition errorReasons (result : Z) : option string :=
  if result =? -2
  then Some "DirectX could not be found on your system. Please install the latest version of DirectX for your machine here <https://www.microsoft.com/en-us/download/details.aspx?id=35?> and try again."
  else if result =? -5
  then Some "Failed to initialize OBS. Your video drivers may be out of date, or Streamlabs OBS may not be supported on your system."
  else None.

(** [errorReasons[...] || `An unknown error #${initResult} ...`] *)
Definition errorMessage (result : Z) : string :=
  match errorReasons result with
  | Some reason => reason
  | None =>
      "An unknown error #" +:+ pretty result
      +:+ " was encountered while initializing OBS."
  end.

(** [initOBS()] *)
Definition initOBS : M session unit :=
  native IPC_host ;;
  native SetWorkingDirectory ;;
  native OBS_API_initAPI ;;
  fun st =>
    if negb (initResult st =? 0)
    then (shutdown ;; throw (Error (errorMessage (initResult st)))) st
    else native OBS_service_connectOutputSignals st.

(** The text of a number inside a template string (integers below 10^21
    in magnitude). *)
Definition numberToString (n : number) : string :=
  match n with
  | Num z => pretty z
  | NaN => "NaN"
  | PInf => "Infinity"
  | NInf => "-Infinity"
  end.

(** [displayInfo(displayIndex)] *)
Definition displayInfo (displayIndex : number) : M session (option Display.t) :=
  fun st =>
    (Normal (find (fun d => numStrictEq (Display.index d) displayIndex)
                  (displays st)),
     st).

(** [osn.InputFactory.create(id, name)] for a video source, and
    [osn.SceneFactory.create(name)]: a new object that stands for no
    device. *)
Definition Factory_create (id name : string) : M obs nat :=
  fun st => (Normal (length (objects st)),
             withObjects st (objects st ++
               [{| typeId := id; sourceName := name; device_id := None;
                   audioMixers := None; muted := None;
                   released := 0; removed := false |}])).

(** [settings[key] = value] on the settings of a video source, followed in
    the end by [videoSource.update(settings); videoSource.save()]. *)
Definition updateSettings (videoSource : nat) (settings : list (string * jsval))
  : M session unit :=
  fun st =>
    (Normal tt,
     withScene st (scene st) ((videoSource, settings) :: sourceSettings st)
               (sceneItems st)).

(** [scene = ...] *)
Definition assignScene (newScene : nat) : M session unit :=
  fun st =>
    (Normal tt, withScene st (Some newScene) (sourceSettings st) (sceneItems st)).

(** [scene.add(videoSource)]: the new item is referred to by its position;
    its scale is set to 1 by 1. *)
Definition scene_add (current videoSource : nat) : M session nat :=
  fun st =>
    (Normal (length (sceneItems st)),
     withScene st (scene st) (sourceSettings st)
               (sceneItems st ++ [(current, videoSource)])).

(** [createGameCaptureSource()] *)
Definition createGameCaptureSource : M session nat :=
  videoSource <- onEngine (Factory_create "game_capture" "Game Capture") ;;
  updateSettings videoSource
    [("capture_cursor", VBool true);
     ("capture_mode", VString "window");
     ("allow_transparency", VBool true);
     ("priority", VNumber (Num 1));
     ("window", VString "World of Warcraft:GxWindowClass:Wow.exe")] ;;
  ret videoSource.

(** [createMonitorCaptureSource(monitorIndex)] *)
Definition createMonitorCaptureSource (monitorIndex : number) : M session nat :=
  videoSource <- onEngine (Factory_create "monitor_capture" "Monitor Capture") ;;
  updateSettings videoSource [("monitor", VNumber monitorIndex)] ;;
  ret videoSource.

(** [watchVideoSourceSize(sceneItem, videoSource, baseResolution)]:
    [clearInterval] of the timer held in [timerVideoSourceSize], then a new
    [setInterval].  What the callback does when it fires (a scale factor,
    which is a fraction) is outside the model. *)
Definition watchVideoSourceSize (sceneItem videoSource : nat) (baseResolution : Size)
  : M session unit :=
  fun st =>
    let running :=
      match timerVideoSourceSize st with
      | Some timer =>
          List.filter (fun i => negb (Nat.eqb (timerId i) timer))
                      (activeIntervals st)
      | None => activeIntervals st
      end in
    let timer := nextInterval st in
    (Normal tt,
     withTimers st (Some timer)
       ({| timerId := timer; watchedItem := sceneItem;
           watchedSource := videoSource; watchedBase := baseResolution |}
        :: running)
       (S timer)).

Section Lifecycle.
Context {rt : JSRuntime}.

(** The [switch] of [setupScene]: the base resolution and the video
    source of the capture mode. *)
Definition captureSource (options : RecorderOptionsType) (outputResolution : Size)
  : M session (Size * nat) :=
  if String.eqb (obsCaptureMode options) "monitor_capture" then
    let monitorIndexFromZero := jsSub (monitorIndex options) (Num 1) in
    selectedDisplay <- displayInfo monitorIndexFromZero ;;
    match selectedDisplay with
    | None =>
        throw (Error ("[OBS] No such display with index: "
                      +:+ numberToString monitorIndexFromZero +:+ "."))
    | Some display =>
        videoSource <- createMonitorCaptureSource monitorIndexFromZero ;;
        ret (Display.physicalSize display, videoSource)
    end
  else if String.eqb (obsCaptureMode options) "game_capture" then
    videoSource <- createGameCaptureSource ;;
    ret (outputResolution, videoSource)
  else
    throw (Error ("[OBS] Invalid capture mode: " +:+ obsCaptureMode options)).

(** [setupScene(options)] *)
Definition setupScene (options : RecorderOptionsType) : M session unit :=
  let outputResolution := parseResolutionsString (obsOutputResolution options) in
  onEngine (setOBSVideoResolution outputResolution "Output") ;;
  chosen <- captureSource options outputResolution ;;
  let '(baseResolution, videoSource) := chosen in
  onEngine (setOBSVideoResolution baseResolution "Base") ;;
  newScene <- onEngine (Factory_create "scene" "main") ;;
  assignScene newScene ;;
  sceneItem <- scene_add newScene videoSource ;;
  watchVideoSourceSize sceneItem videoSource baseResolution.

(** [reconfigure(options)].  [setupScene] assigns [scene] before it
    returns, so the last case is never met. *)
Definition reconfigure (options : RecorderOptionsType) : M session unit :=
  onEngine (configureOBS options) ;;
  setupScene options ;;
  fun st =>
    match scene st with
    | Some current =>
        onEngine (setupSources current (audioInputDeviceId options)
                               (audioOutputDeviceId options)) st
    | None => (Throw (TypeError "scene is undefined"), st)
    end.

(** [initialize(options)] *)
Definition initialize (options : RecorderOptionsType) : M session unit :=
  fun st =>
    if obsInitialized (recorderOf st) then (Normal tt, st)
    else (initOBS ;; reconfigure options ;; setInitialized true) st.

End Lifecycle.

(** A module that has not been initialised, for running examples. *)
Definition exampleSession (result : Z) (engine : obs) : session :=
  {| recorderOf := {| obsInitialized := false; commands := []; now := 0;
                      waitQueue := []; unhandledRejections := [] |};
     engineOf := engine; nativeCalls := []; initResult := result;
     removeCallbackError := None; disconnectError := None;
     displays := [{| Display.index := Num 0;
                     Display.physicalSize :=
                       {| width := Num 2560; height := Num 1440 |} |}];
     scene := None; sourceSettings := []; sceneItems := [];
     timerVideoSourceSize := None; activeIntervals := []; nextInterval := 0 |}.

(** The timers that run are the one held in [timerVideoSourceSize]. *)
Definition timersTracked (st : session) : Prop :=
  map timerId (activeIntervals st)
  = match timerVideoSourceSize st with
    | Some timer => [timer]
    | None => []
    end.

(** The recorder side and the log of native calls. *)
Definition hostSide (st : session) : recorder * list nativeCall :=
  (recorderOf st, nativeCalls st).

(** A property of the module that a call keeps, however the call ends. *)
Definition keeps {A : Type} (P : session -> Prop) (call : M session A) : Prop :=
  forall st, P st -> P (snd (call st)).

(** A property of the module that does not look at the engine, at the
    scene or at the records about sources and scene items. *)
Definition ignoresScene (P : session -> Prop) : Prop :=
  forall st, P st ->
    (forall e, P (withEngine st e)) /\
    (forall s settings items, P (withScene st s settings items)).

(** The options with another capture mode. *)
Definition withCaptureMode (options : RecorderOptionsType) (mode : string)
  : RecorderOptionsType :=
  {| bufferStorageDir := bufferStorageDir options;
     obsKBitRate := obsKBitRate options; obsFPS := obsFPS options;
     obsRecEncoder := obsRecEncoder options;
     obsOutputResolution := obsOutputResolution options;
     obsCaptureMode := mode; monitorIndex := monitorIndex options;
     audioInputDeviceId := audioInputDeviceId options;
     audioOutputDeviceId := audioOutputDeviceId options |}.

(** What [release()] followed by [remove()] makes of a source. *)
Definition discarded (o : Source) : Source :=
  {| typeId := typeId o; sourceName := sourceName o; device_id := device_id o;
     audioMixers := audioMixers o; muted := muted o;
     released := S (released o); removed := true |}.

(** A source seen again later: the same source, released at least as
    often, and still removed if it was. *)
Definition laterOf (o o' : Source) : Prop :=
  typeId o' = typeId o /\ device_id o' = device_id o /\
  (released o <= released o')%nat /\
  (removed o = true -> removed o' = true).

(** ** The configuration service ([configService.ts]) *)

(** [ToBoolean] *)
Definition toBoolean (v : jsval) : bool :=
  match v with
  | VUndefined | VNull => false
  | VBool b => b
  | VNumber (Num z) => negb (z =? 0)
  | VNumber NaN => false
  | VNumber _ => true
  | VString s => negb (String.eqb s EmptyString)
  end.

(** What is left open of Node's [path] module. *)
Class NodePath : Type := { path_join : string -> string -> string }.

Module ConfigService.

(** The keys of [ConfigurationSchema]. *)
Inductive key : Type :=
| storagePath
| bufferPath
| retailLogPath
| classicLogPath
| maxStorage
| monitorIndex
| selectedCategory
| audioInputDevice
| audioOutputDevice
| minEncounterDuration
| startUp.

(** The service as its reading functions see it: what [_store.has] and
    [_store.get] answer for each key ([None]: the store does not have the
    key), and [schema.bufferPath.default], the one default that the code
    rewrites. *)
Record t : Type := {
  stored : key -> option jsval;
  bufferPathDefault : jsval
}.

(** [schema[key].default] *)
Definition schemaDefault (st : t) (k : key) : jsval :=
  match k with
  | storagePath | retailLogPath | classicLogPath => VString EmptyString
  | bufferPath => bufferPathDefault st
  | maxStorage => VNumber (Num 20)
  | monitorIndex => VNumber (Num 1)
  | selectedCategory => VNumber (Num 0)
  | audioInputDevice | audioOutputDevice => VString "all"
  | minEncounterDuration => VNumber (Num 15)
  | startUp => VBool false
  end.

(** [this._store.has(key)] *)
Definition has (k : key) (st : t) : bool :=
  match stored st k with
  | Some _ => true
  | None => false
  end.

(** [this._store.get(key)] *)
Definition storeGet (k : key) (st : t) : jsval :=
  match stored st k with
  | Some v => v
  | None => VUndefined
  end.

(** [value === '' || value === null || value === undefined] *)
Definition isBlank (v : jsval) : bool :=
  match v with
  | VString s => String.eqb s EmptyString
  | VNull | VUndefined => true
  | _ => false
  end.

(** [get(key)]; every key of the type is a key of [schema], so the guard
    against invalid keys is never met. *)
Definition get (k : key) (st : t) : jsval :=
  let value := storeGet k st in
  if (negb (has k st) || isBlank value) && toBoolean (schemaDefault st k)
  then schemaDefault st k
  else value.

Section Paths.
Context {node : NodePath}.

(** [resolvebufferPath(storagePath, bufferPath)]; [path.join] on a value
    that is not a string is a TypeError. *)
Definition resolvebufferPath (storagePath bufferPath : jsval) : completion jsval :=
  if toBoolean bufferPath then Normal bufferPath
  else if toBoolean storagePath then
    match storagePath with
    | VString s => Normal (VString (path_join s ".temp"))
    | _ => Throw (TypeError "The path argument must be of type string")
    end
  else Normal (VString EmptyString).

(** [updateDefaults(key, newValue)] *)
Definition updateDefaults (name : string) (newValue : jsval) : M t unit :=
  fun st =>
    if String.eqb name "storagePath" then
      match resolvebufferPath newValue (get bufferPath st) with
      | Normal d => (Normal tt, {| stored := stored st; bufferPathDefault := d |})
      | Throw e => (Throw e, st)
      end
    else (Normal tt, st).

(** [validate()] *)
Definition validate : M t bool :=
  (fun st =>
     if toBoolean (get storagePath st)
     then updateDefaults "storagePath" (get storagePath st) st
     else (Normal tt, st)) ;;
  fun st =>
    if negb (toBoolean (get storagePath st)) then (Normal false, st)
    else if negb (toBoolean (get retailLogPath st))
            && negb (toBoolean (get classicLogPath st))
    then (Normal false, st)
    else (Normal true, st).

End Paths.

End ConfigService.

(** A [path.join] for running examples: the two parts with a separator. *)
Definition examplePath : NodePath :=
  {| path_join := fun a b => a +:+ "/" +:+ b |}.

(** ** Further functions: raids by encounter ([helpers.ts]) *)

(** The two fields of [RaidInstanceType] (of [./types]) that are read;
    [encounters] is an object keyed by encounter id. *)
Module Raid.
Record t : Type := { name : string; encounters : gmap Z string }.
End Raid.

(** [zoneID && r.encounters.hasOwnProperty(zoneID)]; [None] is a missing
    argument. *)
Definition hasEncounter (zoneID : option number) (r : Raid.t) : bool :=
  match zoneID with
  | Some (Num z) =>
      negb (z =? 0) &&
      match Raid.encounters r !! z with
      | Some _ => true
      | None => false
      end
  | _ => false
  end.

(** [getRaidByEncounterId(zoneID)]: [filter], then [pop()].  The table
    [raidInstances] of [./constants] is not among the sources and is a
    parameter. *)
Definition getRaidByEncounterId (raidInstances : list Raid.t)
    (zoneID : option number) : option Raid.t :=
  last (List.filter (hasEncounter zoneID) raidInstances).

(** [getRaidNameByEncounterId(encounterID)] *)
Definition getRaidNameByEncounterId (raidInstances : list Raid.t)
    (encounterID : option number) : string :=
  match getRaidByEncounterId raidInstances encounterID with
  | Some raid => Raid.name raid
  | None => "Unknown Raid"
  end.

(** ** Further functions: [stop] of the class based revision *)

(** Modelled from the spec: the other members of the enumeration
    [ObsSignal] of [./types]. *)
Definition ObsSignal_Stopping : string := "stopping".
Definition ObsSignal_Stop : string := "stop".
Definition ObsSignal_Wrote : string := "wrote".

Section ClassStop.
Context {rt : JSRuntime}.

(** [ObsRecorder.stop()] of the class based revision: none of the three
    calls of [assertNextSignal] is awaited, so the three waits begin at
    the same instant. *)
Definition ObsRecorder_stop : M recorder unit :=
  issue OBS_service_stopRecording ;;
  notAwaited (assertNextSignal ObsSignal_Stopping) ;;
  notAwaited (assertNextSignal ObsSignal_Stop) ;;
  notAwaited (assertNextSignal ObsSignal_Wrote).

End ClassStop.

(* ===================================================================== *)
(** * Part II: properties *)
(* ===================================================================== *)

(** ** Numbers *)

(** A text that begins with a character of one byte which is no white
    space has nothing to trim. *)
Lemma trimStart_head (c : ascii) (rest : string) :
  isStrWhiteSpaceChar c = false ->
  Z.of_nat (nat_of_ascii c) < 128 ->
  trimStart (String c rest) = String c rest.
Proof.
  intros Hws Hc.
  assert (forall c1, isStrWhiteSpace2 c c1 = false) as H2.
  { intros c1. unfold isStrWhiteSpace2.
    destruct (Z.eqb_spec (Z.of_nat (nat_of_ascii c)) 194); [lia|reflexivity]. }
  assert (forall c1 c2, isStrWhiteSpace3 c c1 c2 = false) as H3.
  { intros c1 c2. unfold isStrWhiteSpace3. cbv zeta.
    destruct (Z.eqb_spec (Z.of_nat (nat_of_ascii c)) 225); [lia|].
    destruct (Z.eqb_spec (Z.of_nat (nat_of_ascii c)) 226); [lia|].
    destruct (Z.eqb_spec (Z.of_nat (nat_of_ascii c)) 227); [lia|].
    destruct (Z.eqb_spec (Z.of_nat (nat_of_ascii c)) 239); [lia|].
    reflexivity. }
  cbn [trimStart]. rewrite Hws.
  destruct rest as [|c1 [|c2 rest2]]; try reflexivity.
  - rewrite H2. reflexivity.
  - rewrite H2, H3. reflexivity.
Qed.

Lemma roundMagnitude_small (m : Z) : 0 <= m < 2 ^ 53 -> roundMagnitude m = m.
Proof.
  intros [H0 H1]. unfold roundMagnitude.
  assert (Z.log2 m < 53) as Hlog.
  { destruct (Z.eq_dec m 0) as [->|Hne]; [reflexivity|].
    apply Z.log2_lt_pow2; lia. }
  apply Z.ltb_lt in Hlog. rewrite Hlog. reflexivity.
Qed.

Lemma toNumber_exact (z : Z) : Z.abs z < 2 ^ 53 -> toNumber z = Num z.
Proof.
  intros Hz. unfold toNumber.
  rewrite roundMagnitude_small by lia.
  assert (2 ^ 53 < 2 ^ 1024) by (apply Z.pow_lt_mono_r; lia).
  destruct (Z.leb_spec (2 ^ 1024) (Z.abs z)) as [Hbig|_]; [lia|].
  f_equal. destruct z; simpl; lia.
Qed.

Lemma roundMagnitude_pos (m : Z) : 0 < m -> 0 < roundMagnitude m.
Proof.
  intros Hm. unfold roundMagnitude.
  destruct (Z.ltb_spec (Z.log2 m) 53) as [_|Hbig]; [exact Hm|].
  set (sh := Z.log2 m - 52).
  assert (0 < sh) as Hsh by (subst sh; lia).
  assert (0 < Z.shiftr m sh) as Hq.
  { rewrite Z.shiftr_div_pow2 by lia. apply Z.div_str_pos. split.
    - apply Z.pow_pos_nonneg; lia.
    - transitivity (2 ^ Z.log2 m).
      + apply Z.pow_le_mono_r; subst sh; lia.
      + apply Z.log2_spec. exact Hm. }
  cbv zeta. rewrite Z.shiftl_mul_pow2 by lia.
  apply Z.mul_pos_pos; [|apply Z.pow_pos_nonneg; lia].
  destruct (_ || _); lia.
Qed.

(** A positive integer does not round to zero. *)
Lemma toNumber_pos (z : Z) : 0 < z -> numStrictEq (Num 0) (toNumber z) = false.
Proof.
  intros Hz. unfold toNumber. rewrite Z.abs_eq by lia.
  pose proof (roundMagnitude_pos z Hz) as Hpos.
  destruct (2 ^ 1024 <=? roundMagnitude z).
  - destruct (z <? 0); reflexivity.
  - cbn [numStrictEq]. apply Z.eqb_neq.
    rewrite Z.sgn_pos by exact Hz. lia.
Qed.







(** ** The resolution matcher *)

Lemma inRange_bound (z : Z) : inRange z = true -> Z.abs z <= 562949953421312.
Proof. unfold inRange. intros H. apply Z.leb_le in H. exact H. Qed.

(** On a well formed candidate and a target in range, the value computed
    for the index array is the distance of the specification. *)
Lemma indexValue_exact (tw th : Z) (v : string) (w h : Z) :
  inRange tw = true -> inRange th = true ->
  parsedSize v = Some (w, h) -> inRange w = true -> inRange h = true ->
  indexValue {| width := Num tw; height := Num th |} (numericResolution v)
  = Num (distance tw th (w, h)).
Proof.
  intros Htw Hth Hv Hw Hh.
  apply inRange_bound in Htw, Hth, Hw, Hh.
  unfold parsedSize in Hv.
  destruct (numericResolution v) as [|[w0| | |] [|[h0| | |] rest]]; try discriminate.
  injection Hv as -> ->.
  unfold indexValue, component, distance. cbn [nth width height fst snd].
  unfold jsSub, jsNeg. cbn [jsAdd].
  rewrite !toNumber_exact by (change (2 ^ 53) with 9007199254740992; lia).
  cbn [jsMul].
  rewrite !toNumber_exact by (change (2 ^ 53) with 9007199254740992; lia).
  cbn [jsAdd].
  rewrite toNumber_exact by (change (2 ^ 53) with 9007199254740992; lia).
  cbn [Math_abs]. f_equal. f_equal. lia.
Qed.

Lemma indexArray_exact (tw th : Z) (resolutions : list string) :
  inRange tw = true -> inRange th = true ->
  forallb wellFormed resolutions = true ->
  map (indexValue {| width := Num tw; height := Num th |})
      (map numericResolution resolutions)
  = map Num (map (distanceOf tw th) resolutions).
Proof.
  intros Htw Hth. induction resolutions as [|v l IH]; intros Hwf; [reflexivity|].
  cbn [forallb] in Hwf. apply andb_true_iff in Hwf as [Hv Hl].
  cbn [map]. rewrite (IH Hl). f_equal.
  unfold wellFormed in Hv. unfold distanceOf.
  destruct (parsedSize v) as [[w h]|] eqn:Hp; [|discriminate].
  apply andb_true_iff in Hv as [Hw Hh].
  apply indexValue_exact; assumption.
Qed.





(** C9.  An exact match of the target does not always win: a candidate
    (w, h) with 2(tw - w) + 4(th - h) = 0 has distance 0 too, and placed
    before the exact match it is the one returned; the candidates
    1922x1079, 1920x1080 and the target 1920 by 1080 yield 1922x1079. *)
Theorem C9_exact_match_can_lose :
  (forall (s1 s2 : string) (tw th w h : Z),
      inRange tw = true -> inRange th = true ->
      inRange w = true -> inRange h = true ->
      parsedSize s1 = Some (w, h) ->
      parsedSize s2 = Some (tw, th) ->
      2 * (tw - w) + 4 * (th - h) = 0 ->
      getClosestResolution [s1; s2] {| width := Num tw; height := Num th |}
        = Some s1) /\
  (exists (resolutions : list string) (tw th : Z) (exact r : string),
      In exact resolutions /\
      parsedSize exact = Some (tw, th) /\
      getClosestResolution resolutions {| width := Num tw; height := Num th |}
        = Some r /\
      parsedSize r <> Some (tw, th)) /\
  getClosestResolution ["1922x1079"; "1920x1080"]
    {| width := Num 1920; height := Num 1080 |} = Some "1922x1079".
Proof.
  split; [|split].
  - intros s1 s2 tw th w h Htw Hth Hw Hh Hs1 Hs2 Hzero.
    unfold getClosestResolution.
    rewrite (indexArray_exact tw th [s1; s2] Htw Hth).
    + cbn [map]. unfold distanceOf. rewrite Hs1, Hs2.
      unfold distance. cbn [fst snd]. rewrite Hzero.
      replace (2 * (tw - tw) + 4 * (th - th)) with 0 by lia.
      reflexivity.
    + cbn [forallb]. unfold wellFormed. rewrite Hs1, Hs2, Htw, Hth, Hw, Hh.
      reflexivity.
  - exists ["1922x1079"; "1920x1080"], 1920, 1080, "1920x1080", "1922x1079".
    split; [right; left; reflexivity|].
    split; [vm_compute; reflexivity|].
    split; [vm_compute; reflexivity|].
    vm_compute. discriminate.
  - vm_compute. reflexivity.
Qed.

Lemma C9_exact_match_can_lose_witness :
  (inRange 3840 = true /\ inRange 2160 = true /\
   inRange 3842 = true /\ inRange 2159 = true /\
   parsedSize "3842x2159" = Some (3842, 2159) /\
   parsedSize "3840x2160" = Some (3840, 2160) /\
   2 * (3840 - 3842) + 4 * (2160 - 2159) = 0) /\
  getClosestResolution ["3842x2159"; "3840x2160"]
    {| width := Num 3840; height := Num 2160 |} = Some "3842x2159".
Proof.
  split.
  - repeat split; vm_compute; reflexivity.
  - apply (proj1 C9_exact_match_can_lose "3842x2159" "3840x2160" 3840 2160 3842 2159);
      vm_compute; reflexivity.
Defined.

(** ** The settings bridge *)

Section SettingsBridge.
Context {rt : JSRuntime}.

Lemma looseEq_undefined (v : jsval) : looseEq v VUndefined = isNullish v.
Proof. destruct v; reflexivity. Qed.

Lemma numStrictEq_trans (a b c : number) :
  numStrictEq a c = true -> numStrictEq b c = true -> numStrictEq a b = true.
Proof.
  destruct a, b, c; cbn; try discriminate; try reflexivity.
  intros H1 H2. apply Z.eqb_eq in H1, H2. apply Z.eqb_eq. congruence.
Qed.

(** Two numbers loosely equal to the same value are the same number. *)
Lemma looseEq_number_functional (a b : number) (x : jsval) :
  looseEq (VNumber a) x = true -> looseEq (VNumber b) x = true ->
  numStrictEq a b = true.
Proof.
  destruct x as [| |c|c|c]; cbn [looseEq]; try discriminate;
    apply numStrictEq_trans.
Qed.

Lemma last_map_const {A B : Type} (l : list A) (v d : B) :
  l <> [] -> List.last (map (fun _ => v) l) d = v.
Proof.
  induction l as [|x l IH]; [congruence|]. intros _.
  destruct l as [|y l]; [reflexivity|].
  change (List.last (map (fun _ => v) (y :: l)) d = v). apply IH. discriminate.
Qed.

Lemma Forall_map_const {A B : Type} (l : list A) (v : B) :
  Forall (fun x => x = v) (map (fun _ => v) l).
Proof. induction l; constructor; auto. Qed.

Lemma forEachParam_absent (parameter : string) (value oldValue : jsval)
    (params : list Setting.param) :
  existsb (fun param => String.eqb (Setting.name param) parameter) params = false ->
  forEachParam parameter value oldValue params = (oldValue, params).
Proof.
  induction params as [|param rest IH]; intros H; [reflexivity|].
  cbn [existsb] in H. apply orb_false_iff in H as [Hname Hrest].
  cbn [forEachParam]. rewrite Hname, (IH Hrest). reflexivity.
Qed.

Lemma forEachSubCategory_absent (parameter : string) (value oldValue : jsval)
    (settings : settingsTree) :
  paramOccurs parameter settings = false ->
  forEachSubCategory parameter value oldValue settings = (oldValue, settings).
Proof.
  unfold paramOccurs.
  induction settings as [|sub rest IH]; intros H; [reflexivity|].
  cbn [existsb] in H. apply orb_false_iff in H as [Hsub Hrest].
  cbn [forEachSubCategory].
  rewrite (forEachParam_absent _ _ _ _ Hsub), (IH Hrest).
  destruct sub; reflexivity.
Qed.

Lemma last_cons_default {A : Type} (l : list A) (a d d' : A) :
  List.last (a :: l) d = List.last (a :: l) d'.
Proof.
  revert a. induction l as [|x l IH]; intros a; [reflexivity|].
  change (List.last (x :: l) d = List.last (x :: l) d'). apply IH.
Qed.

Lemma last_app_default {A : Type} (l1 l2 : list A) (d : A) :
  List.last (l1 ++ l2) d = List.last l2 (List.last l1 d).
Proof.
  destruct l2 as [|z l2]; [rewrite app_nil_r; reflexivity|].
  induction l1 as [|x l1 IH]; [reflexivity|].
  transitivity (List.last (l1 ++ z :: l2) d).
  - destruct l1; reflexivity.
  - rewrite IH. apply last_cons_default.
Qed.

Lemma forEachParam_run (parameter : string) (value oldValue : jsval)
    (params : list Setting.param) :
  forEachParam parameter value oldValue params
  = (List.last (paramValuesIn parameter params) oldValue,
     updateParams parameter value params).
Proof.
  revert oldValue. induction params as [|param rest IH]; intros oldValue;
    [reflexivity|].
  cbn [forEachParam]. unfold paramValuesIn, updateParams.
  cbn [List.filter map].
  destruct (String.eqb (Setting.name param) parameter); rewrite IH.
  - cbn [map]. f_equal.
    change (Setting.currentValue param :: ?l) with ([Setting.currentValue param] ++ l).
    rewrite last_app_default. reflexivity.
  - reflexivity.
Qed.

Lemma forEachSubCategory_run (parameter : string) (value oldValue : jsval)
    (settings : settingsTree) :
  forEachSubCategory parameter value oldValue settings
  = (List.last (paramValues parameter settings) oldValue,
     updateTree parameter value settings).
Proof.
  revert oldValue. induction settings as [|sub rest IH]; intros oldValue;
    [reflexivity|].
  cbn [forEachSubCategory]. rewrite forEachParam_run, IH.
  unfold paramValues. cbn [flat_map]. rewrite last_app_default. reflexivity.
Qed.

(** What [setSetting] does on a category that has data. *)
Lemma setSetting_run (category parameter : string) (value : jsval) (st : obs)
    (settings : settingsTree) :
  settingsStore st !! category = Some settings ->
  setSetting category parameter value st
  = if negb (looseEq value (List.last (paramValues parameter settings) VUndefined))
    then OBS_settings_saveSettings category (updateTree parameter value settings) st
    else (Normal tt, st).
Proof.
  intros Hcat. unfold setSetting. rewrite Hcat, forEachSubCategory_run. reflexivity.
Qed.

Lemma paramValuesIn_update (q parameter : string) (value : jsval)
    (params : list Setting.param) :
  paramValuesIn q (updateParams parameter value params)
  = if String.eqb q parameter
    then map (fun _ => value) (paramValuesIn q params)
    else paramValuesIn q params.
Proof.
  unfold paramValuesIn, updateParams.
  destruct (String.eqb_spec q parameter) as [->|Hq].
  - induction params as [|param rest IH]; [reflexivity|].
    cbn [map List.filter].
    destruct (String.eqb (Setting.name param) parameter) eqn:Hp;
      cbn [Setting.name]; rewrite Hp; [cbn [map]; f_equal|]; exact IH.
  - induction params as [|param rest IH]; [reflexivity|].
    cbn [map List.filter].
    destruct (String.eqb_spec (Setting.name param) parameter) as [Hp|Hp];
      cbn [Setting.name].
    + destruct (String.eqb_spec (Setting.name param) q) as [Hn|Hn];
        [congruence|exact IH].
    + destruct (String.eqb (Setting.name param) q);
        [cbn [map]; f_equal|]; exact IH.
Qed.

Lemma paramValues_update (q parameter : string) (value : jsval)
    (settings : settingsTree) :
  paramValues q (updateTree parameter value settings)
  = if String.eqb q parameter
    then map (fun _ => value) (paramValues q settings)
    else paramValues q settings.
Proof.
  unfold paramValues, updateTree.
  induction settings as [|sub rest IH].
  - destruct (String.eqb q parameter); reflexivity.
  - cbn [map flat_map Setting.parameters]. rewrite IH, paramValuesIn_update.
    destruct (String.eqb q parameter); [rewrite map_app|]; reflexivity.
Qed.

(** On a category that has data [setSetting] returns normally; it touches
    nothing but the settings, no category loses its data, and parameters of
    another name keep their values. *)
Lemma setSetting_frame (category parameter : string) (value : jsval) (st : obs) :
  is_Some (settingsStore st !! category) ->
  exists store saved,
    setSetting category parameter value st = (Normal tt, withSettings st store saved) /\
    (forall c, is_Some (settingsStore st !! c) -> is_Some (store !! c)) /\
    (forall c q, q <> parameter ->
                 paramValues q (treeOf store c)
                 = paramValues q (treeOf (settingsStore st) c)).
Proof.
  intros [settings Hcat]. rewrite (setSetting_run _ _ _ _ _ Hcat).
  destruct (negb _).
  - eexists _, _. split; [reflexivity|]. split.
    + intros c Hc. destruct (decide (category = c)) as [->|Hne].
      * rewrite lookup_insert_eq. eauto.
      * rewrite lookup_insert_ne by exact Hne. exact Hc.
    + intros c q Hq. unfold treeOf.
      destruct (decide (category = c)) as [<-|Hne].
      * rewrite lookup_insert_eq, Hcat. cbn [from_option id].
        rewrite paramValues_update.
        destruct (String.eqb_spec q parameter); [congruence|reflexivity].
      * rewrite lookup_insert_ne by exact Hne. reflexivity.
  - exists (settingsStore st), (savedSettings st). split; [|auto].
    destruct st; reflexivity.
Qed.

(** Writing a number to a parameter whose last value is loosely equal to
    another number, or that does not occur, replaces all its values. *)
Lemma setSetting_overwrites (category parameter : string) (a b : number) (st : obs)
    (settings : settingsTree) :
  settingsStore st !! category = Some settings ->
  numStrictEq a b = false ->
  paramValues parameter settings = [] \/
  looseEq (VNumber a) (List.last (paramValues parameter settings) VUndefined) = true ->
  setSetting category parameter (VNumber b) st
  = OBS_settings_saveSettings category (updateTree parameter (VNumber b) settings) st.
Proof.
  intros Hcat Hab Hold. rewrite (setSetting_run _ _ _ _ _ Hcat).
  destruct (looseEq (VNumber b) (List.last (paramValues parameter settings) VUndefined))
    eqn:Hb; [|reflexivity].
  exfalso. destruct Hold as [Hnil|Ha].
  - rewrite Hnil in Hb. discriminate.
  - pose proof (looseEq_number_functional _ _ _ Ha Hb). congruence.
Qed.

End SettingsBridge.

(** ** The track bitmask *)

Lemma shiftCount_mod (x : Z) : Z.land (ToUint32 x) 31 = x mod 32.
Proof.
  unfold ToUint32. change 31 with (Z.ones 5).
  rewrite Z.land_ones by lia. change (2 ^ 5) with 32. change (2 ^ 32) with 4294967296.
  apply Z.mod_mod_divide. exists 134217728. reflexivity.
Qed.

(** The mask depends on the slot through (slot - 1) mod 32 only. *)
Lemma trackMask_mod (k : Z) : trackMask k = trackMask ((k - 1) mod 32 + 1).
Proof.
  unfold trackMask, jsShl. rewrite !shiftCount_mod.
  replace ((k - 1) mod 32 + 1 - 1) with ((k - 1) mod 32) by lia.
  rewrite Z.mod_mod by lia. reflexivity.
Qed.

Lemma trackMask_small (k : Z) :
  1 <= k <= 31 -> trackMask k = Z.lor 1 (Z.shiftl 1 (k - 1)).
Proof.
  intros Hk.
  assert (forallb (fun k => trackMask k =? Z.lor 1 (Z.shiftl 1 (k - 1))) (seqZ 1 31)
          = true) as Hall by (vm_compute; reflexivity).
  rewrite forallb_forall in Hall. apply Z.eqb_eq, Hall.
  apply list_elem_of_In, elem_of_seqZ. lia.
Qed.

Lemma trackMask_exclusive (k : Z) :
  2 <= k <= 31 -> trackMask k = 1 + 2 ^ (k - 1).
Proof.
  intros Hk.
  assert (forallb (fun k => trackMask k =? 1 + 2 ^ (k - 1)) (seqZ 2 30) = true)
    as Hall by (vm_compute; reflexivity).
  rewrite forallb_forall in Hall. apply Z.eqb_eq, Hall.
  apply list_elem_of_In, elem_of_seqZ. lia.
Qed.

(** Seen as 32 bits, a mask has no bit at position 32 or above. *)
Lemma trackMask_no_high_bit (k n : Z) :
  32 <= n -> Z.testbit (ToUint32 (trackMask k)) n = false.
Proof.
  intros Hn. unfold ToUint32. apply Z.mod_pow2_bits_high. lia.
Qed.

(** ** Audio track allocation *)

Section TrackAllocation.
Context {rt : JSRuntime}.

Lemma bind_normal {S A B : Type} (m : M S A) (k : A -> M S B) (st st' : S) (a : A) :
  m st = (Normal a, st') -> bind m k st = k a st'.
Proof. intros H. unfold bind. rewrite H. reflexivity. Qed.

Lemma alter_last {A : Type} (f : A -> A) (l : list A) (x : A) :
  alter f (length l) (l ++ [x]) = l ++ [f x].
Proof.
  induction l as [|y l IH]; [reflexivity|].
  cbn [length app]. cbn [alter list_alter]. f_equal. exact IH.
Qed.

Lemma trackName_not_RecTracks (index : Z) : "RecTracks" <> trackName index.
Proof. unfold trackName. cbn. discriminate. Qed.

(** One run of a device loop: it returns the advanced track counter, adds
    one source per device and registers each on its own track. *)
Lemma addAudioSources_spec (id name selected : string) (devices : list Device.t) :
  forall (currentTrack : Z) (st : obs),
    is_Some (settingsStore st !! "Output") ->
    exists st',
      addAudioSources id name selected devices currentTrack st
        = (Normal (currentTrack + Z.of_nat (length devices)), st') /\
      is_Some (settingsStore st' !! "Output") /\
      objects st' = objects st ++ audioSourcesFrom id name selected devices currentTrack /\
      outputSources st'
        = registerTracks currentTrack (length (objects st)) (length devices)
                         (outputSources st) /\
      audioInputDevices st' = audioInputDevices st /\
      audioOutputDevices st' = audioOutputDevices st /\
      recTracks st' = recTracks st.
Proof.
  induction devices as [|device rest IH]; intros currentTrack st Hout.
  - exists st. cbn. rewrite Z.add_0_r, app_nil_r. repeat split; auto.
  - cbn [addAudioSources].
    erewrite bind_normal by reflexivity.
    destruct (setSetting_frame "Output" (trackName currentTrack)
                (VString (Device.name device))
                (withObjects st (objects st ++
                   [{| typeId := id; sourceName := name;
                       device_id := Some (Device.id device);
                       audioMixers := None; muted := None;
                       released := 0; removed := false |}])))
      as (store & saved & Hset & Hkeep & Hvals); [exact Hout|].
    rewrite (bind_normal _ _ _ _ _ Hset).
    do 4 (erewrite bind_normal by reflexivity).
    match goal with |- context [addAudioSources _ _ _ _ _ ?st2] =>
      destruct (IH (currentTrack + 1) st2)
        as (st' & Hrun & Hout' & Hobj & Htab & Hin & Hou & Hrec)
    end.
    { cbn. apply Hkeep. exact Hout. }
    cbn [withSettings withObjects withOutputSources settingsStore savedSettings
         outputSources objects audioInputDevices audioOutputDevices] in *.
    rewrite !alter_last in Hobj, Htab. rewrite length_app in Htab.
    exists st'. rewrite Hrun.
    split; [f_equal; f_equal; cbn [length]; lia|].
    split; [exact Hout'|].
    split; [rewrite Hobj, <- app_assoc; reflexivity|].
    split.
    { rewrite Htab. cbn [length registerTracks].
      replace (length (objects st) + 1)%nat with (S (length (objects st))) by lia.
      reflexivity. }
    split; [exact Hin|]. split; [exact Hou|].
    rewrite Hrec. unfold recTracks.
    cbn [withSettings withObjects withOutputSources settingsStore].
    apply Hvals. apply trackName_not_RecTracks.
Qed.

Lemma registerTracks_lookup_in (count : nat) :
  forall (track : Z) (src : nat) (table : gmap Z nat) (i : nat),
    (i < count)%nat ->
    registerTracks track src count table !! (track + Z.of_nat i) = Some (src + i)%nat.
Proof.
  induction count as [|n IH]; intros track src table i Hi; [lia|].
  cbn [registerTracks]. destruct i as [|i].
  - clear IH Hi. rewrite Z.add_0_r, Nat.add_0_r.
    assert (forall m t s (tb : gmap Z nat), track < t ->
              tb !! track = Some src ->
              registerTracks t s m tb !! track = Some src) as Hkeep.
    { induction m as [|m IHm]; intros t s0 tb Ht Htb; [exact Htb|].
      cbn [registerTracks]. apply IHm; [lia|].
      rewrite lookup_insert_ne by lia. exact Htb. }
    apply Hkeep; [lia|]. apply lookup_insert_eq.
  - replace (track + Z.of_nat (S i)) with (track + 1 + Z.of_nat i) by lia.
    replace (src + S i)%nat with (S src + i)%nat by lia.
    apply IH. lia.
Qed.

Lemma registerTracks_lookup_out (count : nat) :
  forall (track : Z) (src : nat) (table : gmap Z nat) (j : Z),
    j < track \/ track + Z.of_nat count <= j ->
    registerTracks track src count table !! j = table !! j.
Proof.
  induction count as [|n IH]; intros track src table j Hj; [reflexivity|].
  cbn [registerTracks]. rewrite IH by lia.
  apply lookup_insert_ne. lia.
Qed.

Lemma audioSourcesFrom_lookup (id name selected : string) (devices : list Device.t) :
  forall (track : Z) (i : nat) (device : Device.t),
    devices !! i = Some device ->
    audioSourcesFrom id name selected devices track !! i
    = Some (audioSource id name selected device (track + Z.of_nat i)).
Proof.
  induction devices as [|d rest IH]; intros track i device Hi; [discriminate|].
  cbn [audioSourcesFrom]. rewrite lookup_cons in Hi. rewrite lookup_cons.
  destruct i as [|i].
  - injection Hi as ->. rewrite Z.add_0_r. reflexivity.
  - rewrite (IH (track + 1) i device Hi). do 2 f_equal. lia.
Qed.

Lemma audioSourcesFrom_length (id name selected : string) (devices : list Device.t)
    (track : Z) :
  length (audioSourcesFrom id name selected devices track) = length devices.
Proof.
  revert track. induction devices as [|d rest IH]; intros track; [reflexivity|].
  cbn. f_equal. apply IH.
Qed.

(** ['1'.repeat(n)] read in base 2. *)
Lemma parseDigits_ones (n : nat) (a : Z) :
  parseDigits 2 (repeatString "1" n) (Some a)
  = Some (a * 2 ^ Z.of_nat n + (2 ^ Z.of_nat n - 1)).
Proof.
  revert a. induction n as [|n IH]; intros a.
  - cbn. f_equal. lia.
  - change (repeatString "1" (S n)) with (String "1" (repeatString "1" n)).
    cbn [parseDigits]. change (digitValue "1") with (Some 1).
    change (1 <? 2) with true. cbv iota. rewrite IH. f_equal.
    rewrite Nat2Z.inj_succ, Z.pow_succ_r by lia. lia.
Qed.

Lemma parseInt_ones (n : nat) :
  (0 < n)%nat ->
  parseInt (repeatString "1" n) 2 = toNumber (2 ^ Z.of_nat n - 1).
Proof.
  destruct n as [|n]; [lia|]. intros _.
  change (repeatString "1" (S n)) with (String "1" (repeatString "1" n)).
  unfold parseInt. rewrite trimStart_head by (vm_compute; reflexivity).
  change ((2 =? 0) || (2 <=? 2) && (2 <=? 36)) with true.
  change ((2 =? 0) || (2 =? 16)) with false. cbn [andb]. cbv iota.
  change (2 =? 0) with false. cbv iota.
  cbn [parseDigits]. change (digitValue "1") with (Some 1).
  change (1 <? 2) with true. cbv iota. rewrite parseDigits_ones.
  f_equal. rewrite Nat2Z.inj_succ, Z.pow_succ_r by lia. lia.
Qed.

(** One round of the loop of [clearSources]. *)
Lemma clearSlot_spec (index : Z) (st : obs) :
  is_Some (settingsStore st !! "Output") ->
  exists st',
    clearSlot index st = (Normal tt, st') /\
    is_Some (settingsStore st' !! "Output") /\
    outputSources st' = delete index (outputSources st) /\
    length (objects st') = length (objects st) /\
    audioInputDevices st' = audioInputDevices st /\
    audioOutputDevices st' = audioOutputDevices st /\
    recTracks st' = recTracks st.
Proof.
  intros Hout. unfold clearSlot.
  erewrite bind_normal by reflexivity.
  destruct (outputSources st !! index) as [src|] eqn:Hsrc.
  - destruct (setSetting_frame "Output" (trackName index) (VString EmptyString) st Hout)
      as (store & saved & Hset & Hkeep & Hvals).
    rewrite (bind_normal _ _ _ _ _ Hset).
    do 2 (erewrite bind_normal by reflexivity).
    eexists. split; [reflexivity|].
    cbn [remove release updateSource Global_setOutputSource snd
         withSettings withObjects withOutputSources settingsStore savedSettings
         outputSources objects audioInputDevices audioOutputDevices].
    split; [apply Hkeep; exact Hout|].
    split; [reflexivity|].
    split; [rewrite !length_alter; reflexivity|].
    split; [reflexivity|]. split; [reflexivity|].
    unfold recTracks. cbn [settingsStore].
    apply Hvals. apply trackName_not_RecTracks.
  - exists st. split; [reflexivity|]. split; [exact Hout|].
    split; [symmetry; apply delete_id; exact Hsrc|]. auto.
Qed.

(** The loop of [clearSources] over any list of slots. *)
Lemma clearLoop_spec (slots : list Z) :
  forall st : obs,
    is_Some (settingsStore st !! "Output") ->
    exists st',
      forEach slots clearSlot st = (Normal tt, st') /\
      is_Some (settingsStore st' !! "Output") /\
      (forall k, In k slots -> outputSources st' !! k = None) /\
      (forall k, ~ In k slots -> outputSources st' !! k = outputSources st !! k) /\
      length (objects st') = length (objects st) /\
      audioInputDevices st' = audioInputDevices st /\
      audioOutputDevices st' = audioOutputDevices st /\
      recTracks st' = recTracks st.
Proof.
  induction slots as [|index rest IH]; intros st Hout.
  - exists st. split; [reflexivity|]. split; [exact Hout|].
    split; [intros k []|]. auto.
  - cbn [forEach].
    destruct (clearSlot_spec index st Hout)
      as (st1 & Hrun1 & Hout1 & Htab1 & Hlen1 & Hin1 & Hou1 & Hrec1).
    rewrite (bind_normal _ _ _ _ _ Hrun1).
    destruct (IH st1 Hout1)
      as (st' & Hrun & Hout' & Hnone & Hsame & Hlen & Hin & Hou & Hrec).
    exists st'. split; [exact Hrun|]. split; [exact Hout'|].
    split; [|split].
    + intros k Hk. destruct (in_dec Z.eq_dec k rest) as [Hr|Hr].
      * apply Hnone. exact Hr.
      * rewrite (Hsame k Hr), Htab1.
        destruct Hk as [->|Hk]; [apply lookup_delete_eq|contradiction].
    + intros k Hk. rewrite Hsame by (intros Hr; apply Hk; right; exact Hr).
      rewrite Htab1. apply lookup_delete_ne. intros ->. apply Hk. left. reflexivity.
    + repeat split; congruence.
Qed.

(** [clearSources] on an engine whose Output category has data: it
    returns normally, empties the slots 1 to 63 and no other, creates no
    source, and leaves the recorded-tracks parameter loosely equal to 0. *)
Lemma clearSources_spec (st : obs) :
  is_Some (settingsStore st !! "Output") ->
  exists st',
    clearSources st = (Normal tt, st') /\
    is_Some (settingsStore st' !! "Output") /\
    (forall k, 1 <= k < 64 -> outputSources st' !! k = None) /\
    (forall k, ~ 1 <= k < 64 -> outputSources st' !! k = outputSources st !! k) /\
    length (objects st') = length (objects st) /\
    audioInputDevices st' = audioInputDevices st /\
    audioOutputDevices st' = audioOutputDevices st /\
    (recTracks st' = [] \/
     looseEq (VNumber (Num 0)) (List.last (recTracks st') VUndefined) = true).
Proof.
  intros Hout. unfold clearSources.
  destruct (clearLoop_spec (seqZ 1 (64 - 1)) st Hout)
    as (st1 & Hrun1 & Hout1 & Hnone & Hsame & Hlen & Hin & Hou & Hrec).
  rewrite (bind_normal _ _ _ _ _ Hrun1).
  assert (forall k, In k (seqZ 1 (64 - 1)) <-> 1 <= k < 64) as Hseq.
  { intros k. rewrite <- list_elem_of_In, elem_of_seqZ. lia. }
  destruct Hout1 as [tree Htree].
  rewrite (setSetting_run _ _ _ _ _ Htree).
  destruct (looseEq (VNumber (Num 0)) (List.last (paramValues "RecTracks" tree) VUndefined))
    eqn:Hloose; cbn [negb].
  - exists st1. split; [reflexivity|]. split; [eauto|].
    split; [intros k Hk; apply Hnone, Hseq, Hk|].
    split; [intros k Hk; apply Hsame; rewrite Hseq; exact Hk|].
    repeat (split; [assumption|]).
    right. unfold recTracks, treeOf. rewrite Htree. exact Hloose.
  - eexists. split; [reflexivity|].
    cbn [OBS_settings_saveSettings snd withSettings settingsStore outputSources
         objects audioInputDevices audioOutputDevices].
    split; [rewrite lookup_insert_eq; eauto|].
    split; [intros k Hk; apply Hnone, Hseq, Hk|].
    split; [intros k Hk; apply Hsame; rewrite Hseq; exact Hk|].
    repeat (split; [assumption|]).
    unfold recTracks, treeOf. cbn [settingsStore withSettings].
    rewrite lookup_insert_eq. cbn [from_option id].
    rewrite paramValues_update, String.eqb_refl.
    destruct (paramValues "RecTracks" tree) as [|v vs] eqn:Hvals; [left; reflexivity|].
    right. rewrite last_map_const by discriminate. reflexivity.
Qed.

(** [allocateTracks] on an engine whose Output category has data.  With
    [n] input and [m] output devices it returns normally; the scene sits in
    slot 1; the sources of the devices are appended to the objects, inputs
    first, and registered on the slots from 2 on; and if the recorded-tracks
    parameter was loosely equal to 0 (or absent) before, all its values are
    the number read from [n + m + 1] binary ones afterwards. *)
Lemma allocateTracks_spec (scene : nat) (inputId outputId : string) (st : obs) :
  is_Some (settingsStore st !! "Output") ->
  let inputs := audioInputDevices st in
  let outputs := audioOutputDevices st in
  let n := length inputs in
  let m := length outputs in
  let base := length (objects st) in
  let value := toNumber (2 ^ Z.of_nat (n + m + 1) - 1) in
  exists st',
    allocateTracks scene inputId outputId st = (Normal tt, st') /\
    is_Some (settingsStore st' !! "Output") /\
    objects st'
    = objects st
      ++ audioSourcesFrom "wasapi_input_capture" "mic-audio" inputId inputs 2
      ++ audioSourcesFrom "wasapi_output_capture" "desktop-audio" outputId outputs
           (2 + Z.of_nat n) /\
    outputSources st'
    = registerTracks (2 + Z.of_nat n) (base + n) m
        (registerTracks 2 base n (<[1 := scene]> (outputSources st))) /\
    audioInputDevices st' = inputs /\
    audioOutputDevices st' = outputs /\
    (recTracks st = [] \/
     looseEq (VNumber (Num 0)) (List.last (recTracks st) VUndefined) = true ->
     Forall (fun v => v = VNumber value) (recTracks st')) /\
    (Forall (fun v => v = VNumber value) (recTracks st') \/
     recTracks st' = recTracks st /\
     looseEq (VNumber value) (List.last (recTracks st) VUndefined) = true).
Proof.
  intros Hout inputs outputs n m base value. unfold allocateTracks.
  erewrite bind_normal by reflexivity.
  destruct (setSetting_frame "Output" "Track1Name" (VString "Mixed: all sources")
              (withOutputSources st (<[1 := scene]> (outputSources st))))
    as (store & saved & Hset & Hkeep & Hvals); [exact Hout|].
  rewrite (bind_normal _ _ _ _ _ Hset).
  erewrite bind_normal by reflexivity.
  cbn [withSettings withOutputSources audioInputDevices].
  match goal with |- context [bind (addAudioSources _ _ _ _ _) _ ?st1] =>
    destruct (addAudioSources_spec "wasapi_input_capture" "mic-audio" inputId
                (audioInputDevices st) 2 st1)
      as (st2 & Hrun2 & Hout2 & Hobj2 & Htab2 & Hin2 & Hou2 & Hrec2)
  end.
  { cbn. apply Hkeep. exact Hout. }
  rewrite (bind_normal _ _ _ _ _ Hrun2).
  erewrite bind_normal by reflexivity.
  cbn [withSettings withOutputSources settingsStore savedSettings
       outputSources objects audioInputDevices audioOutputDevices] in *.
  rewrite Hou2.
  destruct (addAudioSources_spec "wasapi_output_capture" "desktop-audio" outputId
              (audioOutputDevices st) (2 + Z.of_nat (length (audioInputDevices st)))
              st2 Hout2)
    as (st3 & Hrun3 & Hout3 & Hobj3 & Htab3 & Hin3 & Hou3 & Hrec3).
  rewrite (bind_normal _ _ _ _ _ Hrun3).
  replace (Z.to_nat (2 + Z.of_nat (length (audioInputDevices st))
                     + Z.of_nat (length (audioOutputDevices st)) - 1))
    with (n + m + 1)%nat by (subst n m inputs outputs; lia).
  rewrite parseInt_ones by lia. fold value.
  assert (recTracks st3 = recTracks st) as Hrec.
  { rewrite Hrec3, Hrec2. unfold recTracks. cbn [settingsStore].
    apply Hvals. discriminate. }
  assert (objects st3
          = objects st
            ++ audioSourcesFrom "wasapi_input_capture" "mic-audio" inputId inputs 2
            ++ audioSourcesFrom "wasapi_output_capture" "desktop-audio" outputId
                 outputs (2 + Z.of_nat n)) as Hobj.
  { rewrite Hobj3, Hobj2, <- app_assoc. reflexivity. }
  assert (outputSources st3
          = registerTracks (2 + Z.of_nat n) (base + n) m
              (registerTracks 2 base n (<[1 := scene]> (outputSources st)))) as Htab.
  { rewrite Htab3, Htab2, Hobj2, length_app, audioSourcesFrom_length. reflexivity. }
  destruct Hout3 as [tree Htree].
  destruct (setSetting_frame "Output" "RecTracks" (VNumber value) st3)
    as (store' & saved' & Hset' & Hkeep' & _); [eauto|].
  rewrite Hset'. eexists. split; [reflexivity|].
  cbn [withSettings settingsStore savedSettings outputSources objects
       audioInputDevices audioOutputDevices].
  split; [apply Hkeep'; eauto|].
  split; [exact Hobj|]. split; [exact Htab|].
  split; [subst inputs; congruence|]. split; [subst outputs; congruence|].
  assert (paramValues "RecTracks" tree = recTracks st) as Htreevals.
  { rewrite <- Hrec. unfold recTracks, treeOf. rewrite Htree. reflexivity. }
  split.
  - intros Hzero. rewrite <- Htreevals in Hzero.
    assert (numStrictEq (Num 0) value = false) as Hne.
    { subst value. apply toNumber_pos.
      assert (2 ^ 1 <= 2 ^ Z.of_nat (n + m + 1)) by (apply Z.pow_le_mono_r; lia).
      change (2 ^ 1) with 2 in *. lia. }
    rewrite (setSetting_overwrites _ _ _ _ _ _ Htree Hne Hzero) in Hset'.
    injection Hset' as Hst _. unfold recTracks, treeOf.
    cbn [settingsStore withSettings].
    rewrite <- Hst, lookup_insert_eq. cbn [from_option id].
    rewrite paramValues_update, String.eqb_refl. apply Forall_map_const.
  - rewrite (setSetting_run _ _ _ _ _ Htree), Htreevals in Hset'.
    destruct (looseEq (VNumber value) (List.last (recTracks st) VUndefined))
      eqn:Hloose; cbn [negb] in Hset'.
    + right. split; [|reflexivity].
      injection Hset' as Hst. rewrite <- Hst. exact Hrec.
    + left. injection Hset' as Hst _. unfold recTracks, treeOf.
      cbn [settingsStore withSettings].
      rewrite <- Hst, lookup_insert_eq. cbn [from_option id].
      rewrite paramValues_update, String.eqb_refl. apply Forall_map_const.
Qed.

(** Where the source of the [i]-th device (inputs first) ends up. *)
Lemma allocation_lookup (inputId outputId : string) (inputs outputs : list Device.t)
    (objs : list Source) (table : gmap Z nat) (i : nat) (device : Device.t) :
  (inputs ++ outputs) !! i = Some device ->
  let n := length inputs in
  let m := length outputs in
  let base := length objs in
  exists (id name selected : string),
    registerTracks (2 + Z.of_nat n) (base + n) m (registerTracks 2 base n table)
      !! (2 + Z.of_nat i) = Some (base + i)%nat /\
    (objs
     ++ audioSourcesFrom "wasapi_input_capture" "mic-audio" inputId inputs 2
     ++ audioSourcesFrom "wasapi_output_capture" "desktop-audio" outputId outputs
          (2 + Z.of_nat n)) !! (base + i)%nat
    = Some (audioSource id name selected device (2 + Z.of_nat i)).
Proof.
  intros Hi n m base.
  assert (length (audioSourcesFrom "wasapi_input_capture" "mic-audio" inputId inputs 2)
          = n) as Hlen by apply audioSourcesFrom_length.
  destruct (Nat.lt_ge_cases i n) as [Hlt|Hge].
  - rewrite lookup_app_l in Hi by exact Hlt.
    exists "wasapi_input_capture", "mic-audio", inputId. split.
    + rewrite registerTracks_lookup_out by lia.
      apply registerTracks_lookup_in. exact Hlt.
    + rewrite lookup_app_r by lia.
      replace (base + i - length objs)%nat with i by (subst base; lia).
      rewrite lookup_app_l by lia.
      apply audioSourcesFrom_lookup. exact Hi.
  - rewrite lookup_app_r in Hi by exact Hge. fold n in Hi.
    assert (i - n < m)%nat as Hm by (apply lookup_lt_Some in Hi; exact Hi).
    exists "wasapi_output_capture", "desktop-audio", outputId. split.
    + replace (2 + Z.of_nat i) with (2 + Z.of_nat n + Z.of_nat (i - n)) by lia.
      replace (base + i)%nat with (base + n + (i - n))%nat by lia.
      apply registerTracks_lookup_in. exact Hm.
    + rewrite lookup_app_r by lia.
      replace (base + i - length objs)%nat with i by (subst base; lia).
      rewrite lookup_app_r by lia. rewrite Hlen.
      replace (2 + Z.of_nat i) with (2 + Z.of_nat n + Z.of_nat (i - n)) by lia.
      apply audioSourcesFrom_lookup. exact Hi.
Qed.

(** [setupSources] of the function based revision on an engine whose
    Output category has data. *)
Lemma setupSources_spec (scene : nat) (inputId outputId : string) (st : obs) :
  is_Some (settingsStore st !! "Output") ->
  let devices := audioInputDevices st ++ audioOutputDevices st in
  let N := length devices in
  exists st',
    setupSources scene inputId outputId st = (Normal tt, st') /\
    outputSources st' !! 1 = Some scene /\
    (forall (i : nat) (device : Device.t),
        devices !! i = Some device ->
        exists (src : nat) (id name selected : string),
          outputSources st' !! (2 + Z.of_nat i) = Some src /\
          objects st' !! src
          = Some (audioSource id name selected device (2 + Z.of_nat i))) /\
    (forall k, 2 + Z.of_nat N <= k < 64 -> outputSources st' !! k = None) /\
    Forall (fun v => v = VNumber (toNumber (2 ^ Z.of_nat (N + 1) - 1))) (recTracks st').
Proof.
  intros Hout devices N. unfold setupSources.
  destruct (clearSources_spec st Hout)
    as (st1 & Hrun1 & Hout1 & Hnone & Hsame & Hlen & Hin & Hou & Hzero).
  rewrite (bind_normal _ _ _ _ _ Hrun1).
  destruct (allocateTracks_spec scene inputId outputId st1 Hout1)
    as (st' & Hrun & Hout' & Hobj & Htab & Hin' & Hou' & Hrec & _).
  rewrite Hin, Hou in *.
  exists st'. split; [exact Hrun|].
  assert (N = (length (audioInputDevices st) + length (audioOutputDevices st))%nat)
    as HN by (subst N devices; apply length_app).
  split; [|split; [|split]].
  - rewrite Htab, !registerTracks_lookup_out by lia. apply lookup_insert_eq.
  - intros i device Hi.
    destruct (allocation_lookup inputId outputId _ _ (objects st1)
                (<[1 := scene]> (outputSources st1)) i device Hi)
      as (id & name & selected & Hslot & Hsrc).
    exists (length (objects st1) + i)%nat, id, name, selected.
    rewrite Htab, Hobj. split; [exact Hslot|exact Hsrc].
  - intros k Hk. rewrite Htab, !registerTracks_lookup_out by lia.
    rewrite lookup_insert_ne by lia. apply Hnone. lia.
  - rewrite HN. apply Hrec. exact Hzero.
Qed.

(** In both revisions every device gets its slot and its mask. *)
Lemma slotsAssigned_both (scene : nat) (inputId outputId : string) (st : obs)
    (run : M obs unit) :
  is_Some (settingsStore st !! "Output") ->
  run = setupSources scene inputId outputId \/
  run = allocateTracks scene inputId outputId ->
  exists st',
    run st = (Normal tt, st') /\
    slotsAssigned (audioInputDevices st ++ audioOutputDevices st) st'.
Proof.
  intros Hout [-> | ->].
  - destruct (setupSources_spec scene inputId outputId st Hout)
      as (st' & Hrun & _ & Hslots & _).
    exists st'. split; [exact Hrun|]. intros i device Hi k.
    destruct (Hslots i device Hi) as (src & id & name & selected & Hslot & Hsrc).
    exists src, (audioSource id name selected device k). auto.
  - destruct (allocateTracks_spec scene inputId outputId st Hout)
      as (st' & Hrun & _ & Hobj & Htab & _).
    exists st'. split; [exact Hrun|]. intros i device Hi k.
    destruct (allocation_lookup inputId outputId _ _ (objects st)
                (<[1 := scene]> (outputSources st)) i device Hi)
      as (id & name & selected & Hslot & Hsrc).
    exists (length (objects st) + i)%nat, (audioSource id name selected device k).
    rewrite Htab, Hobj. auto.
Qed.

End TrackAllocation.

(** ** Claims on the audio track allocator *)

(** C2 (amended).  On an engine whose Output category has data, the
    audio source setup over N devices (inputs first, then outputs) returns
    normally in both revisions and registers the source of the device in
    enumeration position i on slot k = i + 2, with the mask computed by
    [1 | (1 << k-1)] in 32 bit arithmetic; for k up to 31 that mask is the
    mix bit together with bit k - 1, that is 1 + 2^(k-1).  After
    [setupSources] of the function based revision every recorded-tracks
    parameter holds the double nearest to 2^(N+1) - 1; the class based
    revision writes the same number unless the last recorded-tracks value is
    already loosely equal to it.  That number is 2^(N+1) - 1 itself for N up
    to 52.  With three devices the slots 2, 3 and 4 are taken, the slots 5
    to 63 are free and the recorded-tracks value is 15. *)
Theorem C2_track_allocation {rt : JSRuntime}
    (scene : nat) (inputId outputId : string) (st : obs) :
  is_Some (settingsStore st !! "Output") ->
  let devices := audioInputDevices st ++ audioOutputDevices st in
  let N := length devices in
  let value := toNumber (2 ^ Z.of_nat (N + 1) - 1) in
  (forall run : M obs unit,
      run = setupSources scene inputId outputId \/
      run = allocateTracks scene inputId outputId ->
      exists st', run st = (Normal tt, st') /\ slotsAssigned devices st') /\
  (forall k : Z,
      2 <= k <= 31 ->
      jsOr 1 (jsShl 1 (k - 1)) = Z.lor 1 (Z.shiftl 1 (k - 1)) /\
      jsOr 1 (jsShl 1 (k - 1)) = 1 + 2 ^ (k - 1)) /\
  (exists st',
      setupSources scene inputId outputId st = (Normal tt, st') /\
      Forall (fun v => v = VNumber value) (recTracks st') /\
      (N = 3%nat ->
       (forall k, 2 <= k <= 4 -> is_Some (outputSources st' !! k)) /\
       (forall k, 5 <= k < 64 -> outputSources st' !! k = None) /\
       Forall (fun v => v = VNumber (Num 15)) (recTracks st'))) /\
  (exists st',
      allocateTracks scene inputId outputId st = (Normal tt, st') /\
      (Forall (fun v => v = VNumber value) (recTracks st') \/
       recTracks st' = recTracks st /\
       looseEq (VNumber value) (List.last (recTracks st) VUndefined) = true)) /\
  ((N <= 52)%nat -> value = Num (2 ^ Z.of_nat (N + 1) - 1)).
Proof.
  intros Hout devices N value.
  assert (N = (length (audioInputDevices st) + length (audioOutputDevices st))%nat)
    as HN by (subst N devices; apply length_app).
  split; [|split; [|split; [|split]]].
  - intros run Hrun. apply (slotsAssigned_both scene inputId outputId st run Hout Hrun).
  - intros k Hk. split.
    + apply (trackMask_small k). lia.
    + apply (trackMask_exclusive k). lia.
  - destruct (setupSources_spec scene inputId outputId st Hout)
      as (st' & Hrun & Hscene & Hslots & Hfree & Hrec).
    exists st'. split; [exact Hrun|]. split; [exact Hrec|].
    intros H3. split; [|split].
    + intros k Hk.
      assert (exists i : nat, (i < N)%nat /\ k = 2 + Z.of_nat i) as (i & Hi & ->).
      { exists (Z.to_nat (k - 2)). lia. }
      destruct (lookup_lt_is_Some_2 devices i Hi) as [device Hdev].
      destruct (Hslots i device Hdev) as (src & _ & _ & _ & Hslot & _).
      eauto.
    + intros k Hk. apply Hfree. unfold N, devices in *. lia.
    + unfold N, devices in *. rewrite H3 in Hrec. exact Hrec.
  - destruct (allocateTracks_spec scene inputId outputId st Hout)
      as (st' & Hrun & _ & _ & _ & _ & _ & _ & Hrec).
    exists st'. split; [exact Hrun|].
    subst value. rewrite HN. exact Hrec.
  - intros H52. apply toNumber_exact.
    assert (0 < 2 ^ Z.of_nat (N + 1) <= 2 ^ 53) as Hpow.
    { split; [apply Z.pow_pos_nonneg; lia|apply Z.pow_le_mono_r; lia]. }
    lia.
Qed.

Lemma C2_track_allocation_witness :
  is_Some (settingsStore (exampleEngine (exampleDevices "mic" 2)
                                        (exampleDevices "speaker" 1)) !! "Output") /\
  exists st',
    @setupSources exampleRuntime 0%nat "all" "all"
      (exampleEngine (exampleDevices "mic" 2) (exampleDevices "speaker" 1))
    = (Normal tt, st') /\
    slotsAssigned (exampleDevices "mic" 2 ++ exampleDevices "speaker" 1) st' /\
    recTracks st' = [VNumber (Num 15)].
Proof.
  split.
  - vm_compute. eexists. reflexivity.
  - destruct (@C2_track_allocation exampleRuntime 0%nat "all" "all"
                (exampleEngine (exampleDevices "mic" 2) (exampleDevices "speaker" 1)))
      as (Hslots & _).
    + vm_compute. eexists. reflexivity.
    + destruct (Hslots _ (or_introl eq_refl)) as (st' & Hrun & Hassigned).
      exists st'. split; [exact Hrun|]. split; [exact Hassigned|].
      apply (f_equal snd) in Hrun. cbn [snd] in Hrun. rewrite <- Hrun.
      vm_compute. reflexivity.
Defined.

(** The claim as it stands fails for many devices.  With 32 input devices
    the last source sits on slot 33 and its mask is 1, the mix bit alone,
    not 1 + 2^32; with 53 devices the recorded-tracks value is 2^54, not
    2^54 - 1. *)
Lemma C2_track_allocation_counterexample :
  (let st' := snd (@setupSources exampleRuntime 0%nat "all" "all"
                     (exampleEngine (exampleDevices "mic" 32) [])) in
   exists (src : nat) (source : Source),
     outputSources st' !! 33 = Some src /\
     objects st' !! src = Some source /\
     device_id source = Some "mic-32" /\
     audioMixers source = Some 1 /\
     audioMixers source <> Some (Z.lor 1 (Z.shiftl 1 (33 - 1)))) /\
  (let st' := snd (@setupSources exampleRuntime 0%nat "all" "all"
                     (exampleEngine (exampleDevices "mic" 50)
                                    (exampleDevices "speaker" 3))) in
   recTracks st' = [VNumber (Num (2 ^ 54))] /\
   Num (2 ^ 54) <> Num (2 ^ (53 + 1) - 1)).
Proof.
  split.
  - eexists _, _. split; [vm_compute; reflexivity|].
    split; [vm_compute; reflexivity|].
    split; [vm_compute; reflexivity|].
    split; [vm_compute; reflexivity|].
    vm_compute. discriminate.
  - split; [vm_compute; reflexivity|]. vm_compute. discriminate.
Qed.

(** C10.  From slot 33 on the mask [1 | (1 << k-1)] is computed with the
    shift count taken modulo 32: it is the mask of the slot
    (k - 1) mod 32 + 1, which lies between 1 and 32, and as a 32 bit
    pattern it has no bit at position k - 1.  Slot 33 gets mask 1, the mix
    track alone.  In both revisions this is the mask stored in the source
    that the audio source setup registers on such a slot. *)
Theorem C10_mask_wraps_from_slot_33 :
  (forall k : Z,
      33 <= k ->
      jsShl 1 (k - 1) = ToInt32 (Z.shiftl 1 ((k - 1) mod 32)) /\
      jsOr 1 (jsShl 1 (k - 1)) = jsOr 1 (jsShl 1 ((k - 1) mod 32 + 1 - 1)) /\
      1 <= (k - 1) mod 32 + 1 <= 32 /\
      Z.testbit (ToUint32 (jsOr 1 (jsShl 1 (k - 1)))) (k - 1) = false) /\
  jsOr 1 (jsShl 1 (33 - 1)) = 1 /\
  (forall (rt : JSRuntime) (scene : nat) (inputId outputId : string) (st : obs)
          (run : M obs unit) (i : nat) (device : Device.t),
      is_Some (settingsStore st !! "Output") ->
      run = setupSources scene inputId outputId \/
      run = allocateTracks scene inputId outputId ->
      (audioInputDevices st ++ audioOutputDevices st) !! i = Some device ->
      33 <= 2 + Z.of_nat i ->
      exists (st' : obs) (src : nat) (source : Source) (mask : Z),
        run st = (Normal tt, st') /\
        outputSources st' !! (2 + Z.of_nat i) = Some src /\
        objects st' !! src = Some source /\
        device_id source = Some (Device.id device) /\
        audioMixers source = Some mask /\
        mask = jsOr 1 (jsShl 1 ((2 + Z.of_nat i - 1) mod 32 + 1 - 1)) /\
        Z.testbit (ToUint32 mask) (2 + Z.of_nat i - 1) = false).
Proof.
  split; [|split; [vm_compute; reflexivity|]].
  - intros k Hk. split; [|split; [|split]].
    + unfold jsShl. rewrite shiftCount_mod. reflexivity.
    + apply (trackMask_mod k).
    + pose proof (Z.mod_pos_bound (k - 1) 32). lia.
    + apply (trackMask_no_high_bit k). lia.
  - intros rt scene inputId outputId st run i device Hout Hrun Hi Hk.
    destruct (slotsAssigned_both scene inputId outputId st run Hout Hrun)
      as (st' & Hst' & Hslots).
    destruct (Hslots i device Hi) as (src & source & Hslot & Hsrc & Hid & Hmask).
    exists st', src, source, (jsOr 1 (jsShl 1 (2 + Z.of_nat i - 1))).
    split; [exact Hst'|]. split; [exact Hslot|]. split; [exact Hsrc|].
    split; [exact Hid|]. split; [exact Hmask|].
    split; [apply (trackMask_mod (2 + Z.of_nat i))|].
    apply (trackMask_no_high_bit (2 + Z.of_nat i)). lia.
Qed.

Lemma C10_mask_wraps_witness :
  (33 <= 40 /\
   is_Some (settingsStore (exampleEngine (exampleDevices "mic" 30)
                                         (exampleDevices "speaker" 10)) !! "Output") /\
   (exampleDevices "mic" 30 ++ exampleDevices "speaker" 10) !! 35%nat
   = Some {| Device.id := "speaker-6"; Device.name := "speaker 6" |} /\
   33 <= 2 + Z.of_nat 35) /\
  (jsShl 1 (40 - 1) = ToInt32 (Z.shiftl 1 ((40 - 1) mod 32)) /\
   jsOr 1 (jsShl 1 (40 - 1)) = jsOr 1 (jsShl 1 ((40 - 1) mod 32 + 1 - 1)) /\
   1 <= (40 - 1) mod 32 + 1 <= 32 /\
   Z.testbit (ToUint32 (jsOr 1 (jsShl 1 (40 - 1)))) (40 - 1) = false) /\
  exists (st' : obs) (src : nat) (source : Source) (mask : Z),
    @setupSources exampleRuntime 0%nat "all" "all"
      (exampleEngine (exampleDevices "mic" 30) (exampleDevices "speaker" 10))
    = (Normal tt, st') /\
    outputSources st' !! (2 + Z.of_nat 35) = Some src /\
    objects st' !! src = Some source /\
    device_id source = Some "speaker-6" /\
    audioMixers source = Some mask /\
    mask = jsOr 1 (jsShl 1 ((2 + Z.of_nat 35 - 1) mod 32 + 1 - 1)) /\
    Z.testbit (ToUint32 mask) (2 + Z.of_nat 35 - 1) = false.
Proof.
  split; [|split].
  - split; [lia|]. split; [vm_compute; eexists; reflexivity|].
    split; [vm_compute; reflexivity|lia].
  - apply (proj1 C10_mask_wraps_from_slot_33 40). lia.
  - apply (proj2 (proj2 C10_mask_wraps_from_slot_33) exampleRuntime 0%nat "all" "all"
             (exampleEngine (exampleDevices "mic" 30) (exampleDevices "speaker" 10))
             _ 35%nat {| Device.id := "speaker-6"; Device.name := "speaker 6" |}).
    + vm_compute. eexists. reflexivity.
    + left. reflexivity.
    + vm_compute. reflexivity.
    + lia.
Defined.

(** ** Claims on [clearSources] *)

(** C6.  [clearSources] visits the slots 1 to 63 only: on an engine whose
    Output category has data it returns normally, leaves every slot from 1
    to 63 empty and never touches slot 64.  So a source registered on slot
    64 survives every rebuild: after a setup with 63 input devices and a
    second setup with no device at all, slot 64 still holds the source of
    the 63rd device, and one audio source is registered where none is
    configured. *)
Theorem C6_clearSources_skips_slot_64 :
  (forall (rt : JSRuntime) (st : obs),
      is_Some (settingsStore st !! "Output") ->
      exists st',
        clearSources st = (Normal tt, st') /\
        (forall k, 1 <= k <= 63 -> outputSources st' !! k = None) /\
        outputSources st' !! 64 = outputSources st !! 64) /\
  (let st1 := snd (@setupSources exampleRuntime 0%nat "all" "all"
                     (exampleEngine (exampleDevices "mic" 63) [])) in
   let st2 := snd (@setupSources exampleRuntime 0%nat "all" "all"
                     (withDevices st1 [] [])) in
   audioInputDevices st2 ++ audioOutputDevices st2 = [] /\
   outputSources st2 !! 64 = outputSources st1 !! 64 /\
   (exists (src : nat) (source : Source),
       outputSources st2 !! 64 = Some src /\
       objects st2 !! src = Some source /\
       device_id source = Some "mic-63" /\
       removed source = false) /\
   registeredAudioSources st2 = 1%nat).
Proof.
  split.
  - intros rt st Hout.
    destruct (clearSources_spec st Hout) as (st' & Hrun & _ & Hnone & Hsame & _).
    exists st'. split; [exact Hrun|]. split.
    + intros k Hk. apply Hnone. lia.
    + apply Hsame. lia.
  - cbv zeta. split; [vm_compute; reflexivity|].
    split; [vm_compute; reflexivity|].
    split; [|vm_compute; reflexivity].
    eexists _, _. split; [vm_compute; reflexivity|].
    split; [vm_compute; reflexivity|].
    split; vm_compute; reflexivity.
Qed.

Lemma C6_clearSources_witness :
  is_Some (settingsStore (snd (@setupSources exampleRuntime 0%nat "all" "all"
                                 (exampleEngine (exampleDevices "mic" 63) [])))
           !! "Output") /\
  exists st',
    @clearSources exampleRuntime
      (snd (@setupSources exampleRuntime 0%nat "all" "all"
              (exampleEngine (exampleDevices "mic" 63) [])))
    = (Normal tt, st') /\
    (forall k, 1 <= k <= 63 -> outputSources st' !! k = None) /\
    outputSources st' !! 64
    = outputSources (snd (@setupSources exampleRuntime 0%nat "all" "all"
                            (exampleEngine (exampleDevices "mic" 63) []))) !! 64.
Proof.
  split.
  - vm_compute. eexists. reflexivity.
  - apply (proj1 C6_clearSources_skips_slot_64 exampleRuntime).
    vm_compute. eexists. reflexivity.
Defined.

(** ** Claims on the settings bridge *)

(** C7.  When the category has data and no subcategory holds a parameter
    of the given name, [setSetting] raises nothing and changes no
    parameter, but unless the value is [null] or [undefined] it does call
    the save operation, with the tree as it was read.  (On a category
    without data it throws a TypeError.)  For instance, naming a seventh
    track on an engine with six tracks saves the Output category once. *)
Theorem C7_missing_parameter_is_saved :
  (forall (rt : JSRuntime) (category parameter : string) (value : jsval) (st : obs)
          (settings : settingsTree),
      settingsStore st !! category = Some settings ->
      paramOccurs parameter settings = false ->
      setSetting category parameter value st
      = (if isNullish value then (Normal tt, st)
         else OBS_settings_saveSettings category settings st) /\
      (isNullish value = false ->
       savedSettings (snd (setSetting category parameter value st))
       = (category, settings) :: savedSettings st)) /\
  (forall (rt : JSRuntime) (category parameter : string) (value : jsval) (st : obs),
      settingsStore st !! category = None ->
      exists message, setSetting category parameter value st
                      = (Throw (TypeError message), st)) /\
  (paramOccurs "Track7Name" exampleOutput = false /\
   fst (@setSetting exampleRuntime "Output" "Track7Name" (VString "Microphone")
          (exampleEngine [] [])) = Normal tt /\
   savedSettings (snd (@setSetting exampleRuntime "Output" "Track7Name"
                         (VString "Microphone") (exampleEngine [] [])))
   = [("Output", exampleOutput)]).
Proof.
  split; [|split].
  - intros rt category parameter value st settings Hcat Habsent.
    assert (setSetting category parameter value st
            = (if isNullish value then (Normal tt, st)
               else OBS_settings_saveSettings category settings st)) as Hrun.
    { unfold setSetting. rewrite Hcat.
      rewrite (forEachSubCategory_absent _ _ _ _ Habsent).
      rewrite looseEq_undefined. destruct (isNullish value); reflexivity. }
    split; [exact Hrun|].
    intros Hvalue. rewrite Hrun, Hvalue. reflexivity.
  - intros rt category parameter value st Hcat.
    unfold setSetting. rewrite Hcat. eauto.
  - repeat split; vm_compute; reflexivity.
Qed.

Lemma C7_missing_parameter_witness :
  (settingsStore (exampleEngine [] []) !! "Output" = Some exampleOutput /\
   paramOccurs "Track7Name" exampleOutput = false) /\
  @setSetting exampleRuntime "Output" "Track7Name" (VString "Microphone")
    (exampleEngine [] [])
  = (if isNullish (VString "Microphone") then (Normal tt, exampleEngine [] [])
     else OBS_settings_saveSettings "Output" exampleOutput (exampleEngine [] [])) /\
  (isNullish (VString "Microphone") = false ->
   savedSettings (snd (@setSetting exampleRuntime "Output" "Track7Name"
                         (VString "Microphone") (exampleEngine [] [])))
   = ("Output", exampleOutput) :: savedSettings (exampleEngine [] [])).
Proof.
  split.
  - split; vm_compute; reflexivity.
  - apply (proj1 C7_missing_parameter_is_saved exampleRuntime "Output" "Track7Name"
             (VString "Microphone") (exampleEngine [] []) exampleOutput);
      vm_compute; reflexivity.
Defined.

(** C8.  [getAvailableValues] of the function based revision never
    throws.  When the category has no data, when no subcategory has the
    given name, or when the first subcategory of that name has no parameter
    of the given name, it returns [undefined], which is not the empty
    array; when the lookups succeed it returns the first property value of
    every entry of the parameter's [values], in order.  The class with
    static helpers returns the same array on a hit and the empty array on
    every miss. *)
Theorem C8_missing_entry_yields_undefined :
  (forall (category subcategory parameter : string) (st : obs),
      settingsStore st !! category = None ->
      getAvailableValues category subcategory parameter st = None) /\
  (forall (category subcategory parameter : string) (st : obs)
          (settings : settingsTree),
      settingsStore st !! category = Some settings ->
      Forall (fun sub => Setting.nameSubCategory sub <> subcategory) settings ->
      getAvailableValues category subcategory parameter st = None) /\
  (forall (category subcategory parameter : string) (st : obs)
          (settings : settingsTree) (sub : Setting.subCategory),
      settingsStore st !! category = Some settings ->
      find (fun sub => String.eqb (Setting.nameSubCategory sub) subcategory) settings
      = Some sub ->
      Forall (fun param => Setting.name param <> parameter) (Setting.parameters sub) ->
      getAvailableValues category subcategory parameter st = None) /\
  (forall (category subcategory parameter : string) (st : obs)
          (settings : settingsTree) (sub : Setting.subCategory)
          (param : Setting.param),
      settingsStore st !! category = Some settings ->
      find (fun sub => String.eqb (Setting.nameSubCategory sub) subcategory) settings
      = Some sub ->
      find (fun param => String.eqb (Setting.name param) parameter)
           (Setting.parameters sub) = Some param ->
      getAvailableValues category subcategory parameter st
      = Some (map firstValue (Setting.values param))) /\
  (forall (category subcategory parameter : string) (st : obs),
      ObsRecorder_getAvailableValues category subcategory parameter st
      = default [] (getAvailableValues category subcategory parameter st)) /\
  (getAvailableValues "Video" "Untitled" "Scale" (exampleEngine [] []) = None /\
   getAvailableValues "Video" "Untitled" "Scale" (exampleEngine [] []) <> Some [] /\
   getAvailableValues "Video" "Untitled" "Base" (exampleEngine [] [])
   = Some [VString "1280x720"; VString "1920x1080"; VString "2560x1440"]).
Proof.
  assert (forall (A : Type) (f : A -> string) (x : string) (l : list A),
             Forall (fun a => f a <> x) l ->
             find (fun a => String.eqb (f a) x) l = None) as Hfind.
  { intros A f x l Hall. induction Hall as [|a l Ha _ IH]; [reflexivity|].
    cbn [find]. destruct (String.eqb_spec (f a) x); [contradiction|exact IH]. }
  split; [|split; [|split; [|split; [|split]]]].
  - intros category subcategory parameter st Hcat.
    unfold getAvailableValues. rewrite Hcat. reflexivity.
  - intros category subcategory parameter st settings Hcat Hsub.
    unfold getAvailableValues. rewrite Hcat.
    rewrite (Hfind _ Setting.nameSubCategory subcategory settings Hsub). reflexivity.
  - intros category subcategory parameter st settings sub Hcat Hsub Hparam.
    unfold getAvailableValues. rewrite Hcat, Hsub.
    rewrite (Hfind _ Setting.name parameter _ Hparam). reflexivity.
  - intros category subcategory parameter st settings sub param Hcat Hsub Hparam.
    unfold getAvailableValues. rewrite Hcat, Hsub, Hparam. reflexivity.
  - intros category subcategory parameter st.
    unfold ObsRecorder_getAvailableValues, getAvailableValues.
    destruct (settingsStore st !! category) as [settings|]; [|reflexivity].
    destruct (find _ settings) as [sub|]; [|reflexivity].
    destruct (find _ (Setting.parameters sub)); reflexivity.
  - split; [vm_compute; reflexivity|].
    split; [vm_compute; discriminate|vm_compute; reflexivity].
Qed.

Lemma C8_missing_entry_witness :
  (settingsStore (exampleEngine [] []) !! "Video" = Some exampleVideo /\
   Forall (fun sub => Setting.nameSubCategory sub <> "Advanced") exampleVideo) /\
  getAvailableValues "Video" "Advanced" "Base" (exampleEngine [] []) = None.
Proof.
  split.
  - split; [vm_compute; reflexivity|].
    repeat constructor. cbn. discriminate.
  - apply (proj1 (proj2 C8_missing_entry_yields_undefined) "Video" "Advanced" "Base"
             (exampleEngine [] []) exampleVideo).
    + vm_compute. reflexivity.
    + repeat constructor. cbn. discriminate.
Defined.

(** ** Claim on the empty candidate list *)

(** C5.  For the empty list of candidates [getClosestResolution] returns
    [undefined] whatever the target: nothing is thrown.
    [setOBSVideoResolution] then goes on and writes that [undefined] to the
    setting; on the example engine, whose Output parameter offers no
    resolution, the call returns normally and leaves the parameter
    [undefined]. *)
Theorem C5_empty_candidates_yield_undefined :
  (forall target : Size, getClosestResolution [] target = None) /\
  (forall (rt : JSRuntime) (res : Size) (paramString : string) (st : obs),
      getAvailableValues "Video" "Untitled" paramString st = Some [] ->
      exists st',
        setOBSVideoResolution res paramString st = (Normal tt, st') /\
        setOBSVideoResolution res paramString st
        = setSetting "Video" paramString VUndefined st) /\
  (getAvailableValues "Video" "Untitled" "Output" (exampleEngine [] []) = Some [] /\
   fst (@setOBSVideoResolution exampleRuntime
          {| width := Num 1920; height := Num 1080 |} "Output"
          (exampleEngine [] [])) = Normal tt /\
   paramValues "Output"
     (treeOf (settingsStore
                (snd (@setOBSVideoResolution exampleRuntime
                        {| width := Num 1920; height := Num 1080 |} "Output"
                        (exampleEngine [] [])))) "Video")
   = [VUndefined]).
Proof.
  split; [|split].
  - intros target. reflexivity.
  - intros rt res paramString st Hvalues.
    assert (setOBSVideoResolution res paramString st
            = setSetting "Video" paramString VUndefined st) as Hrun.
    { unfold setOBSVideoResolution. rewrite Hvalues. reflexivity. }
    rewrite Hrun.
    assert (is_Some (settingsStore st !! "Video")) as Hcat.
    { unfold getAvailableValues in Hvalues.
      destruct (settingsStore st !! "Video"); [eauto|discriminate]. }
    destruct (setSetting_frame "Video" paramString VUndefined st Hcat)
      as (store & saved & Hset & _).
    rewrite Hset. eauto.
  - repeat split; vm_compute; reflexivity.
Qed.

Lemma C5_empty_candidates_witness :
  getAvailableValues "Video" "Untitled" "Output" (exampleEngine [] []) = Some [] /\
  exists st',
    @setOBSVideoResolution exampleRuntime {| width := Num 1920; height := Num 1080 |}
      "Output" (exampleEngine [] []) = (Normal tt, st') /\
    @setOBSVideoResolution exampleRuntime {| width := Num 1920; height := Num 1080 |}
      "Output" (exampleEngine [] [])
    = @setSetting exampleRuntime "Video" "Output" VUndefined (exampleEngine [] []).
Proof.
  split.
  - vm_compute. reflexivity.
  - apply (proj1 (proj2 C5_empty_candidates_yield_undefined) exampleRuntime).
    vm_compute. reflexivity.
Defined.

(** ** The signal protocol *)

Section SignalProtocol.
Context {rt : JSRuntime}.

Lemma bind_normal_inv {S A B : Type} (m : M S A) (k : A -> M S B)
    (st st' : S) (b : B) :
  bind m k st = (Normal b, st') <->
  exists a st1, m st = (Normal a, st1) /\ k a st1 = (Normal b, st').
Proof.
  unfold bind. split.
  - destruct (m st) as [[a|e] st1]; [eauto|discriminate].
  - intros (a & st1 & -> & Hk). exact Hk.
Qed.

(** [assertNextSignal] succeeds exactly when the next item of the queue is
    the expected recording signal and beats the timer. *)
Lemma assertNextSignal_normal (value : string) (st st' : recorder) :
  assertNextSignal value st = (Normal tt, st') <->
  exists (pushed : Z) (rest : list (Z * signalInfo)),
    waitQueue st = (pushed, recordingSignal value) :: rest /\
    beatsTimer (now st) pushed = true /\
    st' = withQueue st (Z.max (now st) pushed) rest.
Proof.
  unfold assertNextSignal, bind, raceShift, throw, ret, recordingSignal. split.
  - destruct (waitQueue st) as [|[pushed info] rest]; [discriminate|].
    destruct (beatsTimer (now st) pushed) eqn:Hrace; [|discriminate].
    destruct (String.eqb_spec (type info) "recording") as [Htype|_];
      [|discriminate].
    destruct (String.eqb_spec (signal info) value) as [Hsignal|_];
      [|discriminate].
    cbn [negb]. intros H. injection H as <-.
    exists pushed, rest. destruct info as [ty sg]. cbn in Htype, Hsignal.
    subst ty sg. auto.
  - intros (pushed & rest & -> & -> & ->).
    cbn [type signal]. rewrite !String.eqb_refl. reflexivity.
Qed.

(** Every way in which [assertNextSignal] fails, with its error. *)
Lemma assertNextSignal_throws (value : string) (st : recorder) :
  match waitQueue st with
  | [] =>
      fst (assertNextSignal value st)
      = Throw (Rejection ("OBS didn't signal " +:+ value +:+ " in time"))
  | (pushed, info) :: _ =>
      if negb (beatsTimer (now st) pushed)
      then fst (assertNextSignal value st)
           = Throw (Rejection ("OBS didn't signal " +:+ value +:+ " in time"))
      else if negb (String.eqb (type info) "recording")
      then fst (assertNextSignal value st) = Throw (Error "OBS behaved unexpectedly (2)")
      else if negb (String.eqb (signal info) value)
      then fst (assertNextSignal value st) = Throw (Error "OBS behaved unexpectedly (3)")
      else fst (assertNextSignal value st) = Normal tt
  end.
Proof.
  unfold assertNextSignal, bind, raceShift, throw, ret.
  destruct (waitQueue st) as [|[pushed info] rest]; [reflexivity|].
  destruct (beatsTimer (now st) pushed); cbn [negb]; [|reflexivity].
  destruct (String.eqb (type info) "recording"); cbn [negb]; [|reflexivity].
  destruct (String.eqb (signal info) value); reflexivity.
Qed.

End SignalProtocol.




(** C4.  In the function based revision [start] throws "OBS not
    initialised" and issues nothing when the flag is unset; otherwise it
    issues the start command and succeeds exactly when the next item of the
    queue is the recording signal start and beats the timer, and throws in
    every other case.  In the class based revision the call of
    [assertNextSignal] is not awaited: once initialised, [ObsRecorder.start]
    always returns normally; with no signal at all it reports success and
    the timeout surfaces as an unhandled rejection. *)
Theorem C4_start_awaits_only_in_one_revision :
  forall (rt : JSRuntime) (st : recorder),
    (obsInitialized st = false ->
     start st = (Throw (Error "OBS not initialised"), st) /\
     ObsRecorder_start st = (Throw (Error "OBS not initialised"), st)) /\
    (obsInitialized st = true ->
     commands (snd (start st)) = OBS_service_startRecording :: commands st /\
     ((exists st', start st = (Normal tt, st')) <->
      (exists (pushed : Z) (rest : list (Z * signalInfo)),
          waitQueue st = (pushed, recordingSignal "start") :: rest /\
          beatsTimer (now st) pushed = true)) /\
     ((forall st', start st <> (Normal tt, st')) -> exists e, fst (start st) = Throw e)) /\
    (obsInitialized st = true ->
     fst (ObsRecorder_start st) = Normal tt /\
     now (snd (ObsRecorder_start st)) = now st /\
     (waitQueue st = [] ->
      unhandledRejections (snd (ObsRecorder_start st))
      = Rejection "OBS didn't signal start in time" :: unhandledRejections st)).
Proof.
  intros rt st. split; [|split].
  - intros Hinit. unfold start, ObsRecorder_start. rewrite Hinit. auto.
  - intros Hinit. unfold start. rewrite Hinit. cbn [negb].
    split; [|split].
    + unfold bind, issue, assertNextSignal, bind, raceShift, throw, ret.
      cbn [waitQueue now obsInitialized commands unhandledRejections].
      repeat match goal with
             | |- context [match ?l with [] => _ | _ :: _ => _ end] =>
                 destruct l as [|[? ?] ?]; cbn
             | |- context [if ?b then _ else _] => destruct b; cbn
             end; reflexivity.
    + split.
      * intros (st' & Hrun).
        apply bind_normal_inv in Hrun as ([] & st0 & Hissue & Hrun).
        injection Hissue as <-.
        apply assertNextSignal_normal in Hrun as (pushed & rest & Hq & Hb & _).
        exists pushed, rest. auto.
      * intros (pushed & rest & Hq & Hb). eexists.
        apply bind_normal_inv. eexists tt, _. split; [reflexivity|].
        apply assertNextSignal_normal. eexists _, _.
        cbn [waitQueue now]. split; [exact Hq|]. split; [exact Hb|reflexivity].
    + intros Hnot.
      destruct ((issue OBS_service_startRecording;; assertNextSignal "start") st)
        as [[[]|e] st'] eqn:Hrun.
      * exfalso. apply (Hnot st'). reflexivity.
      * exists e. reflexivity.
  - intros Hinit. unfold ObsRecorder_start. rewrite Hinit. cbn [negb].
    unfold bind, issue, notAwaited.
    destruct (assertNextSignal ObsSignal_Start _) as [[[]|e] st'] eqn:Hrun;
      cbn [fst snd now].
    + split; [reflexivity|]. split; [reflexivity|].
      intros Hempty. exfalso.
      apply assertNextSignal_normal in Hrun as (pushed & rest & Hq & _).
      cbn [waitQueue] in Hq. congruence.
    + split; [reflexivity|]. split; [reflexivity|].
      intros Hempty. cbn [unhandledRejections].
      unfold assertNextSignal, bind, raceShift in Hrun.
      cbn [waitQueue] in Hrun. rewrite Hempty in Hrun.
      injection Hrun as <- <-. reflexivity.
Qed.

Lemma C4_start_witness :
  (obsInitialized (exampleRecorder []) = true /\
   waitQueue (exampleRecorder []) = []) /\
  fst (@ObsRecorder_start exampleRuntime (exampleRecorder [])) = Normal tt /\
  now (snd (@ObsRecorder_start exampleRuntime (exampleRecorder [])))
  = now (exampleRecorder []) /\
  unhandledRejections (snd (@ObsRecorder_start exampleRuntime (exampleRecorder [])))
  = [Rejection "OBS didn't signal start in time"] /\
  fst (@start exampleRuntime (exampleRecorder []))
  = Throw (Rejection "OBS didn't signal start in time").
Proof.
  split; [split; reflexivity|].
  destruct (proj2 (proj2 (C4_start_awaits_only_in_one_revision exampleRuntime
                            (exampleRecorder []))) eq_refl)
    as (Hfst & Hnow & Hrej).
  split; [exact Hfst|]. split; [exact Hnow|].
  split; [exact (Hrej eq_refl)|].
  vm_compute. reflexivity.
Defined.

(* ===================================================================== *)
(** * Part II, continued: further properties *)
(* ===================================================================== *)

(** ** Writing and reading a resolution *)

Lemma pretty_N_char_decimal (n : N) :
  (n < 10)%N ->
  digitValue (pretty_N_char n) = Some (Z.of_N n) /\
  decimalChar (pretty_N_char n) = true /\
  Ascii.eqb (pretty_N_char n) "x" = false.
Proof.
  intros Hn. rewrite <- (N2Nat.id n).
  assert (N.to_nat n < 10)%nat as Hk by lia.
  set (k := N.to_nat n) in *. clearbody k.
  do 10 (destruct k as [|k]; [repeat split; reflexivity|]). lia.
Qed.

(** The digits that [pretty] puts in front of [s] are read back by
    [parseDigits]. *)
Lemma parseDigits_pretty_go (x : N) :
  forall s : string,
    (0 < x)%N ->
    parseDigits 10 (pretty_N_go x s) None = parseDigits 10 s (Some (Z.of_N x)).
Proof.
  induction (N.lt_wf_0 x) as [x _ IH]. intros s Hx.
  rewrite pretty_N_go_step by exact Hx.
  pose proof (N.mod_lt x 10 ltac:(lia)) as Hmod.
  pose proof (N.div_mod x 10 ltac:(lia)) as Hdiv.
  destruct (pretty_N_char_decimal (x mod 10)%N Hmod) as (Hd & _ & _).
  destruct (N.eq_dec (x / 10)%N 0%N) as [Hz|Hnz].
  - rewrite Hz, pretty_N_go_0. cbn [parseDigits]. rewrite Hd.
    destruct (Z.ltb_spec (Z.of_N (x mod 10)%N) 10) as [_|Hge]; [|lia].
    f_equal. f_equal. lia.
  - rewrite IH; [|apply N.div_lt; lia|lia].
    cbn [parseDigits]. rewrite Hd.
    destruct (Z.ltb_spec (Z.of_N (x mod 10)%N) 10) as [_|Hge]; [|lia].
    f_equal. f_equal. lia.
Qed.

Lemma pretty_go_head (x : N) :
  forall s : string,
    (0 < x)%N ->
    exists c t, pretty_N_go x s = String c t /\ decimalChar c = true.
Proof.
  induction (N.lt_wf_0 x) as [x _ IH]. intros s Hx.
  rewrite pretty_N_go_step by exact Hx.
  destruct (N.eq_dec (x / 10)%N 0%N) as [Hz|Hnz].
  - rewrite Hz, pretty_N_go_0. eexists _, _. split; [reflexivity|].
    apply pretty_N_char_decimal, N.mod_lt. lia.
  - apply IH; [apply N.div_lt; lia|apply N.neq_0_lt_0, Hnz].
Qed.

Lemma pretty_go_freeOf (x : N) :
  forall s : string, freeOf "x" (pretty_N_go x s) = freeOf "x" s.
Proof.
  induction (N.lt_wf_0 x) as [x _ IH]. intros s.
  destruct (N.eq_dec x 0%N) as [->|Hx]; [reflexivity|].
  rewrite pretty_N_go_step by lia. rewrite IH by (apply N.div_lt; lia).
  cbn [freeOf].
  destruct (pretty_N_char_decimal (x mod 10)%N) as (_ & _ & ->);
    [apply N.mod_lt; lia|reflexivity].
Qed.

Lemma pretty_Zpos (p : positive) :
  pretty (Z.pos p) = pretty_N_go (N.pos p) EmptyString.
Proof.
  unfold pretty, pretty_Z, pretty, pretty_positive, pretty, pretty_N.
  destruct (decide (N.pos p = 0%N)); [discriminate|reflexivity].
Qed.

Lemma pretty_Zneg (p : positive) :
  pretty (Z.neg p) = String "-" (pretty_N_go (N.pos p) EmptyString).
Proof.
  unfold pretty, pretty_Z, pretty, pretty_positive, pretty, pretty_N.
  destruct (decide (N.pos p = 0%N)); [discriminate|reflexivity].
Qed.

Lemma pretty_Z_freeOf (z : Z) : freeOf "x" (pretty z) = true.
Proof.
  destruct z as [|p|p]; [reflexivity| |].
  - rewrite pretty_Zpos. apply pretty_go_freeOf.
  - rewrite pretty_Zneg. cbn [freeOf]. rewrite pretty_go_freeOf. reflexivity.
Qed.

Lemma decimalChar_not_space (c : ascii) :
  decimalChar c = true ->
  isStrWhiteSpaceChar c = false /\ c <> "-"%char /\ c <> "+"%char.
Proof.
  unfold decimalChar, digitValue, isStrWhiteSpaceChar.
  intros H. repeat split.
  - destruct ((9 <=? Z.of_nat (nat_of_ascii c)) &&
              (Z.of_nat (nat_of_ascii c) <=? 13) ||
              (Z.of_nat (nat_of_ascii c) =? 32)) eqn:Hws; [|reflexivity].
    exfalso.
    repeat match type of H with
           | context [if ?b then _ else _] => destruct b eqn:?
           end; try discriminate; lia.
  - intros ->. discriminate H.
  - intros ->. discriminate H.
Qed.

Lemma decimalChar_one_byte (c : ascii) :
  decimalChar c = true -> Z.of_nat (nat_of_ascii c) < 128.
Proof.
  unfold decimalChar, digitValue. intros H.
  repeat match type of H with
         | context [if ?b then _ else _] => destruct b eqn:?
         end; try discriminate; lia.
Qed.

(** [parseInt] reads back the decimal numeral of an integer, up to the
    rounding of the Number type. *)
Lemma parseInt_pretty (z : Z) : parseInt (pretty z) 10 = toNumber z.
Proof.
  destruct z as [|p|p]; [reflexivity| |].
  - rewrite pretty_Zpos.
    destruct (pretty_go_head (N.pos p) EmptyString ltac:(lia))
      as (c & t & Hct & Hc).
    destruct (decimalChar_not_space c Hc) as (Hws & Hminus & Hplus).
    pose proof (parseDigits_pretty_go (N.pos p) EmptyString ltac:(lia)) as Hp.
    unfold parseInt. rewrite Hct in *.
    rewrite (trimStart_head c t Hws (decimalChar_one_byte c Hc)).
    assert ((match String c t with
             | String "-" rest => (-1, rest)
             | String "+" rest => (1, rest)
             | _ => (1, String c t)
             end) = (1, String c t)) as ->.
    { destruct c as [[] [] [] [] [] [] [] []]; try reflexivity;
        congruence. }
    change ((10 =? 0) || (2 <=? 10) && (10 <=? 36)) with true.
    change ((10 =? 0) || (10 =? 16)) with false.
    cbn [andb Z.eqb]. cbv iota.
    rewrite Hp. cbn [parseDigits]. f_equal.
  - rewrite pretty_Zneg.
    pose proof (parseDigits_pretty_go (N.pos p) EmptyString ltac:(lia)) as Hp.
    unfold parseInt. rewrite trimStart_head by (vm_compute; reflexivity).
    change ((10 =? 0) || (2 <=? 10) && (10 <=? 36)) with true.
    change ((10 =? 0) || (10 =? 16)) with false.
    cbn [andb Z.eqb]. cbv iota.
    rewrite Hp. cbn [parseDigits]. f_equal.
Qed.

Lemma split_freeOf (separator : ascii) (s : string) :
  freeOf separator s = true -> split separator s = [s].
Proof.
  induction s as [|c s IH]; [reflexivity|].
  cbn [freeOf split]. intros [Hc Hs]%andb_prop.
  apply negb_true_iff in Hc. rewrite Hc, (IH Hs). reflexivity.
Qed.

Lemma split_append (separator : ascii) (a b : string) :
  freeOf separator a = true ->
  split separator (a +:+ String separator b) = a :: split separator b.
Proof.
  induction a as [|c a IH]; intros Ha.
  - change (EmptyString +:+ String separator b) with (String separator b).
    cbn [split]. rewrite Ascii.eqb_refl. reflexivity.
  - cbn [freeOf] in Ha. apply andb_prop in Ha as [Hc Ha].
    apply negb_true_iff in Hc.
    change (String c a +:+ String separator b)
      with (String c (a +:+ String separator b)).
    cbn [split]. rewrite Hc, (IH Ha). reflexivity.
Qed.

Lemma numericResolution_resolutionString (w h : Z) :
  numericResolution (resolutionString w h) = [toNumber w; toNumber h].
Proof.
  unfold numericResolution, resolutionString.
  change ("x" +:+ pretty h) with (String "x" (pretty h)).
  rewrite split_append by apply pretty_Z_freeOf.
  rewrite split_freeOf by apply pretty_Z_freeOf.
  cbn [map]. rewrite !parseInt_pretty. reflexivity.
Qed.

(** X1.  The text made of the decimal numeral of [w], the letter x and the
    decimal numeral of [h] is read by [parseResolutionsString] as the size
    whose width is the Number value of [w] and whose height is that of
    [h], for all integers (negative ones and those beyond 2^53, which are
    rounded, included). *)
Theorem X1_parseResolutionsString_reads_numerals (w h : Z) :
  parseResolutionsString (resolutionString w h)
  = {| width := toNumber w; height := toNumber h |}.
Proof.
  unfold parseResolutionsString.
  rewrite numericResolution_resolutionString. reflexivity.
Qed.

(** ** When the resolution matcher has no answer *)

Lemma numStrictEq_eq (a b : number) : numStrictEq a b = true -> a = b /\ a <> NaN.
Proof.
  destruct a, b; cbn; try discriminate; intros H; split; try congruence.
  apply Z.eqb_eq in H. congruence.
Qed.

Lemma numStrictEq_refl (a : number) : a <> NaN -> numStrictEq a a = true.
Proof. destruct a; cbn; try congruence. intros _. apply Z.eqb_refl. Qed.

Lemma min2_not_NaN (acc v : number) : acc <> NaN -> v <> NaN -> min2 acc v <> NaN.
Proof.
  destruct acc, v; try congruence; intros _ _; unfold min2;
    match goal with |- context [if ?b then _ else _] => destruct b end;
    discriminate.
Qed.

Lemma min2_choice (acc v : number) : min2 acc v = acc \/ min2 acc v = v.
Proof.
  destruct acc, v; unfold min2; auto;
    match goal with |- context [if ?b then _ else _] => destruct b end; auto.
Qed.

Lemma fold_min2_NaN_acc (l : list number) : fold_left min2 l NaN = NaN.
Proof. induction l as [|v l IH]; [reflexivity|exact IH]. Qed.

(** One NaN argument makes [Math.min] NaN. *)
Lemma fold_min2_NaN (l : list number) (acc : number) :
  In NaN l -> fold_left min2 l acc = NaN.
Proof.
  revert acc. induction l as [|v l IH]; intros acc Hin; [destruct Hin|].
  cbn [fold_left]. destruct Hin as [->|Hin]; [|apply IH, Hin].
  replace (min2 acc NaN) with NaN by (destruct acc; reflexivity).
  apply fold_min2_NaN_acc.
Qed.

Lemma fold_min2_in (l : list number) (acc : number) :
  acc <> NaN -> ~ In NaN l ->
  fold_left min2 l acc <> NaN /\
  (fold_left min2 l acc = acc \/ In (fold_left min2 l acc) l).
Proof.
  revert acc. induction l as [|v l IH]; intros acc Hacc Hl; [auto|].
  cbn [fold_left].
  assert (v <> NaN) as Hv by (intros ->; apply Hl; left; reflexivity).
  destruct (IH (min2 acc v)) as [Hn Hc].
  { apply min2_not_NaN; assumption. }
  { intros H; apply Hl; right; exact H. }
  split; [exact Hn|].
  destruct Hc as [Hc|Hc]; [|right; right; exact Hc].
  rewrite Hc. destruct (min2_choice acc v) as [->| ->];
    [left; reflexivity|right; left; reflexivity].
Qed.

(** [Math.min] of a non-empty array without NaN is one of its elements. *)
Lemma Math_min_in (l : list number) :
  l <> [] -> ~ In NaN l -> Math_min l <> NaN /\ In (Math_min l) l.
Proof.
  destruct l as [|v l]; [congruence|]. intros _ Hl.
  assert (v <> NaN) as Hv by (intros ->; apply Hl; left; reflexivity).
  unfold Math_min. cbn [fold_left].
  replace (min2 PInf v) with v by (destruct v; try reflexivity; congruence).
  destruct (fold_min2_in l v Hv) as [Hn Hc].
  { intros H; apply Hl; right; exact H. }
  split; [exact Hn|]. destruct Hc as [->|Hc]; [left; reflexivity|right; exact Hc].
Qed.

(** No element is below [Math.min]. *)
Lemma fold_min2_least (l : list number) (acc y : number) :
  acc <> NaN -> ~ In NaN l ->
  jsLt y acc = false \/ In y l ->
  jsLt y (fold_left min2 l acc) = false.
Proof.
  revert acc. induction l as [|v l IH]; intros acc Hacc Hl Hy.
  - destruct Hy as [Hy|[]]. exact Hy.
  - cbn [fold_left].
    assert (v <> NaN) as Hv by (intros ->; apply Hl; left; reflexivity).
    apply IH.
    + apply min2_not_NaN; assumption.
    + intros H; apply Hl; right; exact H.
    + destruct Hy as [Hy|[->|Hy]]; [left|left|right; exact Hy].
      * destruct y, acc, v; cbn in *; try congruence;
          repeat match goal with
                 | |- context [if ?b then _ else _] => destruct b eqn:?
                 end; cbn; try congruence; lia.
      * destruct acc, y; cbn in *; try congruence;
          repeat match goal with
                 | |- context [if ?b then _ else _] => destruct b eqn:?
                 end; cbn; try congruence; lia.
Qed.

Lemma indexOfFrom_NaN (l : list number) (k : Z) : indexOfFrom l NaN k = -1.
Proof.
  revert k. induction l as [|y l IH]; intros k; [reflexivity|].
  cbn [indexOfFrom].
  replace (numStrictEq y NaN) with false by (destruct y; reflexivity).
  apply IH.
Qed.

Lemma indexOfFrom_found (l : list number) (x : number) :
  forall k : Z,
    x <> NaN -> In x l ->
    exists i : nat,
      indexOfFrom l x k = k + Z.of_nat i /\ l !! i = Some x.
Proof.
  induction l as [|y l IH]; intros k Hx Hin; [destruct Hin|].
  cbn [indexOfFrom]. destruct (numStrictEq y x) eqn:Heq.
  - apply numStrictEq_eq in Heq as [-> _].
    exists 0%nat. split; [lia|reflexivity].
  - destruct Hin as [->|Hin].
    + rewrite numStrictEq_refl in Heq by exact Hx. discriminate.
    + destruct (IH (k + 1) Hx Hin) as (i & Hi & Hl).
      exists (S i). split; [lia|exact Hl].
Qed.

Lemma indexOfFrom_missing (l : list number) (x : number) :
  forall k : Z, ~ In x l -> indexOfFrom l x k = -1.
Proof.
  induction l as [|y l IH]; intros k Hin; [reflexivity|].
  cbn [indexOfFrom]. destruct (numStrictEq y x) eqn:Heq.
  - apply numStrictEq_eq in Heq as [-> _]. exfalso. apply Hin. left. reflexivity.
  - apply IH. intros H. apply Hin. right. exact H.
Qed.

Lemma number_eq_dec (a b : number) : {a = b} + {a <> b}.
Proof. decide equality. apply Z.eq_dec. Qed.

(** What [getClosestResolution] returns, read off its index array. *)
Lemma getClosestResolution_cases (resolutions : list string) (target : Size) :
  let indexArray := map (indexValue target) (map numericResolution resolutions) in
  (resolutions = [] /\ getClosestResolution resolutions target = None) \/
  (In NaN indexArray /\ getClosestResolution resolutions target = None) \/
  (~ In NaN indexArray /\
   exists (i : nat) (r : string),
     getClosestResolution resolutions target = Some r /\
     resolutions !! i = Some r /\
     indexValue target (numericResolution r) = Math_min indexArray).
Proof.
  intros indexArray.
  assert (resolutions = [] \/ resolutions <> []) as [->|Hres]
    by (destruct resolutions; [left|right]; congruence);
    [left; split; reflexivity|right].
  destruct (in_dec number_eq_dec NaN indexArray) as [Hnan|Hok]; [left|right].
  - split; [exact Hnan|].
    unfold getClosestResolution, Math_min. cbv zeta. fold indexArray.
    rewrite (fold_min2_NaN _ _ Hnan). unfold indexOf.
    rewrite indexOfFrom_NaN. reflexivity.
  - split; [exact Hok|].
    assert (indexArray <> []) as Hne
      by (subst indexArray; destruct resolutions; [congruence|discriminate]).
    destruct (Math_min_in indexArray Hne Hok) as [Hn Hin].
    destruct (indexOfFrom_found indexArray _ 0 Hn Hin) as (i & Hi & Hl).
    unfold getClosestResolution, indexOf. cbv zeta. fold indexArray. rewrite Hi.
    unfold arrayGet.
    destruct (Z.ltb_spec (0 + Z.of_nat i) 0) as [Hneg|_]; [lia|].
    replace (Z.to_nat (0 + Z.of_nat i)) with i by lia.
    subst indexArray. rewrite !list_lookup_fmap in Hl.
    destruct (resolutions !! i) as [r|] eqn:Hr; [|discriminate].
    injection Hl as Hm.
    exists i, r. split; [reflexivity|]. split; [exact Hr|exact Hm].
Qed.

(** X2.  [getClosestResolution] returns [undefined] in exactly two cases:
    the list of candidates is empty, or the index value of some candidate
    is NaN (a candidate without two readable numbers, or a target with a
    NaN side); a single such candidate hides every other one. *)
Theorem X2_getClosestResolution_undefined_iff
    (resolutions : list string) (target : Size) :
  getClosestResolution resolutions target = None <->
  resolutions = [] \/
  exists v, In v resolutions /\ indexValue target (numericResolution v) = NaN.
Proof.
  pose proof (getClosestResolution_cases resolutions target) as Hcases.
  cbv zeta in Hcases. rewrite map_map in Hcases.
  split.
  - intros Hnone.
    destruct Hcases as [[He _]|[[Hnan _]|[_ (i & r & Hsome & _)]]].
    + left. exact He.
    + right. apply in_map_iff in Hnan as (v & Hv & Hin). exists v. auto.
    + congruence.
  - intros [He|(v & Hin & Hv)].
    + subst resolutions. reflexivity.
    + destruct Hcases as [[_ Hn]|[[_ Hn]|[Hok _]]]; [exact Hn|exact Hn|].
      exfalso. apply Hok. apply in_map_iff. exists v. auto.
Qed.

(** X3.  Whenever [getClosestResolution] returns a string, that string is
    one of the candidates, its index value is a number or Infinity and no
    candidate has a smaller index value; this holds for every input, also
    where the arithmetic rounds or overflows. *)
Theorem X3_getClosestResolution_returns_a_least_candidate
    (resolutions : list string) (target : Size) (r : string) :
  getClosestResolution resolutions target = Some r ->
  In r resolutions /\
  indexValue target (numericResolution r) <> NaN /\
  forall v, In v resolutions ->
    jsLt (indexValue target (numericResolution v))
         (indexValue target (numericResolution r)) = false.
Proof.
  intros Hsome.
  pose proof (getClosestResolution_cases resolutions target) as Hcases.
  cbv zeta in Hcases.
  destruct Hcases as [[_ Hn]|[[_ Hn]|[Hok (i & r' & Hr & Hi & Hm)]]];
    [congruence|congruence|].
  assert (r' = r) as -> by congruence.
  split.
  { apply list_elem_of_In. eapply list_elem_of_lookup_2. exact Hi. }
  assert (In (indexValue target (numericResolution r))
             (map (indexValue target) (map numericResolution resolutions))) as Hin.
  { rewrite map_map. apply in_map_iff. exists r. split; [reflexivity|].
    apply list_elem_of_In. eapply list_elem_of_lookup_2. exact Hi. }
  split.
  { intros Hnan. apply Hok. rewrite <- Hnan. exact Hin. }
  intros v Hv. rewrite Hm. unfold Math_min.
  apply fold_min2_least; [discriminate|exact Hok|].
  right. rewrite map_map. apply in_map_iff. exists v. auto.
Qed.

Lemma X3_getClosestResolution_witness :
  In "1920x1080" ["1280x720"; "1920x1080"] /\
  indexValue {| width := Num 1900; height := Num 1000 |}
             (numericResolution "1920x1080") <> NaN /\
  forall v, In v ["1280x720"; "1920x1080"] ->
    jsLt (indexValue {| width := Num 1900; height := Num 1000 |}
                     (numericResolution v))
         (indexValue {| width := Num 1900; height := Num 1000 |}
                     (numericResolution "1920x1080")) = false.
Proof.
  apply (X3_getClosestResolution_returns_a_least_candidate
           ["1280x720"; "1920x1080"]
           {| width := Num 1900; height := Num 1000 |} "1920x1080").
  vm_compute. reflexivity.
Defined.

(** ** Mirrored candidates *)

Lemma parsedSize_resolutionString (w h : Z) :
  inRange w = true -> inRange h = true ->
  parsedSize (resolutionString w h) = Some (w, h).
Proof.
  intros Hw Hh. apply inRange_bound in Hw, Hh.
  unfold parsedSize. rewrite numericResolution_resolutionString.
  rewrite !toNumber_exact by (change (2 ^ 53) with 9007199254740992; lia).
  reflexivity.
Qed.

(** X4.  The weights 2 and 4 are meant to keep a candidate and its mirror
    image (1080x1920 against 1920x1080) apart.  They do so except on a
    line: for numbers of magnitude at most 2^49, the candidates "WxH" and
    "HxW" get the same index value exactly when W = H or
    2 tw + 4 th = 3 (W + H); the target 1500 by 1500 is such a case for
    1920x1080, and the mirror image is returned when it comes first. *)
Theorem X4_mirrored_candidates_tie_on_a_line :
  (forall tw th w h : Z,
      inRange tw = true -> inRange th = true ->
      inRange w = true -> inRange h = true ->
      indexValue {| width := Num tw; height := Num th |}
                 (numericResolution (resolutionString w h))
      = indexValue {| width := Num tw; height := Num th |}
                   (numericResolution (resolutionString h w))
      <-> w = h \/ 2 * tw + 4 * th = 3 * (w + h)) /\
  getClosestResolution ["1080x1920"; "1920x1080"]
                       {| width := Num 1500; height := Num 1500 |}
  = Some "1080x1920".
Proof.
  split; [|vm_compute; reflexivity].
  intros tw th w h Htw Hth Hw Hh.
  rewrite (indexValue_exact tw th _ w h Htw Hth
             (parsedSize_resolutionString w h Hw Hh) Hw Hh).
  rewrite (indexValue_exact tw th _ h w Htw Hth
             (parsedSize_resolutionString h w Hh Hw) Hh Hw).
  unfold distance. cbn [fst snd].
  split.
  - intros Heq. injection Heq as Heq. lia.
  - intros Hline. f_equal. lia.
Qed.

Lemma X4_mirrored_candidates_witness :
  indexValue {| width := Num 1500; height := Num 1500 |}
             (numericResolution (resolutionString 1920 1080))
  = indexValue {| width := Num 1500; height := Num 1500 |}
               (numericResolution (resolutionString 1080 1920))
  <-> 1920 = 1080 \/ 2 * 1500 + 4 * 1500 = 3 * (1920 + 1080).
Proof.
  apply (proj1 X4_mirrored_candidates_tie_on_a_line 1500 1500 1920 1080);
    reflexivity.
Defined.

(** ** What [setSetting] leaves alone *)

Section SettingsInvariants.
Context {rt : JSRuntime}.

Lemma find_updateParams (q parameter : string) (value : jsval)
    (params : list Setting.param) :
  option_map Setting.values
    (find (fun param => String.eqb (Setting.name param) q)
          (updateParams parameter value params))
  = option_map Setting.values
      (find (fun param => String.eqb (Setting.name param) q) params).
Proof.
  unfold updateParams.
  induction params as [|param rest IH]; [reflexivity|].
  cbn [map find].
  destruct (String.eqb (Setting.name param) parameter); cbn [Setting.name];
    destruct (String.eqb (Setting.name param) q); try exact IH; reflexivity.
Qed.

Lemma find_updateTree (s parameter : string) (value : jsval)
    (settings : settingsTree) :
  find (fun sub => String.eqb (Setting.nameSubCategory sub) s)
       (updateTree parameter value settings)
  = option_map
      (fun sub =>
         {| Setting.nameSubCategory := Setting.nameSubCategory sub;
            Setting.parameters :=
              updateParams parameter value (Setting.parameters sub) |})
      (find (fun sub => String.eqb (Setting.nameSubCategory sub) s) settings).
Proof.
  unfold updateTree.
  induction settings as [|sub rest IH]; [reflexivity|].
  cbn [map find Setting.nameSubCategory].
  destruct (String.eqb (Setting.nameSubCategory sub) s); [reflexivity|exact IH].
Qed.

Lemma getAvailableValues_tree (c s q : string) (st : obs) :
  getAvailableValues c s q st
  = match settingsStore st !! c with
    | None => None
    | Some settings =>
        match find (fun sub => String.eqb (Setting.nameSubCategory sub) s) settings with
        | None => None
        | Some sub =>
            option_map (map firstValue)
              (option_map Setting.values
                 (find (fun param => String.eqb (Setting.name param) q)
                       (Setting.parameters sub)))
        end
    end.
Proof.
  unfold getAvailableValues.
  destruct (settingsStore st !! c) as [settings|]; [|reflexivity].
  destruct (find _ settings) as [sub|]; [|reflexivity].
  destruct (find _ (Setting.parameters sub)); reflexivity.
Qed.

Lemma getAvailableValues_saved (category parameter : string) (value : jsval)
    (st : obs) (settings : settingsTree) (c s q : string) :
  settingsStore st !! category = Some settings ->
  getAvailableValues c s q
    (snd (OBS_settings_saveSettings category (updateTree parameter value settings) st))
  = getAvailableValues c s q st.
Proof.
  intros Hcat. rewrite !getAvailableValues_tree.
  unfold OBS_settings_saveSettings. cbn [snd settingsStore withSettings].
  destruct (decide (category = c)) as [<-|Hne].
  - rewrite lookup_insert_eq, Hcat, find_updateTree.
    destruct (find _ settings) as [sub|]; [|reflexivity].
    cbn [option_map Setting.parameters]. rewrite find_updateParams. reflexivity.
  - rewrite lookup_insert_ne by exact Hne. reflexivity.
Qed.

(** [setSetting] changes no offer, whatever its outcome. *)
Lemma setSetting_sameOffer (category parameter : string) (value : jsval) (st : obs) :
  sameOffer (snd (setSetting category parameter value st)) st.
Proof.
  destruct (settingsStore st !! category) as [settings|] eqn:Hcat.
  - rewrite (setSetting_run _ _ _ _ _ Hcat).
    destruct (negb _); [|split; reflexivity].
    split.
    + intros c. unfold OBS_settings_saveSettings.
      cbn [snd settingsStore withSettings].
      destruct (decide (category = c)) as [<-|Hne].
      * rewrite lookup_insert_eq, Hcat. split; eauto.
      * rewrite lookup_insert_ne by exact Hne. reflexivity.
    + intros c s q. apply getAvailableValues_saved. exact Hcat.
  - unfold setSetting. rewrite Hcat. split; reflexivity.
Qed.

Lemma sameOffer_trans (st1 st2 st3 : obs) :
  sameOffer st1 st2 -> sameOffer st2 st3 -> sameOffer st1 st3.
Proof.
  intros [Hd1 Hv1] [Hd2 Hv2]. split.
  - intros c. rewrite Hd1. apply Hd2.
  - intros c s q. rewrite Hv1. apply Hv2.
Qed.

Lemma sameOffer_hasData (st1 st2 : obs) (c : string) :
  sameOffer st1 st2 -> hasData c st1 = hasData c st2.
Proof.
  intros [Hd _]. unfold hasData. specialize (Hd c).
  destruct (settingsStore st1 !! c), (settingsStore st2 !! c); try reflexivity.
  - destruct Hd as [Hd _]. destruct Hd as [x Hx]; [eauto|discriminate].
  - destruct Hd as [_ Hd]. destruct Hd as [x Hx]; [eauto|discriminate].
Qed.

(** [setSetting] returns normally on a category that has data and throws a
    TypeError on any other. *)
Lemma setSetting_outcome (category parameter : string) (value : jsval) (st : obs) :
  if hasData category st
  then fst (setSetting category parameter value st) = Normal tt
  else isTypeError (fst (setSetting category parameter value st)) = true /\
       snd (setSetting category parameter value st) = st.
Proof.
  unfold hasData.
  destruct (settingsStore st !! category) as [settings|] eqn:Hcat.
  - rewrite (setSetting_run _ _ _ _ _ Hcat). destruct (negb _); reflexivity.
  - unfold setSetting. rewrite Hcat. split; reflexivity.
Qed.

(** One step of a sequence of settings. *)
Lemma bind_setSetting {B : Type} (category parameter : string) (value : jsval)
    (k : unit -> M obs B) (st : obs) :
  if hasData category st
  then exists st1, sameOffer st1 st /\
                   bind (setSetting category parameter value) k st = k tt st1
  else isTypeError (fst (bind (setSetting category parameter value) k st)) = true.
Proof.
  pose proof (setSetting_outcome category parameter value st) as Hout.
  pose proof (setSetting_sameOffer category parameter value st) as Hsame.
  unfold bind.
  destruct (hasData category st).
  - destruct (setSetting category parameter value st) as [r st1].
    cbn [fst snd] in *. subst r. exists st1. split; [exact Hsame|reflexivity].
  - destruct (setSetting category parameter value st) as [[[]|[m|m|m]] st1];
      cbn [fst snd isTypeError] in *; destruct Hout as [Hout _];
      try discriminate; reflexivity.
Qed.

End SettingsInvariants.

(** X5.  Whatever [setSetting] is asked to write and whether it returns or
    throws, the engine afterwards offers what it offered before: the same
    categories have data and [getAvailableValues] gives the same answer for
    every category, subcategory and parameter. *)
Theorem X5_setSetting_keeps_the_available_values {rt : JSRuntime}
    (category parameter : string) (value : jsval) (st : obs)
    (c s q : string) :
  getAvailableValues c s q (snd (setSetting category parameter value st))
  = getAvailableValues c s q st /\
  hasData c (snd (setSetting category parameter value st)) = hasData c st.
Proof.
  pose proof (setSetting_sameOffer category parameter value st) as Hsame.
  split; [apply Hsame|apply sameOffer_hasData, Hsame].
Qed.

(** ** Writing the same value twice *)

Lemma paramOccurs_values (parameter : string) (settings : settingsTree) :
  paramOccurs parameter settings = true -> paramValues parameter settings <> [].
Proof.
  unfold paramOccurs, paramValues.
  induction settings as [|sub rest IH]; [discriminate|].
  cbn [existsb flat_map]. intros H Hnil.
  apply app_eq_nil in Hnil as [Hsub Hrest].
  apply orb_true_iff in H as [H|H]; [|exact (IH H Hrest)].
  unfold paramValuesIn in Hsub.
  induction (Setting.parameters sub) as [|param params IHp]; [discriminate|].
  cbn [existsb List.filter] in *.
  destruct (String.eqb (Setting.name param) parameter); [discriminate|].
  exact (IHp H Hsub).
Qed.

(** X6.  On a category that has data, for a parameter that occurs in it
    and a value that is equal to itself under [==] (any value but NaN), a
    second identical call of [setSetting] finds the value in place and does
    nothing: it returns normally and leaves the engine, its log of saves
    included, as the first call left it.  NaN never settles: every call
    that writes NaN saves again. *)
Theorem X6_setSetting_twice {rt : JSRuntime}
    (category parameter : string) (st : obs) (settings : settingsTree) :
  settingsStore st !! category = Some settings ->
  paramOccurs parameter settings = true ->
  (forall value : jsval,
      looseEq value value = true ->
      exists st1,
        setSetting category parameter value st = (Normal tt, st1) /\
        setSetting category parameter value st1 = (Normal tt, st1)) /\
  (exists st1 st2,
      setSetting category parameter (VNumber NaN) st = (Normal tt, st1) /\
      setSetting category parameter (VNumber NaN) st1 = (Normal tt, st2) /\
      length (savedSettings st2) = S (S (length (savedSettings st)))).
Proof.
  intros Hcat Hocc.
  pose proof (paramOccurs_values _ _ Hocc) as Hne.
  assert (forall value,
             List.last (paramValues parameter (updateTree parameter value settings))
                       VUndefined = value) as Hlast.
  { intros value. rewrite paramValues_update, String.eqb_refl.
    apply last_map_const. exact Hne. }
  split.
  - intros value Hrefl.
    rewrite (setSetting_run _ _ _ _ _ Hcat).
    destruct (looseEq value (List.last (paramValues parameter settings) VUndefined))
      eqn:Hold; cbn [negb].
    + exists st. split; [reflexivity|].
      rewrite (setSetting_run _ _ _ _ _ Hcat), Hold. reflexivity.
    + eexists. split; [reflexivity|].
      erewrite setSetting_run
        by (cbn [settingsStore withSettings]; apply lookup_insert_eq).
      rewrite Hlast, Hrefl. reflexivity.
  - rewrite (setSetting_run _ _ _ _ _ Hcat).
    replace (looseEq (VNumber NaN)
               (List.last (paramValues parameter settings) VUndefined))
      with false by (destruct (List.last _ _) as [| |b|[]|s]; reflexivity).
    cbn [negb]. eexists _, _. split; [reflexivity|].
    erewrite setSetting_run
      by (cbn [settingsStore withSettings]; apply lookup_insert_eq).
    rewrite Hlast. cbn [looseEq numStrictEq negb].
    split; reflexivity.
Qed.

Lemma X6_setSetting_twice_witness :
  (forall value : jsval,
      @looseEq exampleRuntime value value = true ->
      exists st1,
        @setSetting exampleRuntime "Output" "RecFormat" value (exampleEngine [] [])
        = (Normal tt, st1) /\
        @setSetting exampleRuntime "Output" "RecFormat" value st1 = (Normal tt, st1)) /\
  (exists st1 st2,
      @setSetting exampleRuntime "Output" "RecFormat" (VNumber NaN) (exampleEngine [] [])
      = (Normal tt, st1) /\
      @setSetting exampleRuntime "Output" "RecFormat" (VNumber NaN) st1
      = (Normal tt, st2) /\
      length (savedSettings st2) = S (S (length (savedSettings (exampleEngine [] []))))).
Proof.
  apply (@X6_setSetting_twice exampleRuntime "Output" "RecFormat"
           (exampleEngine [] []) exampleOutput).
  - reflexivity.
  - reflexivity.
Defined.

(** ** Choosing the encoder and configuring *)

Section ConfigureProperties.
Context {rt : JSRuntime}.

Lemma includes_In (array : list jsval) (encoder : string) :
  includes array encoder = true -> In (VString encoder) array.
Proof.
  unfold includes. intros H. apply existsb_exists in H as (v & Hin & Hv).
  destruct v as [| | | |s]; try discriminate.
  apply String.eqb_eq in Hv. subst s. exact Hin.
Qed.

Lemma last_In {A : Type} (l : list A) (d : A) : l <> [] -> In (List.last l d) l.
Proof.
  induction l as [|x l IH]; [congruence|]. intros _.
  destruct l as [|y l]; [left; reflexivity|].
  right. apply IH. discriminate.
Qed.

(** What [setObsRecEncoder] hands to [setSetting]. *)
Lemma setObsRecEncoder_run (options : RecorderOptionsType) (st : obs)
    (available : list jsval) :
  getObsAvailableRecEncoders st = Some available ->
  setObsRecEncoder options st
  = setSetting "Output" "RecEncoder"
      (match obsRecEncoder options with
       | Some e =>
           if autoPick (Some e) || negb (includes available e)
           then List.last available VUndefined
           else VString e
       | None => List.last available VUndefined
       end) st.
Proof.
  intros Hav. unfold setObsRecEncoder. cbv zeta. rewrite Hav.
  destruct (obsRecEncoder options) as [e|]; [|reflexivity].
  destruct (autoPick (Some e)); [reflexivity|].
  cbn [orb]. destruct (includes available e); reflexivity.
Qed.

Lemma setObsRecEncoder_undefined (options : RecorderOptionsType) (st : obs) :
  getObsAvailableRecEncoders st = None ->
  isTypeError (fst (setObsRecEncoder options st)) = true /\
  snd (setObsRecEncoder options st) = st.
Proof.
  intros Hav. unfold setObsRecEncoder. cbv zeta. rewrite Hav.
  destruct (obsRecEncoder options) as [e|]; [|split; reflexivity].
  destruct (autoPick (Some e)); split; reflexivity.
Qed.

End ConfigureProperties.

(** X7.  When the engine lists recording encoders, the value that
    [setObsRecEncoder] hands to [setSetting] for Output/RecEncoder is the
    configured encoder if that is in the list and is neither empty nor
    "auto", and the last encoder of the list in every other case: when no
    encoder is configured, when it is empty or "auto", and when it is not
    in the list.  So it is always an encoder of the list, except that for
    an empty list it is [undefined]. *)
Theorem X7_setObsRecEncoder_picks_a_listed_encoder {rt : JSRuntime}
    (options : RecorderOptionsType) (st : obs) (available : list jsval) :
  getObsAvailableRecEncoders st = Some available ->
  exists encoder : jsval,
    setObsRecEncoder options st = setSetting "Output" "RecEncoder" encoder st /\
    (available <> [] -> In encoder available) /\
    (available = [] -> encoder = VUndefined) /\
    (forall e, obsRecEncoder options = Some e ->
               e <> EmptyString -> e <> "auto" ->
               In (VString e) available -> encoder = VString e) /\
    (autoPick (obsRecEncoder options) = true ->
     encoder = List.last available VUndefined) /\
    (forall e, obsRecEncoder options = Some e ->
               ~ In (VString e) available ->
               encoder = List.last available VUndefined) /\
    (encoder = List.last available VUndefined \/
     exists e, obsRecEncoder options = Some e /\ e <> EmptyString /\
               e <> "auto" /\ In (VString e) available /\ encoder = VString e).
Proof.
  intros Hav. eexists. split; [apply setObsRecEncoder_run; exact Hav|].
  assert (forall e, In (VString e) available -> includes available e = true)
    as Hyes.
  { intros e Hin. unfold includes. apply existsb_exists. exists (VString e).
    split; [exact Hin|apply String.eqb_refl]. }
  destruct (obsRecEncoder options) as [e|].
  - destruct (autoPick (Some e)) eqn:Hauto; cbn [orb].
    + refine (conj _ (conj _ (conj _ (conj _ (conj _ _))))).
      * apply last_In.
      * intros ->. reflexivity.
      * intros e' [= <-] He1 He2 _. exfalso. cbn [autoPick] in Hauto.
        apply orb_true_iff in Hauto as [H|H]; apply String.eqb_eq in H; congruence.
      * reflexivity.
      * reflexivity.
      * left. reflexivity.
    + destruct (includes available e) eqn:Hinc; cbn [negb].
      * refine (conj _ (conj _ (conj _ (conj _ (conj _ _))))).
        -- intros _. apply includes_In. exact Hinc.
        -- intros ->. discriminate Hinc.
        -- intros e' [= <-] _ _ _. reflexivity.
        -- discriminate.
        -- intros e' [= <-] Hnot. exfalso. apply Hnot, includes_In, Hinc.
        -- right. exists e. cbn [autoPick] in Hauto.
           apply orb_false_iff in Hauto as [H1 H2].
           apply String.eqb_neq in H1, H2.
           repeat split; try assumption. apply includes_In, Hinc.
      * refine (conj _ (conj _ (conj _ (conj _ (conj _ _))))).
        -- apply last_In.
        -- intros ->. reflexivity.
        -- intros e' [= <-] _ _ Hin. rewrite (Hyes _ Hin) in Hinc. discriminate.
        -- discriminate.
        -- reflexivity.
        -- left. reflexivity.
  - refine (conj _ (conj _ (conj _ (conj _ (conj _ _))))).
    + apply last_In.
    + intros ->. reflexivity.
    + discriminate.
    + reflexivity.
    + discriminate.
    + left. reflexivity.
Qed.

Lemma X7_setObsRecEncoder_witness :
  exists encoder : jsval,
    @setObsRecEncoder exampleRuntime (exampleOptions (Some "nvenc_hevc"))
                      (exampleEngine [] [])
    = @setSetting exampleRuntime "Output" "RecEncoder" encoder (exampleEngine [] []) /\
    encoder = VString "jim_nvenc".
Proof.
  destruct (@X7_setObsRecEncoder_picks_a_listed_encoder exampleRuntime
              (exampleOptions (Some "nvenc_hevc")) (exampleEngine [] [])
              [VString "obs_x264"; VString "jim_nvenc"] eq_refl)
    as (encoder & Hrun & _ & _ & _ & _ & Hmissing & _).
  exists encoder. split; [exact Hrun|].
  apply (Hmissing "nvenc_hevc" eq_refl).
  intros [H|[H|[]]]; discriminate H.
Defined.

Section ConfigureOutcome.
Context {rt : JSRuntime}.

Lemma bind_isTypeError {S A B : Type} (m : M S A) (k : A -> M S B) (st : S) :
  isTypeError (fst (m st)) = true -> isTypeError (fst (bind m k st)) = true.
Proof.
  unfold bind. destruct (m st) as [[a|[msg|msg|msg]] st1]; cbn; congruence.
Qed.

Lemma sameOffer_encoders (st1 st2 : obs) :
  sameOffer st1 st2 ->
  getObsAvailableRecEncoders st1 = getObsAvailableRecEncoders st2.
Proof. intros [_ Hv]. apply Hv. Qed.

Lemma bind_setObsRecEncoder {B : Type} (options : RecorderOptionsType)
    (k : unit -> M obs B) (st : obs) :
  if hasData "Output" st && offersEncoders st
  then exists st1, sameOffer st1 st /\ bind (setObsRecEncoder options) k st = k tt st1
  else isTypeError (fst (bind (setObsRecEncoder options) k st)) = true.
Proof.
  unfold offersEncoders.
  destruct (getObsAvailableRecEncoders st) as [available|] eqn:Hav.
  - rewrite andb_true_r.
    pose proof (setObsRecEncoder_run options st available Hav) as Hrun.
    match type of Hrun with
    | _ = setSetting ?c ?p ?v _ =>
        pose proof (bind_setSetting c p v k st) as Hstep
    end.
    unfold bind in *. rewrite Hrun. exact Hstep.
  - rewrite andb_false_r. apply bind_isTypeError.
    apply setObsRecEncoder_undefined. exact Hav.
Qed.

End ConfigureOutcome.

(** X8.  [configureOBS] returns normally exactly when the categories
    Output and Video have data and the engine lists recording encoders; in
    every other case it ends in a TypeError.  When it returns, the engine
    offers what it offered before. *)
Theorem X8_configureOBS_outcome {rt : JSRuntime}
    (options : RecorderOptionsType) (st : obs) :
  if hasData "Output" st && offersEncoders st && hasData "Video" st
  then exists st', configureOBS options st = (Normal tt, st') /\ sameOffer st' st
  else isTypeError (fst (configureOBS options st)) = true.
Proof.
  unfold configureOBS.
  match goal with
  | |- context [bind (setSetting ?c ?p ?v) ?k st] =>
      pose proof (bind_setSetting c p v k st) as Hstep
  end.
  destruct (hasData "Output" st) eqn:HO; [|exact Hstep].
  destruct Hstep as (st1 & Hs1 & ->).
  match goal with
  | |- context [bind (setObsRecEncoder ?o) ?k st1] =>
      pose proof (bind_setObsRecEncoder o k st1) as Hstep
  end.
  unfold offersEncoders in *.
  rewrite (sameOffer_hasData _ _ "Output" Hs1), HO,
    (sameOffer_encoders _ _ Hs1) in Hstep.
  cbn [andb] in *.
  destruct (getObsAvailableRecEncoders st) as [available|] eqn:Hav; [|exact Hstep].
  destruct Hstep as (st2 & Hs2 & ->).
  pose proof (sameOffer_trans _ _ _ Hs2 Hs1) as Hsame. clear Hs1 Hs2 st1.
  repeat match goal with
  | |- context [bind (setSetting "Output" ?p ?v) ?k ?s] =>
      let H := fresh "Hstep" in
      let s' := fresh "st" in
      let Hs := fresh "Hs" in
      pose proof (bind_setSetting "Output" p v k s) as H;
      rewrite (sameOffer_hasData _ _ "Output" Hsame), HO in H;
      destruct H as (s' & Hs & ->);
      pose proof (sameOffer_trans _ _ _ Hs Hsame) as Hsame';
      clear Hsame Hs; rename Hsame' into Hsame
  end.
  match goal with
  | |- context [setSetting "Video" ?p ?v ?s] =>
      pose proof (setSetting_outcome "Video" p v s) as Hout;
      pose proof (setSetting_sameOffer "Video" p v s) as Hlast
  end.
  rewrite (sameOffer_hasData _ _ "Video" Hsame) in Hout.
  destruct (hasData "Video" st).
  - destruct (setSetting "Video" _ _ _) as [r st'].
    cbn [fst snd] in Hout, Hlast. subst r.
    exists st'. split; [reflexivity|].
    exact (sameOffer_trans _ _ _ Hlast Hsame).
  - apply Hout.
Qed.

(** ** A configured resolution that cannot be read *)

Lemma indexValue_NaN_target (target : Size) (v : list number) :
  width target = NaN \/ height target = NaN -> indexValue target v = NaN.
Proof.
  unfold indexValue, jsSub. intros [-> | ->]; [reflexivity|].
  cbn [jsAdd jsMul].
  destruct (jsMul _ (Num 2)); reflexivity.
Qed.

Lemma getClosestResolution_NaN_target (resolutions : list string) (target : Size) :
  width target = NaN \/ height target = NaN ->
  getClosestResolution resolutions target = None.
Proof.
  intros Hnan.
  destruct (getClosestResolution_cases resolutions target)
    as [[_ Hn]|[[_ Hn]|[Hok (i & r & _ & Hi & _)]]]; [exact Hn|exact Hn|].
  exfalso. apply Hok. rewrite map_map. apply in_map_iff.
  exists r. split; [apply indexValue_NaN_target, Hnan|].
  apply list_elem_of_In. eapply list_elem_of_lookup_2. exact Hi.
Qed.

(** X9.  A configured resolution text in which the letter x does not occur
    (such as "1080") is read by [parseResolutionsString] as a size without
    height; such a target matches no candidate, and
    [setOBSVideoResolution] then hands [undefined] to [setSetting],
    whatever resolutions the engine offers. *)
Theorem X9_unreadable_resolution_writes_undefined {rt : JSRuntime}
    (value : string) :
  freeOf "x" value = true ->
  height (parseResolutionsString value) = NaN /\
  (forall resolutions : list string,
      getClosestResolution resolutions (parseResolutionsString value) = None) /\
  (forall (paramString : string) (st : obs) (available : list jsval)
          (resolutions : list string),
      getAvailableValues "Video" "Untitled" paramString st = Some available ->
      asStrings available = Some resolutions ->
      setOBSVideoResolution (parseResolutionsString value) paramString st
      = setSetting "Video" paramString VUndefined st).
Proof.
  intros Hfree.
  assert (height (parseResolutionsString value) = NaN) as Hh.
  { unfold parseResolutionsString, numericResolution.
    rewrite (split_freeOf _ _ Hfree). reflexivity. }
  split; [exact Hh|]. split.
  - intros resolutions. apply getClosestResolution_NaN_target. right. exact Hh.
  - intros paramString st available resolutions Hav Hstr.
    unfold setOBSVideoResolution. rewrite Hav, Hstr. cbv zeta.
    rewrite getClosestResolution_NaN_target by (right; exact Hh).
    reflexivity.
Qed.

Lemma X9_unreadable_resolution_witness :
  height (parseResolutionsString "1080") = NaN /\
  (forall resolutions : list string,
      getClosestResolution resolutions (parseResolutionsString "1080") = None) /\
  (forall (paramString : string) (st : obs) (available : list jsval)
          (resolutions : list string),
      getAvailableValues "Video" "Untitled" paramString st = Some available ->
      asStrings available = Some resolutions ->
      @setOBSVideoResolution exampleRuntime (parseResolutionsString "1080")
                             paramString st
      = @setSetting exampleRuntime "Video" paramString VUndefined st).
Proof.
  apply (@X9_unreadable_resolution_writes_undefined exampleRuntime "1080").
  reflexivity.
Defined.

(** ** Waiting for signals: time and queue *)

Section SignalTiming.
Context {rt : JSRuntime}.

Lemma beatsTimer_bound (armed pushed : Z) :
  beatsTimer armed pushed = true -> pushed <= armed + 5000.
Proof.
  unfold beatsTimer. destruct timerWinsTie; intros H.
  - apply Z.ltb_lt in H. lia.
  - apply Z.leb_le in H. exact H.
Qed.

(** One wait: the clock moves on by at most 5000 ms and nothing but the
    clock and the queue changes. *)
Lemma assertNextSignal_time (value : string) (st : recorder) :
  let st' := snd (assertNextSignal value st) in
  now st <= now st' <= now st + 5000 /\
  commands st' = commands st /\
  obsInitialized st' = obsInitialized st /\
  unhandledRejections st' = unhandledRejections st.
Proof.
  unfold assertNextSignal, bind, raceShift, throw, ret.
  destruct (waitQueue st) as [|[pushed info] rest]; cbn;
    [repeat split; try reflexivity; lia|].
  destruct (beatsTimer (now st) pushed) eqn:Hrace; cbn;
    [|repeat split; try reflexivity; lia].
  apply beatsTimer_bound in Hrace.
  destruct (String.eqb (type info) "recording"); cbn;
    [|repeat split; try reflexivity; lia].
  destruct (String.eqb (signal info) value); cbn;
    repeat split; try reflexivity; lia.
Qed.

(** An item that arrives in time is taken off the queue, whether it is the
    expected one or not. *)
Lemma assertNextSignal_consumes (value : string) (st : recorder)
    (pushed : Z) (info : signalInfo) (rest : list (Z * signalInfo)) :
  waitQueue st = (pushed, info) :: rest ->
  beatsTimer (now st) pushed = true ->
  snd (assertNextSignal value st) = withQueue st (Z.max (now st) pushed) rest.
Proof.
  intros Hq Hrace.
  unfold assertNextSignal, bind, raceShift, throw, ret. rewrite Hq, Hrace.
  destruct (String.eqb (type info) "recording"); cbn; [|reflexivity].
  destruct (String.eqb (signal info) value); reflexivity.
Qed.

Lemma bind_snd_time {A : Type} (m : M recorder unit) (k : unit -> M recorder A)
    (st : recorder) (a b : Z) :
  now st <= now (snd (m st)) <= now st + a ->
  (forall st1, now st1 <= now (snd (k tt st1)) <= now st1 + b) ->
  0 <= b ->
  now st <= now (snd (bind m k st)) <= now st + (a + b).
Proof.
  intros Hm Hk Hb. unfold bind.
  destruct (m st) as [[[]|e] st1]; cbn [snd] in *.
  - specialize (Hk st1). lia.
  - lia.
Qed.

End SignalTiming.

(** X10.  No call waits for ever: whatever the engine sends or fails to
    send, the clock has moved on by at most 5000 ms when
    [assertNextSignal] or [start] is over and by at most 15000 ms when
    [stop] is over, and it never moves back. *)
Theorem X10_waits_are_bounded {rt : JSRuntime} (st : recorder) :
  (forall value : string,
      now st <= now (snd (assertNextSignal value st)) <= now st + 5000) /\
  now st <= now (snd (start st)) <= now st + 5000 /\
  now st <= now (snd (stop st)) <= now st + 15000.
Proof.
  assert (forall value s,
             now s <= now (snd (assertNextSignal value s)) <= now s + 5000) as Hone.
  { intros value s. apply (assertNextSignal_time value s). }
  split; [intros value; apply Hone|]. split.
  - unfold start. destruct (negb (obsInitialized st)); cbn [snd]; [lia|].
    unfold bind, issue. cbn [fst snd].
    match goal with |- context [assertNextSignal ?v ?s] =>
      pose proof (Hone v s) as H; cbn [now] in H
    end.
    destruct (assertNextSignal _ _) as [r st']. cbn [snd] in *. exact H.
  - set (st0 := snd (issue OBS_service_stopRecording st)).
    change (stop st)
      with (bind (assertNextSignal "stopping")
                 (fun _ => bind (assertNextSignal "stop")
                                (fun _ => assertNextSignal "wrote")) st0).
    change (now st) with (now st0). clearbody st0.
    replace 15000 with (5000 + (5000 + 5000)) by reflexivity.
    apply bind_snd_time; [apply Hone| |lia].
    intros st1. apply bind_snd_time; [apply Hone| |lia].
    intros st2. apply Hone.
Qed.

(** X11.  The queue is never flushed.  An item that arrives in time is
    taken off the queue even when it is not the expected one, and the items
    behind it stay: when the first item that [stop] meets is in time but is
    not the recording signal stopping, [stop] throws "OBS behaved
    unexpectedly", exactly that one item is gone and the clock stands at
    its arrival; the later items are what the next [start] or [stop] will
    read. *)
Theorem X11_unexpected_item_is_dropped_and_the_rest_kept {rt : JSRuntime}
    (st : recorder) (pushed : Z) (info : signalInfo)
    (rest : list (Z * signalInfo)) :
  waitQueue st = (pushed, info) :: rest ->
  beatsTimer (now st) pushed = true ->
  info <> recordingSignal "stopping" ->
  (fst (stop st) = Throw (Error "OBS behaved unexpectedly (2)") \/
   fst (stop st) = Throw (Error "OBS behaved unexpectedly (3)")) /\
  waitQueue (snd (stop st)) = rest /\
  now (snd (stop st)) = Z.max (now st) pushed /\
  commands (snd (stop st)) = OBS_service_stopRecording :: commands st.
Proof.
  intros Hq Hrace Hinfo.
  unfold stop, bind, issue, assertNextSignal, bind, raceShift, throw, ret.
  cbn [waitQueue now]. rewrite Hq, Hrace.
  destruct (String.eqb_spec (type info) "recording") as [Hty|Hty]; cbn [negb].
  - destruct (String.eqb_spec (signal info) "stopping") as [Hsg|Hsg]; cbn [negb].
    + exfalso. apply Hinfo. destruct info as [ty sg]. cbn in Hty, Hsg.
      subst. reflexivity.
    + cbn. auto.
  - cbn. auto.
Qed.

Lemma X11_unexpected_item_witness :
  (fst (@stop exampleRuntime
          (exampleRecorder [(100, recordingSignal "stop");
                            (200, recordingSignal "stopping");
                            (300, recordingSignal "wrote")]))
   = Throw (Error "OBS behaved unexpectedly (2)") \/
   fst (@stop exampleRuntime
          (exampleRecorder [(100, recordingSignal "stop");
                            (200, recordingSignal "stopping");
                            (300, recordingSignal "wrote")]))
   = Throw (Error "OBS behaved unexpectedly (3)")) /\
  waitQueue (snd (@stop exampleRuntime
                    (exampleRecorder [(100, recordingSignal "stop");
                                      (200, recordingSignal "stopping");
                                      (300, recordingSignal "wrote")])))
  = [(200, recordingSignal "stopping"); (300, recordingSignal "wrote")] /\
  now (snd (@stop exampleRuntime
              (exampleRecorder [(100, recordingSignal "stop");
                                (200, recordingSignal "stopping");
                                (300, recordingSignal "wrote")])))
  = Z.max (now (exampleRecorder [(100, recordingSignal "stop");
                                 (200, recordingSignal "stopping");
                                 (300, recordingSignal "wrote")])) 100 /\
  commands (snd (@stop exampleRuntime
                   (exampleRecorder [(100, recordingSignal "stop");
                                     (200, recordingSignal "stopping");
                                     (300, recordingSignal "wrote")])))
  = OBS_service_stopRecording
    :: commands (exampleRecorder [(100, recordingSignal "stop");
                                  (200, recordingSignal "stopping");
                                  (300, recordingSignal "wrote")]).
Proof.
  apply (@X11_unexpected_item_is_dropped_and_the_rest_kept exampleRuntime
           (exampleRecorder [(100, recordingSignal "stop");
                             (200, recordingSignal "stopping");
                             (300, recordingSignal "wrote")])
           100 (recordingSignal "stop")
           [(200, recordingSignal "stopping"); (300, recordingSignal "wrote")]).
  - reflexivity.
  - reflexivity.
  - discriminate.
Defined.

(** ** Muting, and how many sources stay registered *)

Section TrackPolicy.
Context {rt : JSRuntime}.

Lemma allocated_input (inputId outputId : string) (inputs outputs : list Device.t)
    (objs : list Source) (table : gmap Z nat) (i : nat) (device : Device.t) :
  inputs !! i = Some device ->
  let n := length inputs in
  let m := length outputs in
  let base := length objs in
  registerTracks (2 + Z.of_nat n) (base + n) m (registerTracks 2 base n table)
    !! (2 + Z.of_nat i) = Some (base + i)%nat /\
  (objs
   ++ audioSourcesFrom "wasapi_input_capture" "mic-audio" inputId inputs 2
   ++ audioSourcesFrom "wasapi_output_capture" "desktop-audio" outputId outputs
        (2 + Z.of_nat n)) !! (base + i)%nat
  = Some (audioSource "wasapi_input_capture" "mic-audio" inputId device
            (2 + Z.of_nat i)).
Proof.
  intros Hi n m base.
  assert (i < n)%nat as Hlt by (apply lookup_lt_Some in Hi; exact Hi).
  assert (length (audioSourcesFrom "wasapi_input_capture" "mic-audio" inputId inputs 2)
          = n) as Hlen by apply audioSourcesFrom_length.
  split.
  - rewrite registerTracks_lookup_out by lia.
    apply registerTracks_lookup_in. exact Hlt.
  - rewrite lookup_app_r by lia.
    replace (base + i - length objs)%nat with i by (subst base; lia).
    rewrite lookup_app_l by lia.
    apply audioSourcesFrom_lookup. exact Hi.
Qed.

Lemma allocated_output (inputId outputId : string) (inputs outputs : list Device.t)
    (objs : list Source) (table : gmap Z nat) (i : nat) (device : Device.t) :
  outputs !! i = Some device ->
  let n := length inputs in
  let m := length outputs in
  let base := length objs in
  registerTracks (2 + Z.of_nat n) (base + n) m (registerTracks 2 base n table)
    !! (2 + Z.of_nat n + Z.of_nat i) = Some (base + n + i)%nat /\
  (objs
   ++ audioSourcesFrom "wasapi_input_capture" "mic-audio" inputId inputs 2
   ++ audioSourcesFrom "wasapi_output_capture" "desktop-audio" outputId outputs
        (2 + Z.of_nat n)) !! (base + n + i)%nat
  = Some (audioSource "wasapi_output_capture" "desktop-audio" outputId device
            (2 + Z.of_nat n + Z.of_nat i)).
Proof.
  intros Hi n m base.
  assert (i < m)%nat as Hlt by (apply lookup_lt_Some in Hi; exact Hi).
  assert (length (audioSourcesFrom "wasapi_input_capture" "mic-audio" inputId inputs 2)
          = n) as Hlen by apply audioSourcesFrom_length.
  split.
  - apply registerTracks_lookup_in. exact Hlt.
  - rewrite lookup_app_r by lia.
    replace (base + n + i - length objs)%nat with (n + i)%nat by (subst base; lia).
    rewrite lookup_app_r by lia. rewrite Hlen.
    replace (n + i - n)%nat with i by lia.
    apply audioSourcesFrom_lookup. exact Hi.
Qed.

(** Where [allocateTracks] puts the sources, by kind of device. *)
Lemma allocateTracks_sources (scene : nat) (inputId outputId : string) (st : obs) :
  is_Some (settingsStore st !! "Output") ->
  let n := length (audioInputDevices st) in
  let m := length (audioOutputDevices st) in
  let base := length (objects st) in
  exists st',
    allocateTracks scene inputId outputId st = (Normal tt, st') /\
    is_Some (settingsStore st' !! "Output") /\
    audioInputDevices st' = audioInputDevices st /\
    audioOutputDevices st' = audioOutputDevices st /\
    outputSources st' !! 1 = Some scene /\
    (forall i device,
        audioInputDevices st !! i = Some device ->
        outputSources st' !! (2 + Z.of_nat i) = Some (base + i)%nat /\
        objects st' !! (base + i)%nat
        = Some (audioSource "wasapi_input_capture" "mic-audio" inputId device
                  (2 + Z.of_nat i))) /\
    (forall i device,
        audioOutputDevices st !! i = Some device ->
        outputSources st' !! (2 + Z.of_nat n + Z.of_nat i) = Some (base + n + i)%nat /\
        objects st' !! (base + n + i)%nat
        = Some (audioSource "wasapi_output_capture" "desktop-audio" outputId device
                  (2 + Z.of_nat n + Z.of_nat i))) /\
    (forall k, k < 1 \/ 2 + Z.of_nat n + Z.of_nat m <= k ->
               outputSources st' !! k = outputSources st !! k) /\
    (forall j, (j < base)%nat -> objects st' !! j = objects st !! j).
Proof.
  intros Hout n m base.
  destruct (allocateTracks_spec scene inputId outputId st Hout)
    as (st' & Hrun & Hout' & Hobj & Htab & Hin & Hou & _).
  exists st'. split; [exact Hrun|]. split; [exact Hout'|].
  split; [exact Hin|]. split; [exact Hou|].
  split; [|split; [|split; [|split]]].
  - rewrite Htab, !registerTracks_lookup_out by lia. apply lookup_insert_eq.
  - intros i device Hi. rewrite Htab, Hobj.
    apply (allocated_input inputId outputId _ _ (objects st)
             (<[1 := scene]> (outputSources st)) i device Hi).
  - intros i device Hi. rewrite Htab, Hobj.
    apply (allocated_output inputId outputId _ _ (objects st)
             (<[1 := scene]> (outputSources st)) i device Hi).
  - intros k Hk. rewrite Htab.
    rewrite !registerTracks_lookup_out by (subst n m; lia).
    apply lookup_insert_ne. lia.
  - intros j Hj. rewrite Hobj. apply lookup_app_l. exact Hj.
Qed.

Lemma isMuted_iff (selectedDeviceId : string) (device : Device.t) :
  isMuted selectedDeviceId device = true <->
  selectedDeviceId = "none" \/
  (selectedDeviceId <> "all" /\ Device.id device <> selectedDeviceId).
Proof.
  unfold isMuted.
  destruct (String.eqb_spec selectedDeviceId "none") as [Hnone|Hnone];
    destruct (String.eqb_spec selectedDeviceId "all") as [Hall|Hall];
    destruct (String.eqb_spec (Device.id device) selectedDeviceId) as [Hid|Hid];
    cbn; split; intros H; try discriminate; auto;
    destruct H as [H|[H1 H2]]; congruence.
Qed.

End TrackPolicy.

(** X12.  In both revisions the rebuild mutes by kind of device: the
    source of every input device sits on its slot as a
    wasapi_input_capture source whose [muted] flag is decided by the
    selected input device alone, and the source of every output device as a
    wasapi_output_capture source whose flag is decided by the selected
    output device alone.  A source is muted exactly when the selection is
    "none", or is not "all" and differs from the id of its device; so a
    selection that names no existing device mutes every source of its
    kind, without any error. *)
Theorem X12_selection_mutes_by_kind {rt : JSRuntime}
    (scene : nat) (inputId outputId : string) (st : obs) (run : M obs unit) :
  is_Some (settingsStore st !! "Output") ->
  run = setupSources scene inputId outputId \/
  run = allocateTracks scene inputId outputId ->
  (exists st',
      run st = (Normal tt, st') /\
      (forall i device,
          audioInputDevices st !! i = Some device ->
          exists src source,
            outputSources st' !! (2 + Z.of_nat i) = Some src /\
            objects st' !! src = Some source /\
            typeId source = "wasapi_input_capture" /\
            device_id source = Some (Device.id device) /\
            muted source = Some (isMuted inputId device)) /\
      (forall i device,
          audioOutputDevices st !! i = Some device ->
          exists src source,
            outputSources st'
              !! (2 + Z.of_nat (length (audioInputDevices st)) + Z.of_nat i)
            = Some src /\
            objects st' !! src = Some source /\
            typeId source = "wasapi_output_capture" /\
            device_id source = Some (Device.id device) /\
            muted source = Some (isMuted outputId device))) /\
  (forall selected device,
      isMuted selected device = true <->
      selected = "none" \/ (selected <> "all" /\ Device.id device <> selected)).
Proof.
  intros Hout Hrun. split; [|apply isMuted_iff].
  assert (exists st1,
             is_Some (settingsStore st1 !! "Output") /\
             audioInputDevices st1 = audioInputDevices st /\
             audioOutputDevices st1 = audioOutputDevices st /\
             run st = allocateTracks scene inputId outputId st1) as Hprep.
  { destruct Hrun as [-> | ->].
    - destruct (clearSources_spec st Hout)
        as (st1 & Hrun1 & Hout1 & _ & _ & _ & Hin & Hou & _).
      exists st1. unfold setupSources.
      rewrite (bind_normal _ _ _ _ _ Hrun1). auto.
    - exists st. auto. }
  destruct Hprep as (st1 & Hout1 & Hin & Hou & ->).
  destruct (allocateTracks_sources scene inputId outputId st1 Hout1)
    as (st' & Hrun' & _ & _ & _ & _ & Hinputs & Houtputs & _).
  rewrite Hin, Hou in *.
  exists st'. split; [exact Hrun'|]. split.
  - intros i device Hi. destruct (Hinputs i device Hi) as [Hslot Hsrc].
    eexists _, _. split; [exact Hslot|]. split; [exact Hsrc|].
    cbn. auto.
  - intros i device Hi. destruct (Houtputs i device Hi) as [Hslot Hsrc].
    eexists _, _. split; [exact Hslot|]. split; [exact Hsrc|].
    cbn. auto.
Qed.

Lemma X12_selection_mutes_witness :
  exists st',
    @setupSources exampleRuntime 0%nat "mic-1" "none"
      (exampleEngine (exampleDevices "mic" 2) (exampleDevices "speaker" 1))
    = (Normal tt, st') /\
    (forall i device,
        audioInputDevices
          (exampleEngine (exampleDevices "mic" 2) (exampleDevices "speaker" 1)) !! i
        = Some device ->
        exists src source,
          outputSources st' !! (2 + Z.of_nat i) = Some src /\
          objects st' !! src = Some source /\
          typeId source = "wasapi_input_capture" /\
          device_id source = Some (Device.id device) /\
          muted source = Some (isMuted "mic-1" device)) /\
    (forall i device,
        audioOutputDevices
          (exampleEngine (exampleDevices "mic" 2) (exampleDevices "speaker" 1)) !! i
        = Some device ->
        exists src source,
          outputSources st'
            !! (2 + Z.of_nat (length (audioInputDevices
                  (exampleEngine (exampleDevices "mic" 2)
                                 (exampleDevices "speaker" 1))))
                + Z.of_nat i)
          = Some src /\
          objects st' !! src = Some source /\
          typeId source = "wasapi_output_capture" /\
          device_id source = Some (Device.id device) /\
          muted source = Some (isMuted "none" device)).
Proof.
  refine (proj1 (@X12_selection_mutes_by_kind exampleRuntime 0%nat "mic-1" "none"
                   (exampleEngine (exampleDevices "mic" 2)
                                  (exampleDevices "speaker" 1))
                   (setupSources 0%nat "mic-1" "none") _ (or_introl eq_refl))).
  vm_compute. eexists. reflexivity.
Defined.

Section TrackCount.
Context {rt : JSRuntime}.

Lemma map_alter_same {A B : Type} (g : A -> B) (f : A -> A) (l : list A) :
  (forall x, g (f x) = g x) ->
  forall i : nat, map g (alter f i l) = map g l.
Proof.
  intros Hg. induction l as [|x l IH]; intros [|i]; cbn; try reflexivity.
  - rewrite Hg. reflexivity.
  - f_equal. apply IH.
Qed.

Lemma setSetting_objects (category parameter : string) (value : jsval) (st : obs) :
  objects (snd (setSetting category parameter value st)) = objects st.
Proof.
  unfold setSetting. destruct (settingsStore st !! category); [|reflexivity].
  destruct (forEachSubCategory _ _ _ _) as [oldValue settings'].
  destruct (negb _); reflexivity.
Qed.

Lemma clearSlot_deviceIds (index : Z) (st : obs) :
  deviceIds (snd (clearSlot index st)) = deviceIds st.
Proof.
  unfold clearSlot, bind, Global_getOutputSource.
  destruct (outputSources st !! index) as [src|]; [|reflexivity].
  pose proof (setSetting_objects "Output" (trackName index) (VString EmptyString) st)
    as Hobj.
  destruct (setSetting _ _ _ st) as [[[]|e] st1]; cbn [snd] in Hobj;
    unfold deviceIds; cbn; [|rewrite Hobj; reflexivity].
  rewrite !map_alter_same by reflexivity. rewrite Hobj. reflexivity.
Qed.

Lemma clearLoop_deviceIds (slots : list Z) :
  forall st : obs, deviceIds (snd (forEach slots clearSlot st)) = deviceIds st.
Proof.
  induction slots as [|index rest IH]; intros st; [reflexivity|].
  cbn [forEach]. unfold bind.
  pose proof (clearSlot_deviceIds index st) as Hone.
  destruct (clearSlot index st) as [[[]|e] st1]; cbn [snd] in *.
  - rewrite IH. exact Hone.
  - exact Hone.
Qed.

(** [clearSources] changes the flags of sources, never what they stand
    for. *)
Lemma clearSources_deviceIds (st : obs) :
  deviceIds (snd (clearSources st)) = deviceIds st.
Proof.
  unfold clearSources, bind.
  pose proof (clearLoop_deviceIds (seqZ 1 (64 - 1)) st) as Hloop.
  destruct (forEach _ clearSlot st) as [[[]|e] st1]; cbn [snd] in *;
    [|exact Hloop].
  unfold deviceIds in *. rewrite setSetting_objects. exact Hloop.
Qed.

Lemma filter_none {A : Type} (f : A -> bool) (l : list A) :
  (forall x, In x l -> f x = false) -> List.filter f l = [].
Proof.
  induction l as [|x l IH]; intros H; [reflexivity|].
  cbn [List.filter]. rewrite (H x) by (left; reflexivity).
  apply IH. intros y Hy. apply H. right. exact Hy.
Qed.

Lemma filter_all {A : Type} (f : A -> bool) (l : list A) :
  (forall x, In x l -> f x = true) -> List.filter f l = l.
Proof.
  induction l as [|x l IH]; intros H; [reflexivity|].
  cbn [List.filter]. rewrite (H x) by (left; reflexivity).
  f_equal. apply IH. intros y Hy. apply H. right. exact Hy.
Qed.

Lemma In_seqZ (a n k : Z) : In k (seqZ a n) -> a <= k < a + n.
Proof. intros H. apply list_elem_of_In in H. apply elem_of_seqZ in H. exact H. Qed.

(** Counting over the 64 slots, cut where the devices end. *)
Lemma count_slots (f : Z -> bool) (N : nat) :
  (N <= 62)%nat ->
  f 1 = false ->
  (forall k, 2 <= k < 2 + Z.of_nat N -> f k = true) ->
  (forall k, 2 + Z.of_nat N <= k <= 64 -> f k = false) ->
  length (List.filter f (seqZ 1 64)) = N.
Proof.
  intros HN H1 Htrue Hfalse.
  replace 64 with (1 + (Z.of_nat N + (63 - Z.of_nat N))) by lia.
  rewrite seqZ_app, seqZ_app by lia.
  rewrite !List.filter_app, !length_app.
  rewrite (filter_none f (seqZ 1 1)).
  2:{ intros k Hk. apply In_seqZ in Hk. replace k with 1 by lia. exact H1. }
  rewrite (filter_all f (seqZ (1 + 1) (Z.of_nat N))).
  2:{ intros k Hk. apply In_seqZ in Hk. apply Htrue. lia. }
  rewrite (filter_none f (seqZ (1 + 1 + Z.of_nat N) (63 - Z.of_nat N))).
  2:{ intros k Hk. apply In_seqZ in Hk. apply Hfalse. lia. }
  rewrite length_seqZ. cbn [length]. lia.
Qed.

End TrackCount.

(** X13.  With at most 62 audio devices the rebuild leaves no source
    behind.  On an engine whose Output category has data, whose scene is an
    object that stands for no device and whose slot 64 is empty,
    [setupSources] returns normally and exactly one audio source per
    device is registered over the 64 slots, whatever was registered
    before; the three conditions hold again afterwards, so the count is
    right after any number of rebuilds, also when the devices change in
    between. *)
Theorem X13_rebuild_registers_one_source_per_device {rt : JSRuntime}
    (scene : nat) (inputId outputId : string) (st : obs) (sceneObject : Source) :
  is_Some (settingsStore st !! "Output") ->
  objects st !! scene = Some sceneObject ->
  device_id sceneObject = None ->
  outputSources st !! 64 = None ->
  (length (audioInputDevices st) + length (audioOutputDevices st) <= 62)%nat ->
  exists st',
    setupSources scene inputId outputId st = (Normal tt, st') /\
    registeredAudioSources st'
    = (length (audioInputDevices st) + length (audioOutputDevices st))%nat /\
    is_Some (settingsStore st' !! "Output") /\
    (exists sceneObject', objects st' !! scene = Some sceneObject' /\
                          device_id sceneObject' = None) /\
    outputSources st' !! 64 = None.
Proof.
  intros Hout Hscene Hnone H64 HN.
  pose proof (clearSources_deviceIds st) as Hids.
  destruct (clearSources_spec st Hout)
    as (st1 & Hrun1 & Hout1 & Hempty & Hsame & Hlen & Hin & Hou & _).
  rewrite Hrun1 in Hids. cbn [snd] in Hids.
  assert (exists o1, objects st1 !! scene = Some o1 /\ device_id o1 = None)
    as (o1 & Hscene1 & Hnone1).
  { assert (deviceIds st1 !! scene = Some None) as Hid.
    { rewrite Hids. unfold deviceIds. rewrite list_lookup_fmap, Hscene.
      cbn. rewrite Hnone. reflexivity. }
    unfold deviceIds in Hid. rewrite list_lookup_fmap in Hid.
    destruct (objects st1 !! scene) as [o1|]; [|discriminate].
    exists o1. split; [reflexivity|]. cbn in Hid. congruence. }
  destruct (allocateTracks_sources scene inputId outputId st1 Hout1)
    as (st' & Hrun & Hout' & _ & _ & Hslot1 & Hinputs & Houtputs & Hrest & Hold).
  rewrite Hin, Hou in *.
  set (n := length (audioInputDevices st)) in *.
  set (m := length (audioOutputDevices st)) in *.
  assert (scene < length (objects st1))%nat as Hlt
    by (apply lookup_lt_Some in Hscene1; exact Hscene1).
  assert (outputSources st' !! 64 = None) as H64'.
  { rewrite Hrest by lia. rewrite Hsame by lia. exact H64. }
  exists st'. split.
  { unfold setupSources. rewrite (bind_normal _ _ _ _ _ Hrun1). exact Hrun. }
  split; [|split; [exact Hout'|split; [|exact H64']]].
  - unfold registeredAudioSources. apply count_slots.
    + exact HN.
    + unfold holdsAudioSource. rewrite Hslot1, (Hold _ Hlt), Hscene1.
      unfold isAudioSource. rewrite Hnone1. reflexivity.
    + intros k Hk. unfold holdsAudioSource.
      destruct (Z.lt_ge_cases k (2 + Z.of_nat n)) as [Hki|Hko].
      * destruct (lookup_lt_is_Some_2 (audioInputDevices st) (Z.to_nat (k - 2)))
          as [device Hdev]; [fold n; lia|].
        destruct (Hinputs _ _ Hdev) as [Hslot Hsrc].
        replace (2 + Z.of_nat (Z.to_nat (k - 2))) with k in Hslot by lia.
        rewrite Hslot, Hsrc. reflexivity.
      * destruct (lookup_lt_is_Some_2 (audioOutputDevices st)
                    (Z.to_nat (k - 2 - Z.of_nat n)))
          as [device Hdev]; [fold m; lia|].
        destruct (Houtputs _ _ Hdev) as [Hslot Hsrc].
        replace (2 + Z.of_nat n + Z.of_nat (Z.to_nat (k - 2 - Z.of_nat n)))
          with k in Hslot by lia.
        rewrite Hslot, Hsrc. reflexivity.
    + intros k Hk. unfold holdsAudioSource.
      rewrite Hrest by lia.
      destruct (Z.eq_dec k 64) as [->|Hne].
      * rewrite Hsame by lia. rewrite H64. reflexivity.
      * rewrite Hempty by lia. reflexivity.
  - exists o1. split; [|exact Hnone1]. rewrite (Hold _ Hlt). exact Hscene1.
Qed.

Lemma X13_rebuild_witness :
  exists st',
    @setupSources exampleRuntime 0%nat "all" "all"
      (exampleEngine (exampleDevices "mic" 2) (exampleDevices "speaker" 1))
    = (Normal tt, st') /\
    registeredAudioSources st'
    = (length (audioInputDevices
                 (exampleEngine (exampleDevices "mic" 2) (exampleDevices "speaker" 1)))
       + length (audioOutputDevices
                   (exampleEngine (exampleDevices "mic" 2)
                                  (exampleDevices "speaker" 1))))%nat /\
    is_Some (settingsStore st' !! "Output") /\
    (exists sceneObject', objects st' !! 0%nat = Some sceneObject' /\
                          device_id sceneObject' = None) /\
    outputSources st' !! 64 = None.
Proof.
  refine (@X13_rebuild_registers_one_source_per_device exampleRuntime 0%nat
            "all" "all"
            (exampleEngine (exampleDevices "mic" 2) (exampleDevices "speaker" 1))
            _ _ eq_refl eq_refl eq_refl _).
  - vm_compute. eexists. reflexivity.
  - vm_compute. lia.
Defined.

(** ** The life cycle *)

(** X14.  [shutdown] on a module that is not initialised returns [false]
    and does nothing.  On an initialised module whose two native calls do
    not raise it calls [OBS_service_removeCallback], then
    [IPC.disconnect], clears the flag and returns [true]; a second
    [shutdown] then returns [false] without any call, and [start] throws
    "OBS not initialised".  When a native call raises, [shutdown] throws
    an [Error] whose message is the fixed prefix followed by the text of
    what was raised, and the flag stays set; if it is the first call that
    raises, [IPC.disconnect] is not called. *)
Theorem X14_shutdown_once {rt : JSRuntime} (st : session) :
  (obsInitialized (recorderOf st) = false -> shutdown st = (Normal false, st)) /\
  (obsInitialized (recorderOf st) = true ->
   removeCallbackError st = None -> disconnectError st = None ->
   exists st',
     shutdown st = (Normal true, st') /\
     obsInitialized (recorderOf st') = false /\
     nativeCalls st' = IPC_disconnect :: OBS_service_removeCallback :: nativeCalls st /\
     shutdown st' = (Normal false, st') /\
     start (recorderOf st') = (Throw (Error "OBS not initialised"), recorderOf st')) /\
  (obsInitialized (recorderOf st) = true ->
   forall e,
     (removeCallbackError st = Some e ->
      fst (shutdown st)
      = Throw (Error ("Exception when shutting down OBS process" +:+ e)) /\
      obsInitialized (recorderOf (snd (shutdown st))) = true /\
      nativeCalls (snd (shutdown st)) = OBS_service_removeCallback :: nativeCalls st) /\
     (removeCallbackError st = None -> disconnectError st = Some e ->
      fst (shutdown st)
      = Throw (Error ("Exception when shutting down OBS process" +:+ e)) /\
      obsInitialized (recorderOf (snd (shutdown st))) = true /\
      nativeCalls (snd (shutdown st))
      = IPC_disconnect :: OBS_service_removeCallback :: nativeCalls st)).
Proof.
  split; [|split].
  - intros Hflag. unfold shutdown. rewrite Hflag. reflexivity.
  - intros Hflag Hremove Hdisconnect.
    unfold shutdown. rewrite Hflag, Hremove, Hdisconnect. cbn [negb].
    eexists. split; [reflexivity|].
    repeat split.
  - intros Hflag e. split.
    + intros Hremove. unfold shutdown. rewrite Hflag, Hremove. cbn.
      rewrite Hflag. repeat split.
    + intros Hremove Hdisconnect.
      unfold shutdown. rewrite Hflag, Hremove, Hdisconnect. cbn.
      rewrite Hflag. repeat split.
Qed.

Lemma X14_shutdown_witness :
  exists st',
    shutdown (withRecorder (exampleSession 0 (exampleEngine [] []))
                           (exampleRecorder []))
    = (Normal true, st') /\
    obsInitialized (recorderOf st') = false /\
    nativeCalls st'
    = IPC_disconnect :: OBS_service_removeCallback
      :: nativeCalls (withRecorder (exampleSession 0 (exampleEngine [] []))
                                   (exampleRecorder [])) /\
    shutdown st' = (Normal false, st') /\
    @start exampleRuntime (recorderOf st')
    = (Throw (Error "OBS not initialised"), recorderOf st').
Proof.
  apply (proj1 (proj2 (@X14_shutdown_once exampleRuntime
                         (withRecorder (exampleSession 0 (exampleEngine [] []))
                                       (exampleRecorder [])))));
    reflexivity.
Defined.

Section LifecycleProperties.
Context {rt : JSRuntime}.

(** The part of the module that only the life cycle functions write. *)
Lemma onEngine_host {A : Type} (call : M obs A) (st : session) :
  recorderOf (snd (onEngine call st)) = recorderOf st /\
  nativeCalls (snd (onEngine call st)) = nativeCalls st /\
  scene (snd (onEngine call st)) = scene st /\
  timerVideoSourceSize (snd (onEngine call st)) = timerVideoSourceSize st /\
  activeIntervals (snd (onEngine call st)) = activeIntervals st.
Proof.
  unfold onEngine. destruct (call (engineOf st)) as [r e]. repeat split.
Qed.

End LifecycleProperties.

(** X15.  When [OBS_API_initAPI] returns a value other than 0,
    [initialize] on a module that is not initialised throws an [Error]
    with the message of the table (for -2 and -5) or the message that
    names the value.  The [shutdown] that [initOBS] calls first finds the
    flag unset and does nothing: the only native calls made are
    [IPC.host], [SetWorkingDirectory] and [OBS_API_initAPI], in this
    order; the IPC connection is not given up, the signals are not
    connected and nothing else of the module changes. *)
Theorem X15_failed_init_undoes_nothing {rt : JSRuntime}
    (options : RecorderOptionsType) (st : session) :
  obsInitialized (recorderOf st) = false ->
  initResult st <> 0 ->
  initialize options st
  = (Throw (Error (errorMessage (initResult st))),
     withCalls st (OBS_API_initAPI :: SetWorkingDirectory :: IPC_host
                   :: nativeCalls st)) /\
  (forall result,
      result <> -2 -> result <> -5 ->
      errorMessage result
      = "An unknown error #" +:+ pretty result
        +:+ " was encountered while initializing OBS.") /\
  errorReasons (-2) <> None /\ errorReasons (-5) <> None.
Proof.
  intros Hflag Hresult. split; [|split; [|split; discriminate]].
  - unfold initialize. rewrite Hflag.
    unfold initOBS, bind, native. cbn [initResult withCalls].
    destruct (Z.eqb_spec (initResult st) 0) as [Hz|_]; [contradiction|].
    cbn [negb]. unfold shutdown. cbn [recorderOf withCalls]. rewrite Hflag.
    reflexivity.
  - intros result H2 H5. unfold errorMessage, errorReasons.
    destruct (Z.eqb_spec result (-2)) as [->|_]; [contradiction|].
    destruct (Z.eqb_spec result (-5)) as [->|_]; [contradiction|].
    reflexivity.
Qed.

Lemma X15_failed_init_witness :
  @initialize exampleRuntime (exampleOptions None)
    (exampleSession (-5) (exampleEngine [] []))
  = (Throw (Error (errorMessage
                     (initResult (exampleSession (-5) (exampleEngine [] []))))),
     withCalls (exampleSession (-5) (exampleEngine [] []))
       (OBS_API_initAPI :: SetWorkingDirectory :: IPC_host
        :: nativeCalls (exampleSession (-5) (exampleEngine [] [])))).
Proof.
  apply (@X15_failed_init_undoes_nothing exampleRuntime (exampleOptions None)
           (exampleSession (-5) (exampleEngine [] []))).
  - reflexivity.
  - discriminate.
Defined.

Section Keeping.
Context {rt : JSRuntime}.

Lemma keeps_bind {A B : Type} (P : session -> Prop) (m : M session A)
    (k : A -> M session B) :
  keeps P m -> (forall a, keeps P (k a)) -> keeps P (bind m k).
Proof.
  intros Hm Hk st HP. unfold bind.
  specialize (Hm st HP). destruct (m st) as [[a|e] st1]; cbn [snd] in *.
  - apply Hk. exact Hm.
  - exact Hm.
Qed.

Lemma keeps_ret {A : Type} (P : session -> Prop) (a : A) : keeps P (ret a).
Proof. intros st HP. exact HP. Qed.

Lemma keeps_throw {A : Type} (P : session -> Prop) (e : error) :
  keeps P (@throw session A e).
Proof. intros st HP. exact HP. Qed.

Lemma keeps_onEngine {A : Type} (P : session -> Prop) (call : M obs A) :
  ignoresScene P -> keeps P (onEngine call).
Proof.
  intros HI st HP. unfold onEngine.
  destruct (call (engineOf st)) as [r e]. apply (HI st HP).
Qed.

Lemma keeps_updateSettings (P : session -> Prop) (videoSource : nat)
    (settings : list (string * jsval)) :
  ignoresScene P -> keeps P (updateSettings videoSource settings).
Proof. intros HI st HP. apply (HI st HP). Qed.

Lemma keeps_captureSource (P : session -> Prop) (options : RecorderOptionsType)
    (outputResolution : Size) :
  ignoresScene P -> keeps P (captureSource options outputResolution).
Proof.
  intros HI. unfold captureSource.
  destruct (String.eqb _ "monitor_capture").
  - apply keeps_bind; [intros st HP; exact HP|].
    intros [display|]; [|apply keeps_throw].
    apply keeps_bind; [|intros a; apply keeps_ret].
    apply keeps_bind; [apply keeps_onEngine, HI|].
    intros a. apply keeps_bind; [apply keeps_updateSettings, HI|].
    intros _. apply keeps_ret.
  - destruct (String.eqb _ "game_capture"); [|apply keeps_throw].
    apply keeps_bind; [|intros a; apply keeps_ret].
    apply keeps_bind; [apply keeps_onEngine, HI|].
    intros a. apply keeps_bind; [apply keeps_updateSettings, HI|].
    intros _. apply keeps_ret.
Qed.

Lemma keeps_setupScene (P : session -> Prop) (options : RecorderOptionsType) :
  ignoresScene P ->
  (forall item source base, keeps P (watchVideoSourceSize item source base)) ->
  keeps P (setupScene options).
Proof.
  intros HI Hwatch. unfold setupScene.
  apply keeps_bind; [apply keeps_onEngine, HI|]. intros _.
  apply keeps_bind; [apply keeps_captureSource, HI|]. intros [base source].
  apply keeps_bind; [apply keeps_onEngine, HI|]. intros _.
  apply keeps_bind; [apply keeps_onEngine, HI|]. intros newScene.
  apply keeps_bind; [intros st HP; apply (HI st HP)|]. intros _.
  apply keeps_bind; [intros st HP; apply (HI st HP)|]. intros item.
  apply Hwatch.
Qed.

Lemma keeps_reconfigure (P : session -> Prop) (options : RecorderOptionsType) :
  ignoresScene P ->
  (forall item source base, keeps P (watchVideoSourceSize item source base)) ->
  keeps P (reconfigure options).
Proof.
  intros HI Hwatch. unfold reconfigure.
  apply keeps_bind; [apply keeps_onEngine, HI|]. intros _.
  apply keeps_bind; [apply keeps_setupScene; assumption|]. intros _.
  intros st HP. destruct (scene st); [|exact HP].
  apply keeps_onEngine; assumption.
Qed.

Lemma hostSide_ignoresScene (c : recorder * list nativeCall) :
  ignoresScene (fun st => hostSide st = c).
Proof. intros st HP. split; intros; exact HP. Qed.

Lemma reconfigure_hostSide (options : RecorderOptionsType) (st : session) :
  hostSide (snd (reconfigure options st)) = hostSide st.
Proof.
  apply (keeps_reconfigure (fun s => hostSide s = hostSide st) options).
  - apply hostSide_ignoresScene.
  - intros item source base s HP. exact HP.
  - reflexivity.
Qed.

(** A [reconfigure] that returns has assigned [scene]. *)
Lemma reconfigure_scene (options : RecorderOptionsType) (st st' : session) :
  reconfigure options st = (Normal tt, st') -> is_Some (scene st').
Proof.
  unfold reconfigure. intros Hrun.
  apply bind_normal_inv in Hrun as ([] & st1 & _ & Hrun).
  apply bind_normal_inv in Hrun as ([] & st2 & _ & Hrun).
  destruct (scene st2) as [current|] eqn:Hscene; [|discriminate].
  pose proof (onEngine_host
                (setupSources current (audioInputDeviceId options)
                              (audioOutputDeviceId options)) st2)
    as (_ & _ & Hkeep & _).
  rewrite Hrun in Hkeep. cbn [snd] in Hkeep. rewrite Hkeep, Hscene. eauto.
Qed.

Lemma timersTracked_ignoresScene : ignoresScene timersTracked.
Proof. intros st HP. split; intros; exact HP. Qed.

(** [watchVideoSourceSize] leaves exactly its own timer running. *)
Lemma watchVideoSourceSize_single (item source : nat) (base : Size) (st : session) :
  timersTracked st ->
  timersTracked (snd (watchVideoSourceSize item source base st)) /\
  activeIntervals (snd (watchVideoSourceSize item source base st))
  = [{| timerId := nextInterval st; watchedItem := item;
        watchedSource := source; watchedBase := base |}].
Proof.
  unfold timersTracked, watchVideoSourceSize. cbn [snd withTimers
    activeIntervals timerVideoSourceSize].
  intros Htracked.
  assert (match timerVideoSourceSize st with
          | Some timer =>
              List.filter (fun i => negb (Nat.eqb (timerId i) timer))
                          (activeIntervals st)
          | None => activeIntervals st
          end = []) as ->.
  { destruct (timerVideoSourceSize st) as [timer|].
    - destruct (activeIntervals st) as [|i [|j l]]; try discriminate.
      cbn in Htracked. injection Htracked as Hid.
      cbn. rewrite Hid, Nat.eqb_refl. reflexivity.
    - destruct (activeIntervals st); [reflexivity|discriminate]. }
  split; reflexivity.
Qed.

End Keeping.

(** X16.  [initialize] sets the flag only when everything went through.
    On an initialised module it does nothing.  On a module that is not
    initialised: if it returns, the flag is set, [scene] is assigned and
    the four native calls of [initOBS] were made, the connection of the
    signals last; if it throws, the flag is still unset, so a [shutdown]
    that follows returns [false] and makes no native call, and when the
    failure came after a successful [OBS_API_initAPI] (a failure while
    configuring) the engine stays hosted with its signals connected. *)
Theorem X16_initialize_sets_the_flag_last {rt : JSRuntime}
    (options : RecorderOptionsType) (st : session) :
  (obsInitialized (recorderOf st) = true -> initialize options st = (Normal tt, st)) /\
  (obsInitialized (recorderOf st) = false ->
   (forall st',
       initialize options st = (Normal tt, st') ->
       obsInitialized (recorderOf st') = true /\
       is_Some (scene st') /\
       nativeCalls st'
       = OBS_service_connectOutputSignals :: OBS_API_initAPI
         :: SetWorkingDirectory :: IPC_host :: nativeCalls st) /\
   (forall e st',
       initialize options st = (Throw e, st') ->
       obsInitialized (recorderOf st') = false /\
       shutdown st' = (Normal false, st') /\
       (initResult st = 0 ->
        nativeCalls st'
        = OBS_service_connectOutputSignals :: OBS_API_initAPI
          :: SetWorkingDirectory :: IPC_host :: nativeCalls st))).
Proof.
  split.
  - intros Hflag. unfold initialize. rewrite Hflag. reflexivity.
  - intros Hflag.
    assert (forall s, obsInitialized (recorderOf s) = false ->
                      shutdown s = (Normal false, s)) as Hidle.
    { intros s Hs. unfold shutdown. rewrite Hs. reflexivity. }
    unfold initialize. rewrite Hflag.
    destruct (Z.eqb_spec (initResult st) 0) as [Hzero|Hfail].
    + set (st0 := withCalls st (OBS_service_connectOutputSignals
                                :: OBS_API_initAPI :: SetWorkingDirectory
                                :: IPC_host :: nativeCalls st)).
      assert (initOBS st = (Normal tt, st0)) as Hinit.
      { unfold initOBS, bind, native. cbn [initResult withCalls].
        rewrite Hzero. reflexivity. }
      rewrite (bind_normal _ _ _ _ _ Hinit).
      pose proof (reconfigure_hostSide options st0) as Hhost.
      unfold bind.
      destruct (reconfigure options st0) as [[[]|e] st1] eqn:Hrun;
        cbn [snd] in Hhost; injection Hhost as Hrec Hcalls.
      * split.
        -- intros st' [= <-]. split; [reflexivity|].
           split; [exact (reconfigure_scene _ _ _ Hrun)|exact Hcalls].
        -- intros e st' [=].
      * split.
        -- intros st' [=].
        -- intros e' st' [= _ <-].
           assert (obsInitialized (recorderOf st1) = false) as Hflag1
             by (rewrite Hrec; exact Hflag).
           split; [exact Hflag1|]. split; [apply Hidle, Hflag1|].
           intros _. exact Hcalls.
    + unfold initOBS, bind, native. cbn [initResult withCalls].
      destruct (Z.eqb_spec (initResult st) 0) as [Hz|_]; [contradiction|].
      cbn [negb]. unfold shutdown. cbn [recorderOf withCalls]. rewrite Hflag.
      cbn [negb bind throw]. split.
      * intros st' [=].
      * intros e st' [= _ <-]. split; [exact Hflag|].
        split; [apply Hidle, Hflag|]. intros Hz. contradiction.
Qed.

Lemma X16_initialize_witness :
  obsInitialized
    (recorderOf
       (snd (@initialize exampleRuntime
               (withCaptureMode (exampleOptions None) "window_capture")
               (exampleSession 0 (exampleEngine [] []))))) = false /\
  shutdown (snd (@initialize exampleRuntime
                   (withCaptureMode (exampleOptions None) "window_capture")
                   (exampleSession 0 (exampleEngine [] []))))
  = (Normal false,
     snd (@initialize exampleRuntime
            (withCaptureMode (exampleOptions None) "window_capture")
            (exampleSession 0 (exampleEngine [] [])))) /\
  (initResult (exampleSession 0 (exampleEngine [] [])) = 0 ->
   nativeCalls (snd (@initialize exampleRuntime
                       (withCaptureMode (exampleOptions None) "window_capture")
                       (exampleSession 0 (exampleEngine [] []))))
   = OBS_service_connectOutputSignals :: OBS_API_initAPI
     :: SetWorkingDirectory :: IPC_host
     :: nativeCalls (exampleSession 0 (exampleEngine [] []))).
Proof.
  apply (proj2 (proj2 (@X16_initialize_sets_the_flag_last exampleRuntime
                         (withCaptureMode (exampleOptions None) "window_capture")
                         (exampleSession 0 (exampleEngine [] [])))
                      eq_refl)
           (Error "[OBS] Invalid capture mode: window_capture")).
  vm_compute. reflexivity.
Defined.

Section Timers.
Context {rt : JSRuntime}.

Lemma keeps_run {A : Type} (P : session -> Prop) (call : M session A)
    (st st' : session) (r : completion A) :
  keeps P call -> P st -> call st = (r, st') -> P st'.
Proof. intros Hk HP Hrun. specialize (Hk st HP). rewrite Hrun in Hk. exact Hk. Qed.

(** [shutdown] writes the flag and the log of native calls, nothing
    else. *)
Lemma shutdown_frame (st : session) :
  activeIntervals (snd (shutdown st)) = activeIntervals st /\
  timerVideoSourceSize (snd (shutdown st)) = timerVideoSourceSize st /\
  engineOf (snd (shutdown st)) = engineOf st /\
  scene (snd (shutdown st)) = scene st.
Proof.
  unfold shutdown. destruct (negb _); [repeat split|].
  unfold bind, rethrow, nativeOrRaise, setInitialized, ret.
  destruct (removeCallbackError st); cbn; [repeat split|].
  destruct (disconnectError st); cbn; repeat split.
Qed.

Lemma keeps_shutdown_timers : keeps timersTracked shutdown.
Proof.
  intros st HP. unfold timersTracked in *.
  destruct (shutdown_frame st) as (-> & -> & _). exact HP.
Qed.

Lemma keeps_initOBS_timers : keeps timersTracked initOBS.
Proof.
  unfold initOBS.
  repeat (apply keeps_bind; [intros s Hs; exact Hs|intros _]).
  intros s Hs. destruct (negb _); [|exact Hs].
  apply (keeps_bind timersTracked shutdown
           (fun _ => throw (Error (errorMessage (initResult s))))
           keeps_shutdown_timers (fun _ => keeps_throw _ _) s Hs).
Qed.

Lemma watch_keeps_timers (item source : nat) (base : Size) :
  keeps timersTracked (watchVideoSourceSize item source base).
Proof. intros s Hs. apply (watchVideoSourceSize_single item source base s Hs). Qed.

(** What a [setupScene] that returns leaves behind. *)
Lemma setupScene_result (options : RecorderOptionsType) (st st' : session) :
  timersTracked st ->
  setupScene options st = (Normal tt, st') ->
  exists (timer : interval) (current : nat),
    activeIntervals st' = [timer] /\
    timerId timer = nextInterval st /\
    scene st' = Some current /\
    sceneItems st' !! watchedItem timer = Some (current, watchedSource timer).
Proof.
  intros Htracked Hrun.
  set (P := fun s : session => timersTracked s /\ nextInterval s = nextInterval st).
  assert (ignoresScene P) as HI.
  { intros s [H1 H2]. split; intros; split; assumption. }
  assert (P st) as HP by (split; [exact Htracked|reflexivity]).
  unfold setupScene in Hrun.
  apply bind_normal_inv in Hrun as ([] & s1 & H1 & Hrun).
  apply (keeps_run P _ _ _ _ (keeps_onEngine P _ HI) HP) in H1.
  apply bind_normal_inv in Hrun as ([base source] & s2 & H2 & Hrun).
  apply (keeps_run P _ _ _ _ (keeps_captureSource P _ _ HI) H1) in H2.
  apply bind_normal_inv in Hrun as ([] & s3 & H3 & Hrun).
  apply (keeps_run P _ _ _ _ (keeps_onEngine P _ HI) H2) in H3.
  apply bind_normal_inv in Hrun as (newScene & s4 & H4 & Hrun).
  apply (keeps_run P _ _ _ _ (keeps_onEngine P _ HI) H3) in H4.
  apply bind_normal_inv in Hrun as ([] & s5 & H5 & Hrun).
  injection H5 as <-.
  apply bind_normal_inv in Hrun as (item & s6 & H6 & Hrun).
  injection H6 as <- <-.
  destruct H4 as [Htr Hnext].
  match type of Hrun with
  | watchVideoSourceSize ?i ?v ?b ?s = _ =>
      destruct (watchVideoSourceSize_single i v b s Htr) as [_ Hone];
      rewrite Hrun in Hone; cbn [snd] in Hone
  end.
  injection Hrun as <-.
  eexists _, newScene. split; [exact Hone|].
  cbn [timerId watchedItem watchedSource nextInterval withScene withTimers
       scene sceneItems].
  split; [exact Hnext|]. split; [reflexivity|].
  rewrite lookup_app_r by lia. rewrite Nat.sub_diag. reflexivity.
Qed.

End Timers.

(** X17.  At most one interval timer runs.  If the timers that run are
    the one held in [timerVideoSourceSize] (as in a fresh module, where
    there is none), this is so again after [setupScene], [reconfigure],
    [initialize] and [shutdown], however they end; a [setupScene] that
    returns leaves exactly one timer running, a new one that watches the
    item just added to the new scene.  [shutdown] stops no timer: the
    timer of the last scene keeps running after the engine is gone. *)
Theorem X17_one_interval_timer {rt : JSRuntime}
    (options : RecorderOptionsType) (st : session) :
  timersTracked st ->
  timersTracked (snd (setupScene options st)) /\
  timersTracked (snd (reconfigure options st)) /\
  timersTracked (snd (initialize options st)) /\
  (length (activeIntervals (snd (reconfigure options st))) <= 1)%nat /\
  activeIntervals (snd (shutdown st)) = activeIntervals st /\
  timerVideoSourceSize (snd (shutdown st)) = timerVideoSourceSize st /\
  (forall st',
      setupScene options st = (Normal tt, st') ->
      exists (timer : interval) (current : nat),
        activeIntervals st' = [timer] /\
        timerId timer = nextInterval st /\
        scene st' = Some current /\
        sceneItems st' !! watchedItem timer = Some (current, watchedSource timer)).
Proof.
  intros Htracked.
  assert (timersTracked (snd (reconfigure options st))) as Hre.
  { apply keeps_reconfigure;
      [apply timersTracked_ignoresScene|apply watch_keeps_timers|exact Htracked]. }
  split; [|split; [exact Hre|split; [|split; [|split; [|split]]]]].
  - apply keeps_setupScene;
      [apply timersTracked_ignoresScene|apply watch_keeps_timers|exact Htracked].
  - unfold initialize. destruct (obsInitialized (recorderOf st)); [exact Htracked|].
    apply (keeps_bind timersTracked initOBS
             (fun _ => reconfigure options ;; setInitialized true));
      [apply keeps_initOBS_timers| |exact Htracked].
    intros _. apply keeps_bind.
    + apply keeps_reconfigure;
        [apply timersTracked_ignoresScene|apply watch_keeps_timers].
    + intros _ s Hs. exact Hs.
  - unfold timersTracked in Hre.
    apply (f_equal (@length nat)) in Hre. rewrite length_map in Hre.
    rewrite Hre. destruct (timerVideoSourceSize _); cbn; lia.
  - apply shutdown_frame.
  - apply shutdown_frame.
  - intros st' Hrun. exact (setupScene_result options st st' Htracked Hrun).
Qed.

Lemma X17_one_interval_timer_witness :
  (length (activeIntervals
             (snd (@reconfigure exampleRuntime (exampleOptions None)
                     (snd (@reconfigure exampleRuntime (exampleOptions None)
                             (exampleSession 0 (exampleEngine [] [])))))))
   <= 1)%nat.
Proof.
  apply (@X17_one_interval_timer exampleRuntime (exampleOptions None)
           (snd (@reconfigure exampleRuntime (exampleOptions None)
                   (exampleSession 0 (exampleEngine [] []))))).
  vm_compute. reflexivity.
Defined.

(** ** What [clearSources] does to the sources *)

Section Clearing.
Context {rt : JSRuntime}.

Lemma laterOf_refl (o : Source) : laterOf o o.
Proof. unfold laterOf. auto. Qed.

Lemma laterOf_trans (a b c : Source) : laterOf a b -> laterOf b c -> laterOf a c.
Proof.
  unfold laterOf. intros (H1 & H2 & H3 & H4) (K1 & K2 & K3 & K4).
  repeat split; try congruence; [lia|auto].
Qed.

Lemma laterOf_discarded (o : Source) : laterOf o (discarded o).
Proof. unfold laterOf, discarded. cbn. auto. Qed.

(** One round of the loop, with the state it leaves. *)
Lemma clearSlot_run (index : Z) (st : obs) :
  is_Some (settingsStore st !! "Output") ->
  exists st',
    clearSlot index st = (Normal tt, st') /\
    is_Some (settingsStore st' !! "Output") /\
    outputSources st' = delete index (outputSources st) /\
    objects st'
    = match outputSources st !! index with
      | Some src => alter discarded src (objects st)
      | None => objects st
      end.
Proof.
  intros Hout. unfold clearSlot.
  erewrite bind_normal by reflexivity.
  destruct (outputSources st !! index) as [src|] eqn:Hsrc.
  - destruct (setSetting_frame "Output" (trackName index) (VString EmptyString) st Hout)
      as (store & saved & Hset & Hkeep & _).
    rewrite (bind_normal _ _ _ _ _ Hset).
    do 2 (erewrite bind_normal by reflexivity).
    eexists. split; [reflexivity|].
    cbn [remove release updateSource Global_setOutputSource snd
         withSettings withObjects withOutputSources settingsStore savedSettings
         outputSources objects audioInputDevices audioOutputDevices].
    split; [apply Hkeep; exact Hout|]. split; [reflexivity|].
    rewrite list_alter_alter_eq. reflexivity.
  - exists st. split; [reflexivity|]. split; [exact Hout|].
    split; [symmetry; apply delete_id; exact Hsrc|reflexivity].
Qed.

Lemma alter_discarded_later (src j : nat) (objs : list Source) (o : Source) :
  objs !! j = Some o ->
  exists o', alter discarded src objs !! j = Some o' /\ laterOf o o'.
Proof.
  intros Hj. destruct (decide (src = j)) as [->|Hne].
  - rewrite list_lookup_alter_eq, Hj. eexists. split; [reflexivity|].
    apply laterOf_discarded.
  - rewrite list_lookup_alter_ne by exact Hne.
    exists o. split; [exact Hj|apply laterOf_refl].
Qed.

(** The loop of [clearSources] over slots without repetition. *)
Lemma clearLoop_objects (slots : list Z) :
  List.NoDup slots ->
  forall st : obs,
    is_Some (settingsStore st !! "Output") ->
    exists st',
      forEach slots clearSlot st = (Normal tt, st') /\
      (forall j o, objects st !! j = Some o ->
                   exists o', objects st' !! j = Some o' /\ laterOf o o') /\
      (forall j, (forall k, In k slots -> outputSources st !! k <> Some j) ->
                 objects st' !! j = objects st !! j) /\
      (forall k src o,
          In k slots -> outputSources st !! k = Some src ->
          objects st !! src = Some o ->
          exists o', objects st' !! src = Some o' /\
                     removed o' = true /\ (released o < released o')%nat /\
                     laterOf o o').
Proof.
  induction slots as [|index rest IH]; intros Hnodup st Hout.
  - exists st. split; [reflexivity|]. split; [|split].
    + intros j o Hj. exists o. split; [exact Hj|apply laterOf_refl].
    + reflexivity.
    + intros k src o [].
  - apply List.NoDup_cons_iff in Hnodup as [Hfresh Hnodup].
    destruct (clearSlot_run index st Hout) as (st1 & Hrun1 & Hout1 & Htab1 & Hobj1).
    destruct (IH Hnodup st1 Hout1) as (st' & Hrun & Hlater & Hsame & Hgone).
    assert (forall k, In k rest -> outputSources st1 !! k = outputSources st !! k)
      as Hrest.
    { intros k Hk. rewrite Htab1. apply lookup_delete_ne.
      intros ->. contradiction. }
    assert (forall j o, objects st !! j = Some o ->
                        exists o1, objects st1 !! j = Some o1 /\ laterOf o o1)
      as Hstep.
    { intros j o Hj. rewrite Hobj1.
      destruct (outputSources st !! index) as [src|].
      - apply alter_discarded_later. exact Hj.
      - exists o. split; [exact Hj|apply laterOf_refl]. }
    exists st'. split.
    { cbn [forEach]. rewrite (bind_normal _ _ _ _ _ Hrun1). exact Hrun. }
    split; [|split].
    + intros j o Hj. destruct (Hstep j o Hj) as (o1 & Hj1 & Hl1).
      destruct (Hlater j o1 Hj1) as (o' & Hj' & Hl').
      exists o'. split; [exact Hj'|]. eapply laterOf_trans; eassumption.
    + intros j Hj. rewrite Hsame.
      * rewrite Hobj1.
        destruct (outputSources st !! index) as [src|] eqn:Hsrc; [|reflexivity].
        apply list_lookup_alter_ne. intros ->.
        apply (Hj index); [left; reflexivity|exact Hsrc].
      * intros k Hk. rewrite (Hrest k Hk). apply Hj. right. exact Hk.
    + intros k src o [<-|Hk] Hsrc Ho.
      * assert (objects st1 !! src = Some (discarded o)) as H1.
        { rewrite Hobj1, Hsrc, list_lookup_alter_eq, Ho. reflexivity. }
        destruct (Hlater src _ H1) as (o' & Ho' & Hl').
        exists o'. split; [exact Ho'|].
        destruct Hl' as (Ht & Hd & Hr & Hrem). cbn in *.
        split; [apply Hrem; reflexivity|]. split; [lia|].
        unfold laterOf. repeat split; try assumption; [lia|auto].
      * destruct (Hstep src o Ho) as (o1 & Ho1 & Hl1).
        rewrite <- (Hrest k Hk) in Hsrc.
        destruct (Hgone k src o1 Hk Hsrc Ho1) as (o' & Ho' & Hrem & Hrel & Hl').
        exists o'. split; [exact Ho'|]. split; [exact Hrem|].
        split; [destruct Hl1 as (_ & _ & Hr & _); lia|].
        eapply laterOf_trans; eassumption.
Qed.

End Clearing.

(** X18.  On an engine whose Output category has data, [clearSources]
    discards what is registered and nothing else: every source that sits
    on one of the slots 1 to 63 (the scene on slot 1 included) is
    released at least once more and is removed afterwards, and keeps its
    kind and its device; an object that sits on none of these slots (a
    video source, or the source on slot 64) is left exactly as it was. *)
Theorem X18_clearSources_discards_what_is_registered {rt : JSRuntime} (st : obs) :
  is_Some (settingsStore st !! "Output") ->
  exists st',
    clearSources st = (Normal tt, st') /\
    (forall k src o,
        1 <= k <= 63 -> outputSources st !! k = Some src ->
        objects st !! src = Some o ->
        exists o', objects st' !! src = Some o' /\
                   removed o' = true /\ (released o < released o')%nat /\
                   typeId o' = typeId o /\ device_id o' = device_id o) /\
    (forall j,
        (forall k, 1 <= k <= 63 -> outputSources st !! k <> Some j) ->
        objects st' !! j = objects st !! j).
Proof.
  intros Hout. unfold clearSources.
  destruct (clearLoop_objects (seqZ 1 (64 - 1)) (proj1 (NoDup_ListNoDup _) (NoDup_seqZ _ _))
              st Hout) as (st1 & Hrun & _ & Hsame & Hgone).
  rewrite (bind_normal _ _ _ _ _ Hrun).
  assert (is_Some (settingsStore st1 !! "Output")) as Hout1.
  { destruct (clearSources_spec st Hout) as (st2 & Hrun2 & Hout2 & _).
    unfold clearSources in Hrun2. rewrite (bind_normal _ _ _ _ _ Hrun) in Hrun2.
    pose proof (setSetting_sameOffer "Output" "RecTracks" (VNumber (Num 0)) st1)
      as [Hdata _].
    rewrite Hrun2 in Hdata. cbn [snd] in Hdata. apply Hdata. exact Hout2. }
  pose proof (setSetting_outcome "Output" "RecTracks" (VNumber (Num 0)) st1) as Hres.
  pose proof (setSetting_objects "Output" "RecTracks" (VNumber (Num 0)) st1) as Hobj.
  unfold hasData in Hres. destruct Hout1 as [tree Htree]. rewrite Htree in Hres.
  destruct (setSetting "Output" "RecTracks" (VNumber (Num 0)) st1) as [r st'].
  cbn [fst snd] in *. subst r.
  exists st'. split; [reflexivity|]. rewrite Hobj. split.
  - intros k src o Hk Hsrc Ho.
    destruct (Hgone k src o) as (o' & Ho' & Hrem & Hrel & Hl); try assumption.
    { apply list_elem_of_In, elem_of_seqZ. lia. }
    exists o'. destruct Hl as (Ht & Hd & _). auto.
  - intros j Hj. apply Hsame. intros k Hk.
    apply In_seqZ in Hk. apply Hj. lia.
Qed.

Lemma X18_clearSources_witness :
  exists st',
    @clearSources exampleRuntime
      (snd (@setupSources exampleRuntime 0%nat "all" "all"
              (exampleEngine (exampleDevices "mic" 2) [])))
    = (Normal tt, st') /\
    (forall k src o,
        1 <= k <= 63 ->
        outputSources (snd (@setupSources exampleRuntime 0%nat "all" "all"
                              (exampleEngine (exampleDevices "mic" 2) []))) !! k
        = Some src ->
        objects (snd (@setupSources exampleRuntime 0%nat "all" "all"
                        (exampleEngine (exampleDevices "mic" 2) []))) !! src
        = Some o ->
        exists o', objects st' !! src = Some o' /\
                   removed o' = true /\ (released o < released o')%nat /\
                   typeId o' = typeId o /\ device_id o' = device_id o) /\
    (forall j,
        (forall k, 1 <= k <= 63 ->
                   outputSources (snd (@setupSources exampleRuntime 0%nat "all" "all"
                                         (exampleEngine (exampleDevices "mic" 2) [])))
                     !! k <> Some j) ->
        objects st' !! j
        = objects (snd (@setupSources exampleRuntime 0%nat "all" "all"
                          (exampleEngine (exampleDevices "mic" 2) []))) !! j).
Proof.
  apply (@X18_clearSources_discards_what_is_registered exampleRuntime
           (snd (@setupSources exampleRuntime 0%nat "all" "all"
                   (exampleEngine (exampleDevices "mic" 2) [])))).
  vm_compute. eexists. reflexivity.
Defined.

(** X19.  [setupScene] is not undone when it fails.  When the write of
    the output resolution went through and the capture mode is neither
    monitor_capture nor game_capture, or is monitor_capture while no
    display has the index [monitorIndex - 1], [setupScene] throws the
    [Error] that names the mode or the index; the engine then carries the
    new output resolution, and nothing else has happened: no source and no
    scene was created, [scene] and the timer are those of before. *)
Theorem X19_setupScene_fails_after_the_first_write {rt : JSRuntime}
    (options : RecorderOptionsType) (st : session) (engine : obs) :
  setOBSVideoResolution (parseResolutionsString (obsOutputResolution options))
                        "Output" (engineOf st)
  = (Normal tt, engine) ->
  (obsCaptureMode options <> "monitor_capture" ->
   obsCaptureMode options <> "game_capture" ->
   setupScene options st
   = (Throw (Error ("[OBS] Invalid capture mode: " +:+ obsCaptureMode options)),
      withEngine st engine)) /\
  (obsCaptureMode options = "monitor_capture" ->
   (forall d, In d (displays st) ->
              numStrictEq (Display.index d) (jsSub (monitorIndex options) (Num 1))
              = false) ->
   setupScene options st
   = (Throw (Error ("[OBS] No such display with index: "
                    +:+ numberToString (jsSub (monitorIndex options) (Num 1))
                    +:+ ".")),
      withEngine st engine)).
Proof.
  intros Hwrite.
  assert (onEngine (setOBSVideoResolution
                      (parseResolutionsString (obsOutputResolution options))
                      "Output") st
          = (Normal tt, withEngine st engine)) as Hfirst.
  { unfold onEngine. rewrite Hwrite. reflexivity. }
  split.
  - intros Hm Hg. unfold setupScene. cbv zeta.
    rewrite (bind_normal _ _ _ _ _ Hfirst).
    unfold bind, captureSource.
    destruct (String.eqb_spec (obsCaptureMode options) "monitor_capture");
      [contradiction|].
    destruct (String.eqb_spec (obsCaptureMode options) "game_capture");
      [contradiction|].
    reflexivity.
  - intros Hm Hnone. unfold setupScene. cbv zeta.
    rewrite (bind_normal _ _ _ _ _ Hfirst).
    unfold bind, captureSource. rewrite Hm. cbn [String.eqb Ascii.eqb Bool.eqb].
    unfold displayInfo, bind. cbn [displays withEngine].
    assert (find (fun d => numStrictEq (Display.index d)
                             (jsSub (monitorIndex options) (Num 1)))
                 (displays st) = None) as ->.
    { induction (displays st) as [|d l IH]; [reflexivity|].
      cbn [find]. rewrite (Hnone d) by (left; reflexivity).
      apply IH. intros d' Hd'. apply Hnone. right. exact Hd'. }
    reflexivity.
Qed.

Lemma X19_setupScene_witness :
  @setupScene exampleRuntime (withCaptureMode (exampleOptions None) "window_capture")
    (exampleSession 0 (exampleEngine [] []))
  = (Throw (Error ("[OBS] Invalid capture mode: "
                   +:+ obsCaptureMode
                         (withCaptureMode (exampleOptions None) "window_capture"))),
     withEngine (exampleSession 0 (exampleEngine [] []))
       (snd (@setOBSVideoResolution exampleRuntime
               (parseResolutionsString "1920x1080") "Output"
               (exampleEngine [] [])))).
Proof.
  apply (proj1 (@X19_setupScene_fails_after_the_first_write exampleRuntime
                  (withCaptureMode (exampleOptions None) "window_capture")
                  (exampleSession 0 (exampleEngine [] []))
                  (snd (@setOBSVideoResolution exampleRuntime
                          (parseResolutionsString "1920x1080") "Output"
                          (exampleEngine [] [])))
                  eq_refl)); discriminate.
Defined.

(** ** The configuration service *)

Lemma toBoolean_not_blank (v : jsval) :
  toBoolean v = true -> ConfigService.isBlank v = false.
Proof.
  destruct v as [| |b|n|s]; cbn; try discriminate; try reflexivity.
  intros H. apply negb_true_iff in H. exact H.
Qed.

(** X20.  What [get] falls back to.  For a key whose schema default is
    truthy (maxStorage, monitorIndex, the two audio devices,
    minEncounterDuration, and bufferPath once its default has been filled
    in) [get] never returns the empty string, [null] or [undefined].  For
    a key whose default is falsy (the empty string of the paths, the 0 of
    selectedCategory, the [false] of startUp) the default is never used:
    [get] returns what the store answers, so a key that the store does not
    have reads as [undefined].  A stored value that is not blank always
    wins over the default. *)
Theorem X20_get_uses_truthy_defaults_only (st : ConfigService.t)
    (k : ConfigService.key) :
  (toBoolean (ConfigService.schemaDefault st k) = true ->
   ConfigService.isBlank (ConfigService.get k st) = false) /\
  (toBoolean (ConfigService.schemaDefault st k) = false ->
   ConfigService.get k st = ConfigService.storeGet k st) /\
  (ConfigService.has k st = true ->
   ConfigService.isBlank (ConfigService.storeGet k st) = false ->
   ConfigService.get k st = ConfigService.storeGet k st) /\
  (ConfigService.has ConfigService.selectedCategory st = false ->
   ConfigService.get ConfigService.selectedCategory st = VUndefined) /\
  (ConfigService.has ConfigService.startUp st = false ->
   ConfigService.get ConfigService.startUp st = VUndefined).
Proof.
  unfold ConfigService.get.
  split; [|split; [|split; [|split]]].
  - intros Hd. rewrite Hd, andb_true_r.
    destruct (ConfigService.has k st) eqn:Hhas; cbn [negb orb].
    + destruct (ConfigService.isBlank (ConfigService.storeGet k st)) eqn:Hb;
        [apply toBoolean_not_blank, Hd|exact Hb].
    + apply toBoolean_not_blank, Hd.
  - intros Hd. rewrite Hd, andb_false_r. reflexivity.
  - intros Hhas Hb. rewrite Hhas, Hb. reflexivity.
  - intros Hhas. unfold ConfigService.storeGet, ConfigService.has in *.
    destruct (ConfigService.stored st ConfigService.selectedCategory);
      [discriminate|reflexivity].
  - intros Hhas. unfold ConfigService.storeGet, ConfigService.has in *.
    destruct (ConfigService.stored st ConfigService.startUp);
      [discriminate|reflexivity].
Qed.

Lemma X20_get_witness :
  ConfigService.isBlank
    (ConfigService.get ConfigService.maxStorage
       {| ConfigService.stored := fun _ => Some (VString EmptyString);
          ConfigService.bufferPathDefault := VString EmptyString |}) = false.
Proof.
  apply (X20_get_uses_truthy_defaults_only
           {| ConfigService.stored := fun _ => Some (VString EmptyString);
              ConfigService.bufferPathDefault := VString EmptyString |}
           ConfigService.maxStorage).
  reflexivity.
Defined.

(** X21.  The default of bufferPath is filled in once and then sticks.
    While the store has no bufferPath (or a blank one) and the default is
    not empty, [updateDefaults('storagePath', newValue)] leaves the
    service exactly as it was, for every new storage path, and so does
    [validate]: the default computed from the first storage path does not
    follow later changes of the storage path. *)
Theorem X21_buffer_default_sticks {node : NodePath} (st : ConfigService.t)
    (newValue : jsval) :
  ConfigService.has ConfigService.bufferPath st = false \/
  ConfigService.isBlank (ConfigService.storeGet ConfigService.bufferPath st) = true ->
  toBoolean (ConfigService.bufferPathDefault st) = true ->
  ConfigService.updateDefaults "storagePath" newValue st = (Normal tt, st) /\
  snd (ConfigService.validate st) = st.
Proof.
  intros Hblank Hdefault.
  assert (ConfigService.get ConfigService.bufferPath st
          = ConfigService.bufferPathDefault st) as Hget.
  { unfold ConfigService.get. cbn [ConfigService.schemaDefault].
    rewrite Hdefault, andb_true_r.
    destruct Hblank as [-> | ->]; [reflexivity|rewrite orb_true_r; reflexivity]. }
  assert (forall v, ConfigService.updateDefaults "storagePath" v st = (Normal tt, st))
    as Hupdate.
  { intros v. unfold ConfigService.updateDefaults, ConfigService.resolvebufferPath.
    cbn [String.eqb Ascii.eqb Bool.eqb]. rewrite Hget, Hdefault.
    destruct st; reflexivity. }
  split; [apply Hupdate|].
  unfold ConfigService.validate, bind.
  destruct (toBoolean (ConfigService.get ConfigService.storagePath st)) eqn:Hsp.
  - rewrite Hupdate, Hsp. cbn [negb].
    destruct (negb _ && negb _); reflexivity.
  - rewrite Hsp. reflexivity.
Qed.

Lemma X21_buffer_default_witness :
  @ConfigService.updateDefaults examplePath "storagePath" (VString "E:/Other")
    {| ConfigService.stored := fun _ => None;
       ConfigService.bufferPathDefault := VString "D:/Videos/.temp" |}
  = (Normal tt,
     {| ConfigService.stored := fun _ => None;
        ConfigService.bufferPathDefault := VString "D:/Videos/.temp" |}) /\
  snd (@ConfigService.validate examplePath
         {| ConfigService.stored := fun _ => None;
            ConfigService.bufferPathDefault := VString "D:/Videos/.temp" |})
  = {| ConfigService.stored := fun _ => None;
       ConfigService.bufferPathDefault := VString "D:/Videos/.temp" |}.
Proof.
  apply (@X21_buffer_default_sticks examplePath
           {| ConfigService.stored := fun _ => None;
              ConfigService.bufferPathDefault := VString "D:/Videos/.temp" |}
           (VString "E:/Other")).
  - left. reflexivity.
  - reflexivity.
Defined.

(** X22.  [validate] looks at what is stored, never at a default: when the
    stored storage path is a string or is missing, [validate] returns
    normally, and it returns [true] exactly when the stored storagePath is
    a non-empty string and the stored retailLogPath or the stored
    classicLogPath is truthy. *)
Theorem X22_validate_reads_the_store {node : NodePath} (st : ConfigService.t) :
  (forall v, ConfigService.stored st ConfigService.storagePath = Some v ->
             exists s, v = VString s) ->
  fst (ConfigService.validate st)
  = Normal (toBoolean (ConfigService.storeGet ConfigService.storagePath st)
            && (toBoolean (ConfigService.storeGet ConfigService.retailLogPath st)
                || toBoolean (ConfigService.storeGet ConfigService.classicLogPath st))).
Proof.
  intros Hstring.
  assert (forall s k, toBoolean (ConfigService.schemaDefault s k) = false ->
                      ConfigService.get k s = ConfigService.storeGet k s) as Hget.
  { intros s k Hk. unfold ConfigService.get. rewrite Hk, andb_false_r. reflexivity. }
  assert (exists st1,
             ConfigService.stored st1 = ConfigService.stored st /\
             forall k : ConfigService.t -> completion bool * ConfigService.t,
               bind (fun s =>
                       if toBoolean (ConfigService.get ConfigService.storagePath s)
                       then ConfigService.updateDefaults "storagePath"
                              (ConfigService.get ConfigService.storagePath s) s
                       else (Normal tt, s))
                    (fun _ => k) st
               = k st1) as (st1 & Hstored & Hfirst).
  { unfold bind.
    rewrite (Hget st ConfigService.storagePath eq_refl).
    destruct (toBoolean (ConfigService.storeGet ConfigService.storagePath st))
      eqn:Hsp; [|exists st; split; reflexivity].
    assert (exists s, ConfigService.storeGet ConfigService.storagePath st = VString s)
      as [s Hs].
    { unfold ConfigService.storeGet in *.
      destruct (ConfigService.stored st ConfigService.storagePath) as [v|];
        [apply Hstring; reflexivity|discriminate]. }
    unfold ConfigService.updateDefaults, ConfigService.resolvebufferPath.
    cbn [String.eqb Ascii.eqb Bool.eqb]. rewrite Hsp, Hs.
    destruct (toBoolean (ConfigService.get ConfigService.bufferPath st));
      [exists {| ConfigService.stored := ConfigService.stored st;
                 ConfigService.bufferPathDefault :=
                   ConfigService.get ConfigService.bufferPath st |}
      |exists {| ConfigService.stored := ConfigService.stored st;
                 ConfigService.bufferPathDefault :=
                   VString (path_join s ".temp") |}];
      split; reflexivity. }
  unfold ConfigService.validate. rewrite Hfirst.
  rewrite !Hget by reflexivity.
  unfold ConfigService.storeGet. rewrite Hstored.
  destruct (toBoolean _); cbn [negb andb fst]; [|reflexivity].
  destruct (toBoolean _), (toBoolean _); reflexivity.
Qed.

Lemma X22_validate_witness :
  fst (@ConfigService.validate examplePath
         {| ConfigService.stored :=
              fun k => match k with
                       | ConfigService.storagePath => Some (VString "D:/Videos")
                       | ConfigService.retailLogPath => Some (VString "C:/WoW/Logs")
                       | _ => None
                       end;
            ConfigService.bufferPathDefault := VString EmptyString |})
  = Normal true.
Proof.
  apply (@X22_validate_reads_the_store examplePath
           {| ConfigService.stored :=
                fun k => match k with
                         | ConfigService.storagePath => Some (VString "D:/Videos")
                         | ConfigService.retailLogPath => Some (VString "C:/WoW/Logs")
                         | _ => None
                         end;
              ConfigService.bufferPathDefault := VString EmptyString |}).
  intros v [= <-]. eexists. reflexivity.
Defined.

(** ** Raids by encounter *)

Lemma last_filter_split {A : Type} (f : A -> bool) (l : list A) (x : A) :
  last (List.filter f l) = Some x <->
  exists before after,
    l = before ++ x :: after /\ f x = true /\
    forall y, In y after -> f y = false.
Proof.
  split.
  - induction l as [|a l IH] using rev_ind; [discriminate|].
    rewrite List.filter_app. cbn [List.filter].
    destruct (f a) eqn:Ha.
    + rewrite last_snoc. intros [= ->].
      exists l, []. split; [reflexivity|]. split; [exact Ha|]. intros y [].
    + rewrite app_nil_r. intros H.
      destruct (IH H) as (before & after & -> & Hx & Hafter).
      exists before, (after ++ [a]). split; [rewrite <- app_assoc; reflexivity|].
      split; [exact Hx|]. intros y Hy. apply in_app_or in Hy as [Hy|[<-|[]]];
        [apply Hafter, Hy|exact Ha].
  - intros (before & after & -> & Hx & Hafter).
    rewrite List.filter_app. cbn [List.filter]. rewrite Hx.
    rewrite (filter_none f after Hafter). apply last_snoc.
Qed.

(** X23.  [getRaidByEncounterId] returns the last raid of the table that
    lists the encounter: the raid returned lists it and no raid behind it
    in the table does, so where two raids list the same encounter the
    later one wins.  It returns nothing exactly when no raid of the table
    lists the encounter; a missing id, the id 0 and NaN are listed by no
    raid, even when a raid has an encounter 0.
    [getRaidNameByEncounterId] gives the name of the raid returned, and
    "Unknown Raid" whenever nothing is returned, that is, whenever no raid
    lists the encounter, be the id truthy or not. *)
Theorem X23_last_raid_wins (raidInstances : list Raid.t) (zoneID : option number) :
  (forall raid,
      getRaidByEncounterId raidInstances zoneID = Some raid <->
      exists before after,
        raidInstances = before ++ raid :: after /\
        hasEncounter zoneID raid = true /\
        forall later, In later after -> hasEncounter zoneID later = false) /\
  (getRaidByEncounterId raidInstances zoneID = None <->
   forall raid, In raid raidInstances -> hasEncounter zoneID raid = false) /\
  (zoneID = None \/ zoneID = Some (Num 0) \/ zoneID = Some NaN ->
   getRaidByEncounterId raidInstances zoneID = None /\
   getRaidNameByEncounterId raidInstances zoneID = "Unknown Raid") /\
  (forall raid,
      getRaidByEncounterId raidInstances zoneID = Some raid ->
      getRaidNameByEncounterId raidInstances zoneID = Raid.name raid) /\
  (getRaidByEncounterId raidInstances zoneID = None ->
   getRaidNameByEncounterId raidInstances zoneID = "Unknown Raid") /\
  ((forall raid, In raid raidInstances -> hasEncounter zoneID raid = false) ->
   getRaidNameByEncounterId raidInstances zoneID = "Unknown Raid").
Proof.
  assert (getRaidByEncounterId raidInstances zoneID = None <->
          forall raid, In raid raidInstances -> hasEncounter zoneID raid = false)
    as Hnone.
  { unfold getRaidByEncounterId. rewrite last_None. split.
    - intros Hnil raid Hin.
      destruct (hasEncounter zoneID raid) eqn:Hhas; [|reflexivity].
      assert (In raid (List.filter (hasEncounter zoneID) raidInstances)) as Hf
        by (apply List.filter_In; auto).
      rewrite Hnil in Hf. destruct Hf.
    - intros Hall. apply filter_none. exact Hall. }
  assert (getRaidByEncounterId raidInstances zoneID = None ->
          getRaidNameByEncounterId raidInstances zoneID = "Unknown Raid")
    as Hname.
  { intros H. unfold getRaidNameByEncounterId. rewrite H. reflexivity. }
  split; [|split; [exact Hnone|split; [|split; [|split]]]].
  - intros raid. apply last_filter_split.
  - intros Hid.
    assert (getRaidByEncounterId raidInstances zoneID = None) as H.
    { apply Hnone. intros raid _.
      destruct Hid as [-> |[-> | ->]]; reflexivity. }
    split; [exact H|apply Hname, H].
  - intros raid H. unfold getRaidNameByEncounterId. rewrite H. reflexivity.
  - exact Hname.
  - intros Hall. apply Hname, Hnone, Hall.
Qed.

Lemma X23_last_raid_witness :
  getRaidByEncounterId
    [{| Raid.name := "Castle Nathria"; Raid.encounters := {[ 2398 := "Shriekwing" ]} |};
     {| Raid.name := "Fated Castle Nathria";
        Raid.encounters := {[ 2398 := "Shriekwing" ]} |}]
    (Some (Num 2398))
  = Some {| Raid.name := "Fated Castle Nathria";
            Raid.encounters := {[ 2398 := "Shriekwing" ]} |} /\
  getRaidNameByEncounterId
    [{| Raid.name := "Castle Nathria"; Raid.encounters := {[ 2398 := "Shriekwing" ]} |};
     {| Raid.name := "Fated Castle Nathria";
        Raid.encounters := {[ 2398 := "Shriekwing" ]} |}]
    (Some (Num 2399))
  = "Unknown Raid".
Proof.
  split.
  - apply (proj1 (X23_last_raid_wins _ (Some (Num 2398)))).
    exists [{| Raid.name := "Castle Nathria";
               Raid.encounters := {[ 2398 := "Shriekwing" ]} |}], [].
    split; [reflexivity|]. split; [vm_compute; reflexivity|]. intros later [].
  - apply (proj2 (proj2 (proj2 (proj2 (proj2
             (X23_last_raid_wins _ (Some (Num 2399)))))))).
    intros raid [<-|[<-|[]]]; vm_compute; reflexivity.
Defined.

(** ** [stop] without [await] *)

Lemma cons_app_neq {A : Type} (prefix l : list A) (x : A) : prefix ++ x :: l <> l.
Proof.
  intros H. apply (f_equal (@length A)) in H.
  rewrite length_app in H. cbn [length] in H. lia.
Qed.

(** X24.  In the class based revision [stop] awaits nothing: it issues
    the stop command and returns normally at once, whatever the engine
    does.  The three waits begin together, so when the signals stopping,
    stop and wrote are the next three items, no rejection is left
    unhandled exactly when all three arrive within 5 seconds of the call;
    a spacing on which the awaited [stop] of the function based revision
    succeeds (arrivals after 100, 4000 and 8500 ms) leaves an unhandled
    rejection here. *)
Theorem X24_class_stop_awaits_nothing {rt : JSRuntime} (st : recorder) :
  fst (ObsRecorder_stop st) = Normal tt /\
  now (snd (ObsRecorder_stop st)) = now st /\
  commands (snd (ObsRecorder_stop st)) = OBS_service_stopRecording :: commands st /\
  (forall (t1 t2 t3 : Z) (rest : list (Z * signalInfo)),
      waitQueue st
      = (t1, recordingSignal "stopping") :: (t2, recordingSignal "stop")
        :: (t3, recordingSignal "wrote") :: rest ->
      (unhandledRejections (snd (ObsRecorder_stop st)) = unhandledRejections st <->
       beatsTimer (now st) t1 = true /\ beatsTimer (now st) t2 = true /\
       beatsTimer (now st) t3 = true)).
Proof.
  assert (forall call s,
             fst (notAwaited call s) = Normal tt /\
             now (snd (notAwaited call s)) = now s /\
             commands (snd (notAwaited call s)) = commands (snd (call s)))
    as Hdrop.
  { intros call s. unfold notAwaited.
    destruct (call s) as [[[]|e] s']; repeat split. }
  assert (forall value s,
             commands (snd (assertNextSignal value s)) = commands s) as Hcmd.
  { intros value s. apply (assertNextSignal_time value s). }
  unfold ObsRecorder_stop.
  set (s0 := snd (issue OBS_service_stopRecording st)).
  change ((issue OBS_service_stopRecording ;;
           notAwaited (assertNextSignal ObsSignal_Stopping) ;;
           notAwaited (assertNextSignal ObsSignal_Stop) ;;
           notAwaited (assertNextSignal ObsSignal_Wrote)) st)
    with ((notAwaited (assertNextSignal ObsSignal_Stopping) ;;
           notAwaited (assertNextSignal ObsSignal_Stop) ;;
           notAwaited (assertNextSignal ObsSignal_Wrote)) s0).
  unfold bind.
  destruct (Hdrop (assertNextSignal ObsSignal_Stopping) s0) as (Hr1 & Hn1 & Hc1).
  destruct (notAwaited (assertNextSignal ObsSignal_Stopping) s0) as [r1 s1] eqn:H1.
  cbn [fst snd] in Hr1, Hn1, Hc1. subst r1.
  destruct (Hdrop (assertNextSignal ObsSignal_Stop) s1) as (Hr2 & Hn2 & Hc2).
  destruct (notAwaited (assertNextSignal ObsSignal_Stop) s1) as [r2 s2] eqn:H2.
  cbn [fst snd] in Hr2, Hn2, Hc2. subst r2.
  destruct (Hdrop (assertNextSignal ObsSignal_Wrote) s2) as (Hr3 & Hn3 & Hc3).
  split; [exact Hr3|]. split; [rewrite Hn3, Hn2, Hn1; reflexivity|].
  split.
  { rewrite Hc3, Hcmd, Hc2, Hcmd, Hc1, Hcmd. reflexivity. }
  intros t1 t2 t3 rest Hq.
  apply (f_equal snd) in H1, H2. cbn [snd] in H1, H2. subst s1 s2.
  unfold notAwaited, assertNextSignal, bind, raceShift, throw, ret,
    ObsSignal_Stopping, ObsSignal_Stop, ObsSignal_Wrote, recordingSignal in *.
  subst s0. cbn [issue snd waitQueue now unhandledRejections]. rewrite Hq.
  destruct (beatsTimer (now st) t1) eqn:Hb1; cbn;
    destruct (beatsTimer (now st) t2) eqn:Hb2; cbn;
    try rewrite Hb1; try rewrite Hb2; cbn;
    destruct (beatsTimer (now st) t3) eqn:Hb3; cbn;
    try rewrite Hb1; try rewrite Hb2; try rewrite Hb3; cbn;
    split; try (intros (? & ? & ?); discriminate); try (intros _; auto; fail);
    intros H; exfalso;
    first [ apply (cons_app_neq [] _ _ H)
          | apply (cons_app_neq [_] _ _ H)
          | apply (cons_app_neq [_; _] _ _ H) ].
Qed.

Lemma X24_class_stop_witness :
  unhandledRejections
    (snd (@ObsRecorder_stop exampleRuntime
            (exampleRecorder [(100, recordingSignal "stopping");
                              (4000, recordingSignal "stop");
                              (8500, recordingSignal "wrote")])))
  <> unhandledRejections
       (exampleRecorder [(100, recordingSignal "stopping");
                         (4000, recordingSignal "stop");
                         (8500, recordingSignal "wrote")]).
Proof.
  intros H.
  apply (proj2 (proj2 (proj2 (@X24_class_stop_awaits_nothing exampleRuntime
           (exampleRecorder [(100, recordingSignal "stopping");
                             (4000, recordingSignal "stop");
                             (8500, recordingSignal "wrote")])))) 100 4000 8500 []
           eq_refl) in H.
  destruct H as (_ & _ & H). vm_compute in H. discriminate H.
Defined.
